(** * districtsim: the hexagonal settlement grid and its adjacency engine

    A shallow embedding of [src/core/types.ts], [src/core/gameData.ts],
    [src/core/Tile.ts], [src/core/GameMap.ts] and
    [src/core/AdjacencyEngine.ts], followed by the properties of the
    specification that are stated about them.

    Conventions of the embedding.
    - A JavaScript [number] is an integer [Z] (coordinates, counters, yields,
      river-edge indices); [Math.floor (n / 2)] is [n `div` 2].
    - A TypeScript string [enum] is an inductive type inside a module of the
      same name, so that [FeatureType.NONE] reads as in the source.
    - [Tile] and [Set] objects live in a store ([Heap]) and are named by
      their location; code that writes to them or allocates them runs in the
      monad [M], which keeps the store reached so far when an exception is
      thrown.  Code that only reads takes the store as an argument.
    - A [Map<string, Tile>] is the list of its entries in insertion order.

    Left out: the pixel and rounding functions of [HexUtils] (floating
    point), [keyToCoord] (it parses with [Number]), [findTilesWithDistrict]
    (it compares with an arbitrary string), [getDescription],
    [generateReport] and the JSON text layer ([exportToString],
    [importFromString]) around [toJSON] and [fromJSON]. *)

From stdpp Require Import base decidable option list numbers strings pretty.
From Stdlib Require Import ZArith Lia Ascii.

Local Open Scope string_scope.
Local Open Scope list_scope.
Local Open Scope Z_scope.

(** ** core/types.ts *)

Module TerrainType.
Inductive t := GRASS | PLAINS | DESERT | TUNDRA | SNOW | COAST | OCEAN.
#[global] Instance eq_dec : EqDecision t.
Proof. solve_decision. Defined.
End TerrainType.

Module TerrainModifier.
Inductive t := FLAT | HILLS | MOUNTAIN.
#[global] Instance eq_dec : EqDecision t.
Proof. solve_decision. Defined.
End TerrainModifier.

Module FeatureType.
Inductive t :=
  | NONE | WOODS | RAINFOREST | MARSH | FLOODPLAINS | OASIS | REEF | ICE
  | VOLCANO | GEOTHERMAL_FISSURE.
#[global] Instance eq_dec : EqDecision t.
Proof. solve_decision. Defined.
End FeatureType.

Module ResourceCategory.
Inductive t := NONE | BONUS | LUXURY | STRATEGIC.
#[global] Instance eq_dec : EqDecision t.
Proof. solve_decision. Defined.
End ResourceCategory.

Module ResourceType.
Inductive t :=
  | NONE
  (* Bonus Resources *)
  | BANANAS | CATTLE | COPPER | CRABS | DEER | FISH | MAIZE | RICE | SHEEP
  | STONE | WHEAT
  (* Luxury Resources *)
  | AMBER | CITRUS | COCOA | COFFEE | COTTON | DIAMONDS | DYES | FURS
  | GYPSUM | HONEY | INCENSE | IVORY | JADE | MARBLE | MERCURY | PEARLS
  | SALT | SILK | SILVER | SPICES | SUGAR | TEA | TOBACCO | TRUFFLES
  | WHALES | WINE
  (* Strategic Resources *)
  | HORSES | IRON | NITER | COAL | OIL | ALUMINUM | URANIUM.
#[global] Instance eq_dec : EqDecision t.
Proof. solve_decision. Defined.
End ResourceType.

Module DistrictType.
Inductive t :=
  | NONE | CITY_CENTER | HOLY_SITE | CAMPUS | THEATER_SQUARE
  | COMMERCIAL_HUB | HARBOR | INDUSTRIAL_ZONE | ENTERTAINMENT_COMPLEX
  | WATER_PARK | AQUEDUCT | NEIGHBORHOOD | SPACEPORT | AERODROME
  | ENCAMPMENT | GOVERNMENT_PLAZA | DIPLOMATIC_QUARTER | PRESERVE | DAM
  | CANAL.
#[global] Instance eq_dec : EqDecision t.
Proof. solve_decision. Defined.
End DistrictType.

Module WonderType.
Inductive t :=
  | NONE
  (* Ancient Era *)
  | STONEHENGE | PYRAMIDS | HANGING_GARDENS | ORACLE | GREAT_BATH
  | TEMPLE_OF_ARTEMIS | ETEMENANKI
  (* Classical Era *)
  | COLOSSEUM | COLOSSUS | GREAT_LIBRARY | GREAT_LIGHTHOUSE | JEBEL_BARKAL
  | MAHABODHI_TEMPLE | MAUSOLEUM_AT_HALICARNASSUS | PETRA | TERRACOTTA_ARMY
  | APADANA | STATUE_OF_ZEUS
  (* Medieval Era *)
  | ALHAMBRA | ANGKOR_WAT | CHICHEN_ITZA | HAGIA_SOPHIA | KILWA_KISIWANI
  | KOTOKU_IN | MEENAKSHI_TEMPLE | MONT_ST_MICHEL | UNIVERSIDAD_DE_SALAMANCA
  (* Renaissance Era *)
  | FORBIDDEN_CITY | GREAT_ZIMBABWE | HUEY_TEOCALLI | POTALA_PALACE
  | ST_BASILS_CATHEDRAL | TAJ_MAHAL | TORRE_DE_BELEM | VENETIAN_ARSENAL
  (* Industrial Era *)
  | BIG_BEN | BOLSHOI_THEATRE | HERMITAGE | OXFORD_UNIVERSITY | RUHR_VALLEY
  | STATUE_OF_LIBERTY
  (* Modern Era *)
  | BROADWAY | CRISTO_REDENTOR | EIFFEL_TOWER | GOLDEN_GATE_BRIDGE
  | PANAMA_CANAL
  (* Atomic Era *)
  | BIOSPHERE | ESTADIO_DO_MARACANA | SYDNEY_OPERA_HOUSE
  (* Information Era *)
  | AMUNDSEN_SCOTT_RESEARCH_STATION.
#[global] Instance eq_dec : EqDecision t.
Proof. solve_decision. Defined.
End WonderType.

Module NaturalWonderType.
Inductive t :=
  | NONE | CLIFFS_OF_DOVER | CRATER_LAKE | DEAD_SEA | EVEREST
  | GALAPAGOS_ISLANDS | GREAT_BARRIER_REEF | KILIMANJARO | PANTANAL
  | PIOPIOTAHI | TORRES_DEL_PAINE | TSINGY_DE_BEMARAHA | YOSEMITE
  | ZHANGYE_DANXIA | BERMUDA_TRIANGLE | CHOCOLOTE_HILLS | DELICATE_ARCH
  | EYE_OF_THE_SAHARA | GIANTS_CAUSEWAY | GOBUSTAN | HA_LONG_BAY | IK_KIL
  | LAKE_RETBA | MATO_TIPILA | MATTERHORN | PAMUKKALE | RORAIMA
  | SAHARA_EL_BEYDA | UBSUNUR_HOLLOW | ULURU | VESUVIUS | VINLAND
  | WHITE_DESERT.
#[global] Instance eq_dec : EqDecision t.
Proof. solve_decision. Defined.
End NaturalWonderType.

Module ImprovementType.
Inductive t :=
  | NONE | FARM | MINE | QUARRY | LUMBER_MILL | PASTURE | PLANTATION | CAMP
  | FISHING_BOATS | OIL_WELL | OFFSHORE_OIL_RIG.
#[global] Instance eq_dec : EqDecision t.
Proof. solve_decision. Defined.
End ImprovementType.

(** [interface Yields]: six named numeric fields. *)
Record Yields := mkYields {
  food : Z; production : Z; gold : Z; science : Z; culture : Z; faith : Z }.

Definition EMPTY_YIELDS : Yields :=
  {| food := 0; production := 0; gold := 0;
     science := 0; culture := 0; faith := 0 |}.

#[global] Instance Yields_eq_dec : EqDecision Yields.
Proof. solve_decision. Defined.

(** [keyof Yields], with reading [y[k]] and the update [y[k] += n]. *)
Inductive YieldKey := Kfood | Kproduction | Kgold | Kscience | Kculture | Kfaith.

#[global] Instance YieldKey_eq_dec : EqDecision YieldKey.
Proof. solve_decision. Defined.

Definition Yields_get (y : Yields) (k : YieldKey) : Z :=
  match k with
  | Kfood => food y | Kproduction => production y | Kgold => gold y
  | Kscience => science y | Kculture => culture y | Kfaith => faith y
  end.

Definition Yields_add (k : YieldKey) (n : Z) (y : Yields) : Yields :=
  match k with
  | Kfood => mkYields (food y + n) (production y) (gold y) (science y) (culture y) (faith y)
  | Kproduction => mkYields (food y) (production y + n) (gold y) (science y) (culture y) (faith y)
  | Kgold => mkYields (food y) (production y) (gold y + n) (science y) (culture y) (faith y)
  | Kscience => mkYields (food y) (production y) (gold y) (science y + n) (culture y) (faith y)
  | Kculture => mkYields (food y) (production y) (gold y) (science y) (culture y + n) (faith y)
  | Kfaith => mkYields (food y) (production y) (gold y) (science y) (culture y) (faith y + n)
  end.

(** [interface HexCoord] (axial, pointy-top). *)
Record HexCoord := mkHexCoord { q : Z; r : Z }.

#[global] Instance HexCoord_eq_dec : EqDecision HexCoord.
Proof. solve_decision. Defined.

(** [interface CubeCoord] (derived from axial, [q + r + s = 0]). *)
Module CubeCoord.
Record t := mk { q : Z; r : Z; s : Z }.
End CubeCoord.

(** [interface AdjacencyBonus]. *)
Record AdjacencyBonus := mkAdjacencyBonus {
  districtType : DistrictType.t;
  yieldType : YieldKey;
  amount : Z;
  source : string }.

(** ** core/gameData.ts

    The tables are total on their enum ([Record<TerrainType, TerrainInfo>]
    and so on), hence functions.  [{ ...EMPTY_YIELDS, food: 2 }] is
    [spread EMPTY_YIELDS [(Kfood, 2)]].  The [description] texts of the
    districts and the wonder tables, which no function of the core reads,
    are left out. *)

Definition Yields_set (k : YieldKey) (n : Z) (y : Yields) : Yields :=
  match k with
  | Kfood => mkYields n (production y) (gold y) (science y) (culture y) (faith y)
  | Kproduction => mkYields (food y) n (gold y) (science y) (culture y) (faith y)
  | Kgold => mkYields (food y) (production y) n (science y) (culture y) (faith y)
  | Kscience => mkYields (food y) (production y) (gold y) n (culture y) (faith y)
  | Kculture => mkYields (food y) (production y) (gold y) (science y) n (faith y)
  | Kfaith => mkYields (food y) (production y) (gold y) (science y) (culture y) n
  end.

Definition spread (y : Yields) (fields : list (YieldKey * Z)) : Yields :=
  foldl (fun acc kv => Yields_set kv.1 kv.2 acc) y fields.

Module TerrainInfo.
Record t := mk {
  name : string; yields : Yields; movementCost : Z; isWater : bool }.
End TerrainInfo.
Abbreviation TerrainInfo := TerrainInfo.t.
Abbreviation mkTerrainInfo := TerrainInfo.mk.

Module FeatureInfo.
Record t := mk {
  name : string; yields : Yields; validTerrains : list TerrainType.t;
  removable : bool; appealModifier : Z }.
End FeatureInfo.
Abbreviation FeatureInfo := FeatureInfo.t.
Abbreviation mkFeatureInfo := FeatureInfo.mk.

Module ResourceInfo.
Record t := mk {
  name : string; category : ResourceCategory.t; yields : Yields;
  validTerrains : list TerrainType.t; validFeatures : list FeatureType.t }.
End ResourceInfo.
Abbreviation ResourceInfo := ResourceInfo.t.
Abbreviation mkResourceInfo := ResourceInfo.mk.

Module DistrictInfo.
Record t := mk {
  name : string; baseYields : Yields; primaryYieldType : option YieldKey;
  requiresCoast : bool; requiresLand : bool; canBuildOnHills : bool;
  isSpecialty : bool }.
End DistrictInfo.
Abbreviation DistrictInfo := DistrictInfo.t.
Abbreviation mkDistrictInfo := DistrictInfo.mk.

Definition TERRAIN_DATA (k : TerrainType.t) : TerrainInfo :=
  match k with
  | TerrainType.GRASS =>
      mkTerrainInfo "Grassland" (spread EMPTY_YIELDS [(Kfood, 2)]) 1 false
  | TerrainType.PLAINS =>
      mkTerrainInfo "Plains" (spread EMPTY_YIELDS [(Kfood, 1); (Kproduction, 1)]) 1 false
  | TerrainType.DESERT =>
      mkTerrainInfo "Desert" (spread EMPTY_YIELDS []) 1 false
  | TerrainType.TUNDRA =>
      mkTerrainInfo "Tundra" (spread EMPTY_YIELDS [(Kfood, 1)]) 1 false
  | TerrainType.SNOW =>
      mkTerrainInfo "Snow" (spread EMPTY_YIELDS []) 1 false
  | TerrainType.COAST =>
      mkTerrainInfo "Coast" (spread EMPTY_YIELDS [(Kfood, 1); (Kgold, 1)]) 1 true
  | TerrainType.OCEAN =>
      mkTerrainInfo "Ocean" (spread EMPTY_YIELDS [(Kfood, 1)]) 1 true
  end.

Definition FEATURE_DATA (k : FeatureType.t) : FeatureInfo :=
  match k with
  | FeatureType.NONE =>
      mkFeatureInfo "None" (spread EMPTY_YIELDS [])
        [] false (0)
  | FeatureType.WOODS =>
      mkFeatureInfo "Woods" (spread EMPTY_YIELDS [(Kproduction, 1)])
        [TerrainType.GRASS; TerrainType.PLAINS; TerrainType.TUNDRA] true (1)
  | FeatureType.RAINFOREST =>
      mkFeatureInfo "Rainforest" (spread EMPTY_YIELDS [(Kfood, 1)])
        [TerrainType.PLAINS] true (-1)
  | FeatureType.MARSH =>
      mkFeatureInfo "Marsh" (spread EMPTY_YIELDS [(Kfood, 1)])
        [TerrainType.GRASS] true (-1)
  | FeatureType.FLOODPLAINS =>
      mkFeatureInfo "Floodplains" (spread EMPTY_YIELDS [(Kfood, 3)])
        [TerrainType.DESERT; TerrainType.GRASS; TerrainType.PLAINS] false (-1)
  | FeatureType.OASIS =>
      mkFeatureInfo "Oasis" (spread EMPTY_YIELDS [(Kfood, 3); (Kgold, 1)])
        [TerrainType.DESERT] false (1)
  | FeatureType.REEF =>
      mkFeatureInfo "Reef" (spread EMPTY_YIELDS [(Kfood, 1); (Kproduction, 1)])
        [TerrainType.COAST] false (0)
  | FeatureType.ICE =>
      mkFeatureInfo "Ice" (spread EMPTY_YIELDS [])
        [TerrainType.COAST; TerrainType.OCEAN] false (0)
  | FeatureType.VOLCANO =>
      mkFeatureInfo "Volcano" (spread EMPTY_YIELDS [])
        [TerrainType.GRASS; TerrainType.PLAINS; TerrainType.DESERT; TerrainType.TUNDRA; TerrainType.SNOW] false (0)
  | FeatureType.GEOTHERMAL_FISSURE =>
      mkFeatureInfo "Geothermal Fissure" (spread EMPTY_YIELDS [(Kscience, 1)])
        [TerrainType.GRASS; TerrainType.PLAINS; TerrainType.DESERT; TerrainType.TUNDRA; TerrainType.SNOW] false (-1)
  end.

Definition RESOURCE_DATA (k : ResourceType.t) : ResourceInfo :=
  match k with
  | ResourceType.NONE =>
      mkResourceInfo "None" ResourceCategory.NONE (spread EMPTY_YIELDS [])
        []
        []
  | ResourceType.BANANAS =>
      mkResourceInfo "Bananas" ResourceCategory.BONUS (spread EMPTY_YIELDS [(Kfood, 1)])
        [TerrainType.PLAINS]
        [FeatureType.RAINFOREST]
  | ResourceType.CATTLE =>
      mkResourceInfo "Cattle" ResourceCategory.BONUS (spread EMPTY_YIELDS [(Kfood, 1)])
        [TerrainType.GRASS]
        [FeatureType.NONE]
  | ResourceType.COPPER =>
      mkResourceInfo "Copper" ResourceCategory.BONUS (spread EMPTY_YIELDS [(Kgold, 2)])
        [TerrainType.GRASS; TerrainType.PLAINS; TerrainType.DESERT; TerrainType.TUNDRA]
        [FeatureType.NONE]
  | ResourceType.CRABS =>
      mkResourceInfo "Crabs" ResourceCategory.BONUS (spread EMPTY_YIELDS [(Kgold, 2)])
        [TerrainType.COAST]
        [FeatureType.NONE]
  | ResourceType.DEER =>
      mkResourceInfo "Deer" ResourceCategory.BONUS (spread EMPTY_YIELDS [(Kproduction, 1)])
        [TerrainType.TUNDRA]
        [FeatureType.WOODS]
  | ResourceType.FISH =>
      mkResourceInfo "Fish" ResourceCategory.BONUS (spread EMPTY_YIELDS [(Kfood, 1)])
        [TerrainType.COAST; TerrainType.OCEAN]
        [FeatureType.NONE]
  | ResourceType.MAIZE =>
      mkResourceInfo "Maize" ResourceCategory.BONUS (spread EMPTY_YIELDS [(Kgold, 2)])
        [TerrainType.GRASS; TerrainType.PLAINS]
        [FeatureType.NONE]
  | ResourceType.RICE =>
      mkResourceInfo "Rice" ResourceCategory.BONUS (spread EMPTY_YIELDS [(Kfood, 1)])
        [TerrainType.GRASS]
        [FeatureType.MARSH]
  | ResourceType.SHEEP =>
      mkResourceInfo "Sheep" ResourceCategory.BONUS (spread EMPTY_YIELDS [(Kfood, 1)])
        [TerrainType.GRASS; TerrainType.PLAINS; TerrainType.DESERT; TerrainType.TUNDRA]
        [FeatureType.NONE]
  | ResourceType.STONE =>
      mkResourceInfo "Stone" ResourceCategory.BONUS (spread EMPTY_YIELDS [(Kproduction, 1)])
        [TerrainType.GRASS; TerrainType.PLAINS; TerrainType.DESERT; TerrainType.TUNDRA]
        [FeatureType.NONE]
  | ResourceType.WHEAT =>
      mkResourceInfo "Wheat" ResourceCategory.BONUS (spread EMPTY_YIELDS [(Kfood, 1)])
        [TerrainType.PLAINS]
        [FeatureType.FLOODPLAINS]
  | ResourceType.AMBER =>
      mkResourceInfo "Amber" ResourceCategory.LUXURY (spread EMPTY_YIELDS [(Kgold, 3)])
        [TerrainType.GRASS; TerrainType.PLAINS]
        [FeatureType.WOODS]
  | ResourceType.CITRUS =>
      mkResourceInfo "Citrus" ResourceCategory.LUXURY (spread EMPTY_YIELDS [(Kfood, 2)])
        [TerrainType.GRASS; TerrainType.PLAINS]
        [FeatureType.NONE]
  | ResourceType.COCOA =>
      mkResourceInfo "Cocoa" ResourceCategory.LUXURY (spread EMPTY_YIELDS [(Kgold, 3)])
        [TerrainType.PLAINS]
        [FeatureType.RAINFOREST]
  | ResourceType.COFFEE =>
      mkResourceInfo "Coffee" ResourceCategory.LUXURY (spread EMPTY_YIELDS [(Kculture, 1)])
        [TerrainType.GRASS; TerrainType.PLAINS]
        [FeatureType.NONE]
  | ResourceType.COTTON =>
      mkResourceInfo "Cotton" ResourceCategory.LUXURY (spread EMPTY_YIELDS [(Kgold, 3)])
        [TerrainType.GRASS; TerrainType.PLAINS]
        [FeatureType.NONE]
  | ResourceType.DIAMONDS =>
      mkResourceInfo "Diamonds" ResourceCategory.LUXURY (spread EMPTY_YIELDS [(Kgold, 3)])
        [TerrainType.GRASS; TerrainType.PLAINS; TerrainType.DESERT; TerrainType.TUNDRA]
        [FeatureType.RAINFOREST]
  | ResourceType.DYES =>
      mkResourceInfo "Dyes" ResourceCategory.LUXURY (spread EMPTY_YIELDS [(Kfaith, 1)])
        [TerrainType.PLAINS]
        [FeatureType.RAINFOREST; FeatureType.WOODS]
  | ResourceType.FURS =>
      mkResourceInfo "Furs" ResourceCategory.LUXURY (spread EMPTY_YIELDS [(Kfood, 1); (Kgold, 1)])
        [TerrainType.TUNDRA]
        [FeatureType.WOODS]
  | ResourceType.GYPSUM =>
      mkResourceInfo "Gypsum" ResourceCategory.LUXURY (spread EMPTY_YIELDS [(Kproduction, 1); (Kgold, 1)])
        [TerrainType.PLAINS; TerrainType.DESERT]
        [FeatureType.NONE]
  | ResourceType.HONEY =>
      mkResourceInfo "Honey" ResourceCategory.LUXURY (spread EMPTY_YIELDS [(Kfood, 2)])
        [TerrainType.GRASS; TerrainType.PLAINS]
        [FeatureType.NONE]
  | ResourceType.INCENSE =>
      mkResourceInfo "Incense" ResourceCategory.LUXURY (spread EMPTY_YIELDS [(Kfaith, 1)])
        [TerrainType.PLAINS; TerrainType.DESERT]
        [FeatureType.NONE]
  | ResourceType.IVORY =>
      mkResourceInfo "Ivory" ResourceCategory.LUXURY (spread EMPTY_YIELDS [(Kproduction, 1); (Kgold, 1)])
        [TerrainType.PLAINS; TerrainType.DESERT]
        [FeatureType.NONE]
  | ResourceType.JADE =>
      mkResourceInfo "Jade" ResourceCategory.LUXURY (spread EMPTY_YIELDS [(Kculture, 1)])
        [TerrainType.GRASS; TerrainType.PLAINS; TerrainType.TUNDRA]
        [FeatureType.WOODS]
  | ResourceType.MARBLE =>
      mkResourceInfo "Marble" ResourceCategory.LUXURY (spread EMPTY_YIELDS [(Kculture, 1)])
        [TerrainType.GRASS; TerrainType.PLAINS]
        [FeatureType.NONE]
  | ResourceType.MERCURY =>
      mkResourceInfo "Mercury" ResourceCategory.LUXURY (spread EMPTY_YIELDS [(Kscience, 1)])
        [TerrainType.PLAINS]
        [FeatureType.NONE]
  | ResourceType.PEARLS =>
      mkResourceInfo "Pearls" ResourceCategory.LUXURY (spread EMPTY_YIELDS [(Kfaith, 1)])
        [TerrainType.COAST]
        [FeatureType.NONE]
  | ResourceType.SALT =>
      mkResourceInfo "Salt" ResourceCategory.LUXURY (spread EMPTY_YIELDS [(Kfood, 1); (Kgold, 1)])
        [TerrainType.PLAINS; TerrainType.DESERT; TerrainType.TUNDRA]
        [FeatureType.NONE]
  | ResourceType.SILK =>
      mkResourceInfo "Silk" ResourceCategory.LUXURY (spread EMPTY_YIELDS [(Kculture, 1)])
        [TerrainType.GRASS; TerrainType.PLAINS]
        [FeatureType.WOODS]
  | ResourceType.SILVER =>
      mkResourceInfo "Silver" ResourceCategory.LUXURY (spread EMPTY_YIELDS [(Kgold, 3)])
        [TerrainType.DESERT; TerrainType.TUNDRA]
        [FeatureType.NONE]
  | ResourceType.SPICES =>
      mkResourceInfo "Spices" ResourceCategory.LUXURY (spread EMPTY_YIELDS [(Kfood, 2)])
        [TerrainType.PLAINS]
        [FeatureType.RAINFOREST]
  | ResourceType.SUGAR =>
      mkResourceInfo "Sugar" ResourceCategory.LUXURY (spread EMPTY_YIELDS [(Kfood, 2)])
        [TerrainType.GRASS]
        [FeatureType.FLOODPLAINS; FeatureType.MARSH]
  | ResourceType.TEA =>
      mkResourceInfo "Tea" ResourceCategory.LUXURY (spread EMPTY_YIELDS [(Kculture, 1)])
        [TerrainType.GRASS; TerrainType.PLAINS]
        [FeatureType.NONE]
  | ResourceType.TOBACCO =>
      mkResourceInfo "Tobacco" ResourceCategory.LUXURY (spread EMPTY_YIELDS [(Kfaith, 1)])
        [TerrainType.GRASS; TerrainType.PLAINS]
        [FeatureType.NONE]
  | ResourceType.TRUFFLES =>
      mkResourceInfo "Truffles" ResourceCategory.LUXURY (spread EMPTY_YIELDS [(Kgold, 3)])
        [TerrainType.GRASS; TerrainType.PLAINS; TerrainType.TUNDRA]
        [FeatureType.RAINFOREST; FeatureType.MARSH; FeatureType.WOODS]
  | ResourceType.WHALES =>
      mkResourceInfo "Whales" ResourceCategory.LUXURY (spread EMPTY_YIELDS [(Kgold, 1); (Kproduction, 1)])
        [TerrainType.COAST; TerrainType.OCEAN]
        [FeatureType.NONE]
  | ResourceType.WINE =>
      mkResourceInfo "Wine" ResourceCategory.LUXURY (spread EMPTY_YIELDS [(Kfood, 1); (Kgold, 1)])
        [TerrainType.GRASS; TerrainType.PLAINS]
        [FeatureType.NONE]
  | ResourceType.HORSES =>
      mkResourceInfo "Horses" ResourceCategory.STRATEGIC (spread EMPTY_YIELDS [(Kfood, 1); (Kproduction, 1)])
        [TerrainType.GRASS; TerrainType.PLAINS; TerrainType.TUNDRA]
        [FeatureType.NONE]
  | ResourceType.IRON =>
      mkResourceInfo "Iron" ResourceCategory.STRATEGIC (spread EMPTY_YIELDS [(Kscience, 1)])
        [TerrainType.GRASS; TerrainType.PLAINS; TerrainType.DESERT; TerrainType.TUNDRA; TerrainType.SNOW]
        [FeatureType.NONE]
  | ResourceType.NITER =>
      mkResourceInfo "Niter" ResourceCategory.STRATEGIC (spread EMPTY_YIELDS [(Kfood, 1); (Kproduction, 1)])
        [TerrainType.GRASS; TerrainType.PLAINS; TerrainType.DESERT; TerrainType.TUNDRA]
        [FeatureType.NONE]
  | ResourceType.COAL =>
      mkResourceInfo "Coal" ResourceCategory.STRATEGIC (spread EMPTY_YIELDS [(Kproduction, 2)])
        [TerrainType.GRASS; TerrainType.PLAINS]
        [FeatureType.NONE]
  | ResourceType.OIL =>
      mkResourceInfo "Oil" ResourceCategory.STRATEGIC (spread EMPTY_YIELDS [(Kproduction, 3)])
        [TerrainType.DESERT; TerrainType.TUNDRA; TerrainType.SNOW; TerrainType.COAST; TerrainType.OCEAN]
        [FeatureType.RAINFOREST; FeatureType.MARSH]
  | ResourceType.ALUMINUM =>
      mkResourceInfo "Aluminum" ResourceCategory.STRATEGIC (spread EMPTY_YIELDS [(Kscience, 1)])
        [TerrainType.PLAINS; TerrainType.DESERT]
        [FeatureType.NONE]
  | ResourceType.URANIUM =>
      mkResourceInfo "Uranium" ResourceCategory.STRATEGIC (spread EMPTY_YIELDS [(Kproduction, 2)])
        [TerrainType.GRASS; TerrainType.PLAINS; TerrainType.DESERT; TerrainType.TUNDRA; TerrainType.SNOW]
        [FeatureType.RAINFOREST; FeatureType.MARSH; FeatureType.WOODS]
  end.

Definition DISTRICT_DATA (k : DistrictType.t) : DistrictInfo :=
  match k with
  | DistrictType.NONE =>
      mkDistrictInfo "None" (spread EMPTY_YIELDS []) None
        false false true false
  | DistrictType.CITY_CENTER =>
      mkDistrictInfo "City Center" (spread EMPTY_YIELDS [(Kfood, 2); (Kproduction, 1)]) None
        false true true false
  | DistrictType.HOLY_SITE =>
      mkDistrictInfo "Holy Site" (spread EMPTY_YIELDS []) (Some Kfaith)
        false true true true
  | DistrictType.CAMPUS =>
      mkDistrictInfo "Campus" (spread EMPTY_YIELDS []) (Some Kscience)
        false true true true
  | DistrictType.THEATER_SQUARE =>
      mkDistrictInfo "Theater Square" (spread EMPTY_YIELDS []) (Some Kculture)
        false true true true
  | DistrictType.COMMERCIAL_HUB =>
      mkDistrictInfo "Commercial Hub" (spread EMPTY_YIELDS []) (Some Kgold)
        false true true true
  | DistrictType.HARBOR =>
      mkDistrictInfo "Harbor" (spread EMPTY_YIELDS []) (Some Kgold)
        true false false true
  | DistrictType.INDUSTRIAL_ZONE =>
      mkDistrictInfo "Industrial Zone" (spread EMPTY_YIELDS []) (Some Kproduction)
        false true true true
  | DistrictType.ENTERTAINMENT_COMPLEX =>
      mkDistrictInfo "Entertainment Complex" (spread EMPTY_YIELDS []) None
        false true true true
  | DistrictType.WATER_PARK =>
      mkDistrictInfo "Water Park" (spread EMPTY_YIELDS []) None
        true false false true
  | DistrictType.AQUEDUCT =>
      mkDistrictInfo "Aqueduct" (spread EMPTY_YIELDS []) None
        false true false false
  | DistrictType.NEIGHBORHOOD =>
      mkDistrictInfo "Neighborhood" (spread EMPTY_YIELDS []) None
        false true true false
  | DistrictType.SPACEPORT =>
      mkDistrictInfo "Spaceport" (spread EMPTY_YIELDS []) None
        false true false true
  | DistrictType.AERODROME =>
      mkDistrictInfo "Aerodrome" (spread EMPTY_YIELDS []) None
        false true false true
  | DistrictType.ENCAMPMENT =>
      mkDistrictInfo "Encampment" (spread EMPTY_YIELDS []) None
        false true true true
  | DistrictType.GOVERNMENT_PLAZA =>
      mkDistrictInfo "Government Plaza" (spread EMPTY_YIELDS []) None
        false true true true
  | DistrictType.DIPLOMATIC_QUARTER =>
      mkDistrictInfo "Diplomatic Quarter" (spread EMPTY_YIELDS []) None
        false true true true
  | DistrictType.PRESERVE =>
      mkDistrictInfo "Preserve" (spread EMPTY_YIELDS []) None
        false true true true
  | DistrictType.DAM =>
      mkDistrictInfo "Dam" (spread EMPTY_YIELDS []) None
        false true false false
  | DistrictType.CANAL =>
      mkDistrictInfo "Canal" (spread EMPTY_YIELDS [(Kgold, 2)]) (Some Kgold)
        false true false false
  end.

(** The string values of the two enums that [Tile.setFeature] prints in its
    error message. *)
Definition TerrainType_value (x : TerrainType.t) : string :=
  match x with
  | TerrainType.GRASS => "grass" | TerrainType.PLAINS => "plains"
  | TerrainType.DESERT => "desert" | TerrainType.TUNDRA => "tundra"
  | TerrainType.SNOW => "snow" | TerrainType.COAST => "coast"
  | TerrainType.OCEAN => "ocean"
  end.

Definition FeatureType_value (x : FeatureType.t) : string :=
  match x with
  | FeatureType.NONE => "none" | FeatureType.WOODS => "forest"
  | FeatureType.RAINFOREST => "jungle" | FeatureType.MARSH => "marsh"
  | FeatureType.FLOODPLAINS => "floodplains" | FeatureType.OASIS => "oasis"
  | FeatureType.REEF => "reef" | FeatureType.ICE => "ice"
  | FeatureType.VOLCANO => "volcano"
  | FeatureType.GEOTHERMAL_FISSURE => "geothermal_fissure"
  end.

(** ** The object store

    [x === y] and [x !== y] are the comparisons of the source on enum
    values. *)

Notation "x === y" := (bool_decide (x = y)) (at level 70, no associativity).
Notation "x !== y" := (negb (bool_decide (x = y))) (at level 70, no associativity).

Abbreviation loc := nat.

(** [interface TileData], the serialized form of a tile. *)
Module TileData.
Record t := mk {
  coord : HexCoord;
  terrain : TerrainType.t;
  modifier : TerrainModifier.t;
  feature : FeatureType.t;
  resource : ResourceType.t;
  district : DistrictType.t;
  wonder : WonderType.t;
  naturalWonder : NaturalWonderType.t;
  improvement : ImprovementType.t;
  riverEdges : list Z;
  ownerCityId : option string;
  isCityCenter : bool }.
End TileData.

(** The instance fields of [class Tile].  [_riverEdges] holds a reference to
    a [Set<number>] object; [_ownerCityId] is [string | null]. *)
Record TileFields := mkTileFields {
  coord : HexCoord;
  _terrain : TerrainType.t;
  _modifier : TerrainModifier.t;
  _feature : FeatureType.t;
  _resource : ResourceType.t;
  _district : DistrictType.t;
  _wonder : WonderType.t;
  _naturalWonder : NaturalWonderType.t;
  _improvement : ImprovementType.t;
  _riverEdges : loc;
  _ownerCityId : option string;
  _isCityCenter : bool }.

(** A store: the [Tile] objects and the [Set<number>] objects allocated so
    far, each named by its index.  A set is the list of its elements in
    insertion order, without repetition. *)
Record Heap := mkHeap {
  tileObjs : list TileFields;
  setObjs : list (list Z) }.

Definition emptyHeap : Heap := mkHeap [] [].

(** The field values of a tile declared without initial assignment. *)
Definition initialFields (c : HexCoord) (edges : loc) : TileFields :=
  {| coord := c;
     _terrain := TerrainType.GRASS;
     _modifier := TerrainModifier.FLAT;
     _feature := FeatureType.NONE;
     _resource := ResourceType.NONE;
     _district := DistrictType.NONE;
     _wonder := WonderType.NONE;
     _naturalWonder := NaturalWonderType.NONE;
     _improvement := ImprovementType.NONE;
     _riverEdges := edges;
     _ownerCityId := None;
     _isCityCenter := false |}.

(** Dereferencing.  A reference of the program always names an allocated
    object; outside the store the functions answer with a fixed value. *)
Definition tileAt (h : Heap) (l : loc) : TileFields :=
  default (initialFields (mkHexCoord 0 0) 0%nat) (tileObjs h !! l).

Definition setAt (h : Heap) (l : loc) : list Z :=
  default [] (setObjs h !! l).

(** ** Computations on the store

    [M A] is a computation that may allocate and write objects and ends
    either normally with a value or by throwing; the store it has reached
    is kept in both cases, as after a [throw] in the source. *)

Inductive Exn := Error (message : string).

Inductive Completion (A : Type) :=
  | Normal (a : A)
  | Throw (e : Exn).
Arguments Normal {A} a.
Arguments Throw {A} e.

Definition M (A : Type) : Type := Heap -> Completion A * Heap.

Definition ret {A} (a : A) : M A := fun h => (Normal a, h).

Definition bind {A B} (c : M A) (k : A -> M B) : M B :=
  fun h =>
    match c h with
    | (Normal a, h') => k a h'
    | (Throw e, h') => (Throw e, h')
    end.

Definition throw {A} (e : Exn) : M A := fun h => (Throw e, h).

Definition gets {A} (f : Heap -> A) : M A := fun h => (Normal (f h), h).

Declare Scope M_scope.
Delimit Scope M_scope with M.
Notation "x <- c ;; k" := (bind c (fun x => k))
  (at level 100, c at next level, right associativity) : M_scope.
Notation "c ;; k" := (bind c (fun _ => k))
  (at level 100, k at level 200, only parsing, right associativity) : M_scope.

(** [if (c) { throw ... }] and other one-armed conditionals. *)
Definition when_ (c : bool) (body : M unit) : M unit :=
  if c then body else ret tt.

(** [for (const x of xs) { s = body(s, x) }], the loop variables in [s]. *)
Fixpoint forOf {A S} (xs : list A) (body : S -> A -> M S) (s : S) : M S :=
  match xs with
  | [] => ret s
  | x :: xs' => (s' <- body s x ;; forOf xs' body s')%M
  end.

Definition allocTile (t : TileFields) : M loc :=
  fun h => (Normal (length (tileObjs h)),
            mkHeap (tileObjs h ++ [t]) (setObjs h)).

Definition modifyTile (this : loc) (f : TileFields -> TileFields) : M unit :=
  fun h => (Normal tt, mkHeap (alter f this (tileObjs h)) (setObjs h)).

Definition allocSet (s : list Z) : M loc :=
  fun h => (Normal (length (setObjs h)),
            mkHeap (tileObjs h) (setObjs h ++ [s])).

Definition modifySet (this : loc) (f : list Z -> list Z) : M unit :=
  fun h => (Normal tt, mkHeap (tileObjs h) (alter f this (setObjs h))).

(** ** [Set<number>] *)

Module JsSet.

Definition add_elem (x : Z) (s : list Z) : list Z :=
  if bool_decide (x ∈ s) then s else s ++ [x].

Definition delete_elem (x : Z) (s : list Z) : list Z :=
  filter (fun y => y ≠ x) s.

(** [new Set(iterable)]: the elements are added one after the other. *)
Definition new (iterable : list Z) : M loc :=
  allocSet (foldl (fun s x => add_elem x s) [] iterable).

Definition add (this : loc) (x : Z) : M unit := modifySet this (add_elem x).

Definition delete (this : loc) (x : Z) : M unit := modifySet this (delete_elem x).

Definition has (h : Heap) (this : loc) (x : Z) : bool :=
  bool_decide (x ∈ setAt h this).

Definition size (h : Heap) (this : loc) : Z := Z.of_nat (length (setAt h this)).

(** [Array.from(set)] and iteration: insertion order. *)
Definition values (h : Heap) (this : loc) : list Z := setAt h this.

End JsSet.

(** ** core/Tile.ts *)

(** The assignments [this._terrain = v] and so on, one field at a time. *)
Definition with_terrain (v : TerrainType.t) (t : TileFields) : TileFields :=
  mkTileFields (coord t) v (_modifier t) (_feature t) (_resource t)
    (_district t) (_wonder t) (_naturalWonder t) (_improvement t)
    (_riverEdges t) (_ownerCityId t) (_isCityCenter t).
Definition with_modifier (v : TerrainModifier.t) (t : TileFields) : TileFields :=
  mkTileFields (coord t) (_terrain t) v (_feature t) (_resource t)
    (_district t) (_wonder t) (_naturalWonder t) (_improvement t)
    (_riverEdges t) (_ownerCityId t) (_isCityCenter t).
Definition with_feature (v : FeatureType.t) (t : TileFields) : TileFields :=
  mkTileFields (coord t) (_terrain t) (_modifier t) v (_resource t)
    (_district t) (_wonder t) (_naturalWonder t) (_improvement t)
    (_riverEdges t) (_ownerCityId t) (_isCityCenter t).
Definition with_resource (v : ResourceType.t) (t : TileFields) : TileFields :=
  mkTileFields (coord t) (_terrain t) (_modifier t) (_feature t) v
    (_district t) (_wonder t) (_naturalWonder t) (_improvement t)
    (_riverEdges t) (_ownerCityId t) (_isCityCenter t).
Definition with_district (v : DistrictType.t) (t : TileFields) : TileFields :=
  mkTileFields (coord t) (_terrain t) (_modifier t) (_feature t) (_resource t)
    v (_wonder t) (_naturalWonder t) (_improvement t)
    (_riverEdges t) (_ownerCityId t) (_isCityCenter t).
Definition with_wonder (v : WonderType.t) (t : TileFields) : TileFields :=
  mkTileFields (coord t) (_terrain t) (_modifier t) (_feature t) (_resource t)
    (_district t) v (_naturalWonder t) (_improvement t)
    (_riverEdges t) (_ownerCityId t) (_isCityCenter t).
Definition with_naturalWonder (v : NaturalWonderType.t) (t : TileFields) : TileFields :=
  mkTileFields (coord t) (_terrain t) (_modifier t) (_feature t) (_resource t)
    (_district t) (_wonder t) v (_improvement t)
    (_riverEdges t) (_ownerCityId t) (_isCityCenter t).
Definition with_improvement (v : ImprovementType.t) (t : TileFields) : TileFields :=
  mkTileFields (coord t) (_terrain t) (_modifier t) (_feature t) (_resource t)
    (_district t) (_wonder t) (_naturalWonder t) v
    (_riverEdges t) (_ownerCityId t) (_isCityCenter t).
Definition with_riverEdges (v : loc) (t : TileFields) : TileFields :=
  mkTileFields (coord t) (_terrain t) (_modifier t) (_feature t) (_resource t)
    (_district t) (_wonder t) (_naturalWonder t) (_improvement t)
    v (_ownerCityId t) (_isCityCenter t).
Definition with_ownerCityId (v : option string) (t : TileFields) : TileFields :=
  mkTileFields (coord t) (_terrain t) (_modifier t) (_feature t) (_resource t)
    (_district t) (_wonder t) (_naturalWonder t) (_improvement t)
    (_riverEdges t) v (_isCityCenter t).
Definition with_isCityCenter (v : bool) (t : TileFields) : TileFields :=
  mkTileFields (coord t) (_terrain t) (_modifier t) (_feature t) (_resource t)
    (_district t) (_wonder t) (_naturalWonder t) (_improvement t)
    (_riverEdges t) (_ownerCityId t) v.

(** [xs.includes(x)] *)
Definition includes {A} `{EqDecision A} (xs : list A) (x : A) : bool :=
  bool_decide (x ∈ xs).

Module Tile.
Local Open Scope M_scope.

(** [new Tile(coord)]: the field initialisers allocate the empty set of
    river edges. *)
Definition new (coord : HexCoord) : M loc :=
  edges <- JsSet.new [] ;;
  allocTile (initialFields coord edges).

(** *** Getters *)

Definition terrain (h : Heap) (this : loc) := _terrain (tileAt h this).
Definition modifier (h : Heap) (this : loc) := _modifier (tileAt h this).
Definition feature (h : Heap) (this : loc) := _feature (tileAt h this).
Definition resource (h : Heap) (this : loc) := _resource (tileAt h this).
Definition district (h : Heap) (this : loc) := _district (tileAt h this).
Definition wonder (h : Heap) (this : loc) := _wonder (tileAt h this).
Definition naturalWonder (h : Heap) (this : loc) := _naturalWonder (tileAt h this).
Definition improvement (h : Heap) (this : loc) := _improvement (tileAt h this).
Definition ownerCityId (h : Heap) (this : loc) := _ownerCityId (tileAt h this).
Definition isCityCenter (h : Heap) (this : loc) := _isCityCenter (tileAt h this).

(** [get riverEdges() { return new Set(this._riverEdges); }] *)
Definition riverEdges (this : loc) : M loc :=
  elems <- gets (fun h => JsSet.values h (_riverEdges (tileAt h this))) ;;
  JsSet.new elems.

(** *** Setters with validation

    The default arguments ([modifier = FLAT] of [setTerrain],
    [isCityCenter = false] of [setOwner]) are passed by the caller. *)

Definition setTerrain (this : loc) (terrain : TerrainType.t)
    (modifier : TerrainModifier.t) : M loc :=
  (* Mountains can only be on land terrain *)
  when_ (modifier === TerrainModifier.MOUNTAIN)
    (when_ ((terrain === TerrainType.COAST) || (terrain === TerrainType.OCEAN))
       (throw (Error "Mountains cannot be placed on water tiles"))) ;;
  (* Hills cannot be on water *)
  when_ (modifier === TerrainModifier.HILLS)
    (when_ ((terrain === TerrainType.COAST) || (terrain === TerrainType.OCEAN))
       (throw (Error "Hills cannot be placed on water tiles"))) ;;
  modifyTile this (with_terrain terrain) ;;
  modifyTile this (with_modifier modifier) ;;
  ret this.

Definition setFeature (this : loc) (feature : FeatureType.t) : M loc :=
  (* Skip validation for NONE (clearing feature) *)
  when_ (feature !== FeatureType.NONE)
    (let featureData := FEATURE_DATA feature in
     this_terrain <- gets (fun h => _terrain (tileAt h this)) ;;
     when_ (negb (includes (FeatureInfo.validTerrains featureData) this_terrain))
       (throw (Error (FeatureType_value feature +:+ " cannot be placed on "
                      +:+ TerrainType_value this_terrain)))) ;;
  modifyTile this (with_feature feature) ;;
  ret this.

Definition setResource (this : loc) (resource : ResourceType.t) : M loc :=
  modifyTile this (with_resource resource) ;;
  ret this.

Definition setDistrict (this : loc) (district : DistrictType.t) : M loc :=
  (* Cannot place districts on mountains (except some special cases) *)
  this_modifier <- gets (fun h => _modifier (tileAt h this)) ;;
  when_ ((this_modifier === TerrainModifier.MOUNTAIN)
         && (district !== DistrictType.NONE))
    (throw (Error "Districts cannot be placed on mountains")) ;;
  (* Cannot place most districts on water *)
  this_terrain <- gets (fun h => _terrain (tileAt h this)) ;;
  when_ (((this_terrain === TerrainType.COAST) || (this_terrain === TerrainType.OCEAN))
         && (district !== DistrictType.NONE)
         && (district !== DistrictType.HARBOR)
         && (district !== DistrictType.WATER_PARK))
    (throw (Error "Only Harbor and Water Park can be placed on water")) ;;
  modifyTile this (with_district district) ;;
  (* Clear improvement when placing district *)
  when_ (district !== DistrictType.NONE)
    (modifyTile this (with_improvement ImprovementType.NONE) ;;
     modifyTile this (with_feature FeatureType.NONE)) ;;
  ret this.

Definition setWonder (this : loc) (wonder : WonderType.t) : M loc :=
  modifyTile this (with_wonder wonder) ;;
  when_ (wonder !== WonderType.NONE)
    (modifyTile this (with_improvement ImprovementType.NONE)) ;;
  ret this.

Definition setNaturalWonder (this : loc) (naturalWonder : NaturalWonderType.t) : M loc :=
  modifyTile this (with_naturalWonder naturalWonder) ;;
  ret this.

Definition setImprovement (this : loc) (improvement : ImprovementType.t) : M loc :=
  this_district <- gets (fun h => _district (tileAt h this)) ;;
  this_wonder <- gets (fun h => _wonder (tileAt h this)) ;;
  when_ ((this_district !== DistrictType.NONE) || (this_wonder !== WonderType.NONE))
    (throw (Error "Cannot place improvements on districts or wonders")) ;;
  modifyTile this (with_improvement improvement) ;;
  ret this.

Definition addRiverEdge (this : loc) (edge : Z) : M loc :=
  when_ ((edge <? 0) || (5 <? edge))
    (throw (Error "River edge must be between 0 and 5")) ;;
  this_riverEdges <- gets (fun h => _riverEdges (tileAt h this)) ;;
  JsSet.add this_riverEdges edge ;;
  ret this.

Definition removeRiverEdge (this : loc) (edge : Z) : M loc :=
  this_riverEdges <- gets (fun h => _riverEdges (tileAt h this)) ;;
  JsSet.delete this_riverEdges edge ;;
  ret this.

Definition setOwner (this : loc) (cityId : option string) (isCityCenter : bool) : M loc :=
  modifyTile this (with_ownerCityId cityId) ;;
  modifyTile this (with_isCityCenter isCityCenter) ;;
  when_ isCityCenter
    (modifyTile this (with_district DistrictType.CITY_CENTER)) ;;
  ret this.

(** *** Computed properties *)

Definition isWater (h : Heap) (this : loc) : bool :=
  (_terrain (tileAt h this) === TerrainType.COAST)
  || (_terrain (tileAt h this) === TerrainType.OCEAN).

Definition isLand (h : Heap) (this : loc) : bool := negb (isWater h this).

Definition isPassable (h : Heap) (this : loc) : bool :=
  (_modifier (tileAt h this) !== TerrainModifier.MOUNTAIN)
  && (_naturalWonder (tileAt h this) === NaturalWonderType.NONE).

Definition hasRiver (h : Heap) (this : loc) : bool :=
  0 <? JsSet.size h (_riverEdges (tileAt h this)).

Definition isHill (h : Heap) (this : loc) : bool :=
  _modifier (tileAt h this) === TerrainModifier.HILLS.

Definition isMountain (h : Heap) (this : loc) : bool :=
  _modifier (tileAt h this) === TerrainModifier.MOUNTAIN.

Definition hasDistrict (h : Heap) (this : loc) : bool :=
  _district (tileAt h this) !== DistrictType.NONE.

Definition hasWonder (h : Heap) (this : loc) : bool :=
  _wonder (tileAt h this) !== WonderType.NONE.

Definition hasNaturalWonder (h : Heap) (this : loc) : bool :=
  _naturalWonder (tileAt h this) !== NaturalWonderType.NONE.

Definition resourceCategory (h : Heap) (this : loc) : ResourceCategory.t :=
  if _resource (tileAt h this) === ResourceType.NONE then ResourceCategory.NONE
  else ResourceInfo.category (RESOURCE_DATA (_resource (tileAt h this))).

(** Calculate base yields from terrain, features, and resources.  The three
    table look-ups are defined for every enum value, so the guards
    [if (terrainData)], [if (featureData)], [if (resourceData)] are taken. *)
Definition baseYields (h : Heap) (this : loc) : Yields :=
  let yields := EMPTY_YIELDS in
  (* Terrain yields *)
  let terrainData := TERRAIN_DATA (_terrain (tileAt h this)) in
  let yields := Yields_add Kfood (food (TerrainInfo.yields terrainData)) yields in
  let yields := Yields_add Kproduction (production (TerrainInfo.yields terrainData)) yields in
  let yields := Yields_add Kgold (gold (TerrainInfo.yields terrainData)) yields in
  (* Modifier yields (hills) *)
  let yields :=
    if _modifier (tileAt h this) === TerrainModifier.HILLS
    then Yields_add Kproduction 1 yields else yields in
  (* Feature yields *)
  let featureData := FEATURE_DATA (_feature (tileAt h this)) in
  let yields := Yields_add Kfood (food (FeatureInfo.yields featureData)) yields in
  let yields := Yields_add Kproduction (production (FeatureInfo.yields featureData)) yields in
  let yields := Yields_add Kgold (gold (FeatureInfo.yields featureData)) yields in
  (* Resource yields *)
  let resourceData := RESOURCE_DATA (_resource (tileAt h this)) in
  let yields := Yields_add Kfood (food (ResourceInfo.yields resourceData)) yields in
  let yields := Yields_add Kproduction (production (ResourceInfo.yields resourceData)) yields in
  let yields := Yields_add Kgold (gold (ResourceInfo.yields resourceData)) yields in
  yields.

(** *** Serialization *)

Definition toJSON (h : Heap) (this : loc) : TileData.t :=
  let t := tileAt h this in
  {| TileData.coord := coord t;
     TileData.terrain := _terrain t;
     TileData.modifier := _modifier t;
     TileData.feature := _feature t;
     TileData.resource := _resource t;
     TileData.district := _district t;
     TileData.wonder := _wonder t;
     TileData.naturalWonder := _naturalWonder t;
     TileData.improvement := _improvement t;
     TileData.riverEdges := JsSet.values h (_riverEdges t);
     TileData.ownerCityId := _ownerCityId t;
     TileData.isCityCenter := _isCityCenter t |}.

Definition fromJSON (data : TileData.t) : M loc :=
  tile <- new (TileData.coord data) ;;
  modifyTile tile (with_terrain (TileData.terrain data)) ;;
  modifyTile tile (with_modifier (TileData.modifier data)) ;;
  modifyTile tile (with_feature (TileData.feature data)) ;;
  modifyTile tile (with_resource (TileData.resource data)) ;;
  modifyTile tile (with_district (TileData.district data)) ;;
  modifyTile tile (with_wonder (TileData.wonder data)) ;;
  modifyTile tile (with_naturalWonder (TileData.naturalWonder data)) ;;
  modifyTile tile (with_improvement (TileData.improvement data)) ;;
  edges <- JsSet.new (TileData.riverEdges data) ;;
  modifyTile tile (with_riverEdges edges) ;;
  modifyTile tile (with_ownerCityId (TileData.ownerCityId data)) ;;
  modifyTile tile (with_isCityCenter (TileData.isCityCenter data)) ;;
  ret tile.

End Tile.

(** ** core/GameMap.ts *)

Module HexUtils.

(** Get the 6 neighboring hex coordinates (pointy-top orientation).
    Direction 0 = East, going counter-clockwise. *)
Definition getNeighbors (coord : HexCoord) : list HexCoord :=
  let directions : list (Z * Z) :=
    [ (1, 0);    (* 0: East *)
      (0, 1);    (* 1: Southeast *)
      (-1, 1);   (* 2: Southwest *)
      (-1, 0);   (* 3: West *)
      (0, -1);   (* 4: Northwest *)
      (1, -1) ]  (* 5: Northeast *) in
  map (fun d => mkHexCoord (q coord + d.1) (r coord + d.2)) directions.

(** Convert axial coordinates to cube coordinates, and back. *)
Definition axialToCube (coord : HexCoord) : CubeCoord.t :=
  {| CubeCoord.q := q coord;
     CubeCoord.r := r coord;
     CubeCoord.s := - q coord - r coord |}.

Definition cubeToAxial (coord : CubeCoord.t) : HexCoord :=
  {| q := CubeCoord.q coord; r := CubeCoord.r coord |}.

(** Get neighbor in a specific direction (0-5): [neighbors[direction % 6]].
    The remainder has the sign of [direction]; at a negative index the array
    has no element ([undefined], here [None]). *)
Definition getNeighborInDirection (coord : HexCoord) (direction : Z) : option HexCoord :=
  let neighbors := getNeighbors coord in
  let index := Z.rem direction 6 in
  if index <? 0 then None else neighbors !! Z.to_nat index.

(** Calculate hex distance between two coordinates (through cube
    coordinates, [s = -q - r]). *)
Definition distance (a b : HexCoord) : Z :=
  Z.max (Z.max (Z.abs (q a - q b)) (Z.abs (r a - r b)))
        (Z.abs ((- q a - r a) - (- q b - r b))).

(** Get all hexes within a given range:
    [for (q = -range; q <= range; q++)
       for (r = max(-range, -q - range); r <= min(range, -q + range); r++)]. *)
Definition getHexesInRange (center : HexCoord) (range : Z) : list HexCoord :=
  concat (map (fun dq =>
      let lo := Z.max (- range) (- dq - range) in
      let hi := Z.min range (- dq + range) in
      map (fun dr => mkHexCoord (q center + dq) (r center + dr))
          (seqZ lo (hi - lo + 1)))
    (seqZ (- range) (range - (- range) + 1))).

(** Get hexes in a ring at exactly the given distance: from the corner
    [(q - radius, r + radius)], [radius] steps in each of six directions,
    each step pushing a copy of [current] and then moving it. *)
Definition getHexRing (center : HexCoord) (radius : Z) : list HexCoord :=
  if radius =? 0 then [center]
  else
    let results : list HexCoord := [] in
    let current := mkHexCoord (q center - radius) (r center + radius) in
    let directions : list (Z * Z) :=
      [(1, 0); (1, -1); (0, -1); (-1, 0); (-1, 1); (0, 1)] in
    (foldl (fun state d =>
        foldl (fun state (i : Z) =>
            (state.1 ++ [state.2],
             mkHexCoord (q state.2 + d.1) (r state.2 + d.2)))
          state (seqZ 0 (radius - 0)))
      (results, current) directions).1.

(** Convert hex coordinate to unique string key: [`${coord.q},${coord.r}`]. *)
Definition coordToKey (coord : HexCoord) : string :=
  pretty (q coord) +:+ "," +:+ pretty (r coord).

End HexUtils.

(** [Map<string, V>]: the entries in insertion order; [set] on a key that is
    present replaces the value where the entry stands. *)
Module JsMap.

Definition t (V : Type) : Type := list (string * V).

Fixpoint get {V} (m : t V) (k : string) : option V :=
  match m with
  | [] => None
  | (k', v) :: m' => if bool_decide (k' = k) then Some v else get m' k
  end.

Fixpoint set {V} (m : t V) (k : string) (v : V) : t V :=
  match m with
  | [] => [(k, v)]
  | (k', v') :: m' =>
      if bool_decide (k' = k) then (k, v) :: m' else (k', v') :: set m' k v
  end.

Definition has {V} (m : t V) (k : string) : bool :=
  match get m k with Some _ => true | None => false end.

Definition clear {V} (m : t V) : t V := [].

Definition keys {V} (m : t V) : list string := map fst m.

Definition values {V} (m : t V) : list V := map snd m.

End JsMap.

(** [interface GameMapData], the serialized map. *)
Module GameMapData.
Record t := mk {
  version : Z;
  name : string;
  width : Z;
  height : Z;
  tiles : list TileData.t }.
End GameMapData.

Module GameMap.
Local Open Scope M_scope.

(** The fields of [class GameMap].  The object is passed by value: a method
    that fills or replaces [this.tiles] returns the object it has reached. *)
Record t := mk {
  tiles : JsMap.t loc;
  _width : Z;
  _height : Z;
  _name : string }.

Definition with_tiles (v : JsMap.t loc) (this : t) : t :=
  mk v (_width this) (_height this) (_name this).

(** Initialize the map with default grass tiles:
    [for (r = 0; r < this._height; r++)
       for (q = -qOffset; q < this._width - qOffset; q++)]. *)
Definition initializeEmptyMap (this : t) : M t :=
  forOf (seqZ 0 (_height this - 0)) (fun this r =>
    (* Offset for pointy-top hexes to create rectangular map *)
    let qOffset := r `div` 2 in
    forOf (seqZ (- qOffset) ((_width this - qOffset) - (- qOffset))) (fun this q =>
      let coord := mkHexCoord q r in
      tile <- Tile.new coord ;;
      ret (with_tiles (JsMap.set (tiles this) (HexUtils.coordToKey coord) tile) this))
    this)
  this.

(** [new GameMap(width, height, name)] *)
Definition new (width height : Z) (name : string) : M t :=
  initializeEmptyMap (mk [] width height name).

(** [get width], [get height], [get name] and [set name]. *)
Definition width (this : t) : Z := _width this.
Definition height (this : t) : Z := _height this.
Definition name (this : t) : string := _name this.
Definition set_name (this : t) (value : string) : t :=
  mk (tiles this) (_width this) (_height this) value.

(** Get a tile at the specified coordinates. *)
Definition getTile (this : t) (coord : HexCoord) : option loc :=
  JsMap.get (tiles this) (HexUtils.coordToKey coord).

(** Get a tile by key string. *)
Definition getTileByKey (this : t) (key : string) : option loc :=
  JsMap.get (tiles this) key.

(** Set or replace a tile. *)
Definition setTile (h : Heap) (this : t) (tile : loc) : t :=
  with_tiles (JsMap.set (tiles this) (HexUtils.coordToKey (coord (tileAt h tile))) tile) this.

(** Check if coordinates are within map bounds. *)
Definition isInBounds (this : t) (coord : HexCoord) : bool :=
  JsMap.has (tiles this) (HexUtils.coordToKey coord).

Definition getAllTiles (this : t) : list loc := JsMap.values (tiles this).

(** Get all tiles as entries (key, tile). *)
Definition getAllTileEntries (this : t) : list (string * loc) := tiles this.

(** Get neighboring tiles that exist on the map. *)
Definition getNeighborTiles (this : t) (coord : HexCoord) : list loc :=
  omap (getTile this) (HexUtils.getNeighbors coord).

(** Get tiles within a certain range of a coordinate. *)
Definition getTilesInRange (this : t) (coord : HexCoord) (range : Z) : list loc :=
  omap (getTile this) (HexUtils.getHexesInRange coord range).

(** Get tiles in a city's workable range (3 tiles from city center). *)
Definition getCityWorkableTiles (this : t) (cityCenter : HexCoord) : list loc :=
  getTilesInRange this cityCenter 3.

(** Find the city center tile (if any). *)
Definition findCityCenter (h : Heap) (this : t) : option loc :=
  List.find (fun t => Tile.isCityCenter h t) (getAllTiles this).

(** Serialize map to JSON. *)
Definition toJSON (h : Heap) (this : t) : GameMapData.t :=
  {| GameMapData.version := 1;
     GameMapData.name := _name this;
     GameMapData.width := _width this;
     GameMapData.height := _height this;
     GameMapData.tiles := map (Tile.toJSON h) (getAllTiles this) |}.

(** Deserialize map from JSON. *)
Definition fromJSON (data : GameMapData.t) : M t :=
  map_ <- new (GameMapData.width data) (GameMapData.height data) (GameMapData.name data) ;;
  let map_ := with_tiles (JsMap.clear (tiles map_)) map_ in
  forOf (GameMapData.tiles data) (fun map_ tileData =>
    tile <- Tile.fromJSON tileData ;;
    tile_coord <- gets (fun h => coord (tileAt h tile)) ;;
    ret (with_tiles (JsMap.set (tiles map_) (HexUtils.coordToKey tile_coord) tile) map_))
  map_.

End GameMap.

(** ** core/AdjacencyEngine.ts *)

(** Result of adjacency calculation for a single district. *)
Module DistrictAdjacencyResult.
Record t := mk {
  tile : loc;
  districtType : DistrictType.t;
  totalBonus : Yields;
  bonusBreakdown : list AdjacencyBonus }.
End DistrictAdjacencyResult.

(** Result of adjacency calculation for an entire city. *)
Module CityAdjacencyResult.
Record t := mk {
  cityCenter : HexCoord;
  districts : list DistrictAdjacencyResult.t;
  totalYields : Yields }.
End CityAdjacencyResult.

(** The running best total of the placement search starts at [-Infinity]. *)
Inductive ExtNumber := NegInfinity | Finite (n : Z).

Definition gt_ext (total : Z) (best : ExtNumber) : bool :=
  match best with
  | NegInfinity => true
  | Finite b => b <? total
  end.

(** [count++] under a condition, and [bonuses.push(b)] under a condition. *)
Definition incrIf (c : bool) (count : Z) : Z := if c then count + 1 else count.

Definition pushIf (c : bool) (b : AdjacencyBonus) (bonuses : list AdjacencyBonus)
  : list AdjacencyBonus := if c then bonuses ++ [b] else bonuses.

(** The engine holds [this.map]; the methods take it as [this_map].  The
    private helpers receive the [bonuses] array and return it extended. *)
Module AdjacencyEngine.
Local Open Scope M_scope.

(** Campus: +1 Science per Mountain, +1 per 2 Rainforest/districts,
    +2 per Geothermal Fissure/Reef. *)
Definition calculateCampusAdjacency (h : Heap) (tile : loc) (neighbors : list loc)
    (bonuses : list AdjacencyBonus) : list AdjacencyBonus :=
  let '(mountainCount, jungleCount, districtCount, reefCount, geothermalCount) :=
    foldl (fun '(mountainCount, jungleCount, districtCount, reefCount, geothermalCount) n =>
        (incrIf (Tile.isMountain h n) mountainCount,
         incrIf (Tile.feature h n === FeatureType.RAINFOREST) jungleCount,
         incrIf (Tile.hasDistrict h n) districtCount,
         incrIf (Tile.feature h n === FeatureType.REEF) reefCount,
         incrIf (Tile.feature h n === FeatureType.GEOTHERMAL_FISSURE) geothermalCount))
      (0, 0, 0, 0, 0) neighbors in
  let bonuses := pushIf (0 <? mountainCount)
    (mkAdjacencyBonus DistrictType.CAMPUS Kscience mountainCount
       (pretty mountainCount +:+ " Mountain(s)")) bonuses in
  let halfBonusCount := (jungleCount + districtCount) `div` 2 in
  let bonuses := pushIf (0 <? halfBonusCount)
    (mkAdjacencyBonus DistrictType.CAMPUS Kscience halfBonusCount
       (pretty jungleCount +:+ " Rainforest(s), " +:+ pretty districtCount
        +:+ " District(s)")) bonuses in
  let bonuses := pushIf (0 <? geothermalCount)
    (mkAdjacencyBonus DistrictType.CAMPUS Kscience (geothermalCount * 2)
       (pretty geothermalCount +:+ " Geothermal Fissure(s)")) bonuses in
  let bonuses := pushIf (0 <? reefCount)
    (mkAdjacencyBonus DistrictType.CAMPUS Kscience (reefCount * 2)
       (pretty reefCount +:+ " Reef(s)")) bonuses in
  bonuses.

(** Holy Site: +1 Faith per Mountain, +1 per 2 Woods/districts,
    +2 per Natural Wonder. *)
Definition calculateHolySiteAdjacency (h : Heap) (tile : loc) (neighbors : list loc)
    (bonuses : list AdjacencyBonus) : list AdjacencyBonus :=
  let '(mountainCount, forestCount, districtCount, naturalWonderCount) :=
    foldl (fun '(mountainCount, forestCount, districtCount, naturalWonderCount) n =>
        (incrIf (Tile.isMountain h n) mountainCount,
         incrIf (Tile.feature h n === FeatureType.WOODS) forestCount,
         incrIf (Tile.hasDistrict h n) districtCount,
         incrIf (Tile.hasNaturalWonder h n) naturalWonderCount))
      (0, 0, 0, 0) neighbors in
  let bonuses := pushIf (0 <? mountainCount)
    (mkAdjacencyBonus DistrictType.HOLY_SITE Kfaith mountainCount
       (pretty mountainCount +:+ " Mountain(s)")) bonuses in
  let halfBonusCount := (forestCount + districtCount) `div` 2 in
  let bonuses := pushIf (0 <? halfBonusCount)
    (mkAdjacencyBonus DistrictType.HOLY_SITE Kfaith halfBonusCount
       (pretty forestCount +:+ " Woods, " +:+ pretty districtCount
        +:+ " District(s)")) bonuses in
  let bonuses := pushIf (0 <? naturalWonderCount)
    (mkAdjacencyBonus DistrictType.HOLY_SITE Kfaith (naturalWonderCount * 2)
       (pretty naturalWonderCount +:+ " Natural Wonder(s)")) bonuses in
  bonuses.

(** Theater Square: +2 Culture per Wonder, +1 per 2 districts. *)
Definition calculateTheaterSquareAdjacency (h : Heap) (tile : loc) (neighbors : list loc)
    (bonuses : list AdjacencyBonus) : list AdjacencyBonus :=
  let '(wonderCount, districtCount) :=
    foldl (fun '(wonderCount, districtCount) n =>
        (incrIf (Tile.hasWonder h n) wonderCount,
         incrIf (Tile.hasDistrict h n) districtCount))
      (0, 0) neighbors in
  let bonuses := pushIf (0 <? wonderCount)
    (mkAdjacencyBonus DistrictType.THEATER_SQUARE Kculture (wonderCount * 2)
       (pretty wonderCount +:+ " Wonder(s)")) bonuses in
  let halfBonusCount := districtCount `div` 2 in
  let bonuses := pushIf (0 <? halfBonusCount)
    (mkAdjacencyBonus DistrictType.THEATER_SQUARE Kculture halfBonusCount
       (pretty districtCount +:+ " District(s)")) bonuses in
  bonuses.

(** Commercial Hub: +2 Gold per River edge, +2 per Harbor, +1 per 2
    districts. *)
Definition calculateCommercialHubAdjacency (h : Heap) (tile : loc) (neighbors : list loc)
    (bonuses : list AdjacencyBonus) : list AdjacencyBonus :=
  (* Check for river *)
  let bonuses := pushIf (Tile.hasRiver h tile)
    (mkAdjacencyBonus DistrictType.COMMERCIAL_HUB Kgold 2 "River") bonuses in
  let '(harborCount, districtCount) :=
    foldl (fun '(harborCount, districtCount) n =>
        (incrIf (Tile.district h n === DistrictType.HARBOR) harborCount,
         incrIf (Tile.hasDistrict h n) districtCount))
      (0, 0) neighbors in
  let bonuses := pushIf (0 <? harborCount)
    (mkAdjacencyBonus DistrictType.COMMERCIAL_HUB Kgold (harborCount * 2)
       (pretty harborCount +:+ " Harbor(s)")) bonuses in
  let halfBonusCount := districtCount `div` 2 in
  let bonuses := pushIf (0 <? halfBonusCount)
    (mkAdjacencyBonus DistrictType.COMMERCIAL_HUB Kgold halfBonusCount
       (pretty districtCount +:+ " District(s)")) bonuses in
  bonuses.

(** Harbor: +1 Gold per coastal resource, +2 per City Center, +1 per 2
    districts. *)
Definition calculateHarborAdjacency (h : Heap) (tile : loc) (neighbors : list loc)
    (bonuses : list AdjacencyBonus) : list AdjacencyBonus :=
  let '(coastalResourceCount, cityCenterCount, districtCount) :=
    foldl (fun '(coastalResourceCount, cityCenterCount, districtCount) n =>
        (* Coastal resources (Fish, Crabs, Whales, Pearls, etc.) *)
        (incrIf (Tile.isWater h n && (Tile.resource h n !== ResourceType.NONE))
           coastalResourceCount,
         incrIf (Tile.district h n === DistrictType.CITY_CENTER) cityCenterCount,
         incrIf (Tile.hasDistrict h n) districtCount))
      (0, 0, 0) neighbors in
  let bonuses := pushIf (0 <? coastalResourceCount)
    (mkAdjacencyBonus DistrictType.HARBOR Kgold coastalResourceCount
       (pretty coastalResourceCount +:+ " Coastal Resource(s)")) bonuses in
  let bonuses := pushIf (0 <? cityCenterCount)
    (mkAdjacencyBonus DistrictType.HARBOR Kgold (cityCenterCount * 2)
       (pretty cityCenterCount +:+ " City Center(s)")) bonuses in
  let halfBonusCount := districtCount `div` 2 in
  let bonuses := pushIf (0 <? halfBonusCount)
    (mkAdjacencyBonus DistrictType.HARBOR Kgold halfBonusCount
       (pretty districtCount +:+ " District(s)")) bonuses in
  bonuses.

(** Industrial Zone: +1 Production per Mine/Quarry, +2 per
    Aqueduct/Canal/Dam, +1 per 2 districts. *)
Definition calculateIndustrialZoneAdjacency (h : Heap) (tile : loc) (neighbors : list loc)
    (bonuses : list AdjacencyBonus) : list AdjacencyBonus :=
  let '(mineCount, quarryCount, aqueductCount, damCount, canalCount,
        districtCount, strategicResourceCount) :=
    foldl (fun '(mineCount, quarryCount, aqueductCount, damCount, canalCount,
                 districtCount, strategicResourceCount) n =>
        (incrIf (Tile.improvement h n === ImprovementType.MINE) mineCount,
         incrIf (Tile.improvement h n === ImprovementType.QUARRY) quarryCount,
         incrIf (Tile.district h n === DistrictType.AQUEDUCT) aqueductCount,
         incrIf (Tile.district h n === DistrictType.DAM) damCount,
         incrIf (Tile.district h n === DistrictType.CANAL) canalCount,
         incrIf (Tile.hasDistrict h n) districtCount,
         (* Strategic resources also provide bonus *)
         let resourceData := RESOURCE_DATA (Tile.resource h n) in
         incrIf (ResourceInfo.category resourceData === ResourceCategory.STRATEGIC)
           strategicResourceCount))
      (0, 0, 0, 0, 0, 0, 0) neighbors in
  let bonuses := pushIf (0 <? mineCount)
    (mkAdjacencyBonus DistrictType.INDUSTRIAL_ZONE Kproduction mineCount
       (pretty mineCount +:+ " Mine(s)")) bonuses in
  let bonuses := pushIf (0 <? quarryCount)
    (mkAdjacencyBonus DistrictType.INDUSTRIAL_ZONE Kproduction quarryCount
       (pretty quarryCount +:+ " Quarry(ies)")) bonuses in
  let waterInfraBonus := (aqueductCount + damCount + canalCount) * 2 in
  let bonuses := pushIf (0 <? waterInfraBonus)
    (mkAdjacencyBonus DistrictType.INDUSTRIAL_ZONE Kproduction waterInfraBonus
       (pretty aqueductCount +:+ " Aqueduct(s), " +:+ pretty damCount
        +:+ " Dam(s), " +:+ pretty canalCount +:+ " Canal(s)")) bonuses in
  let halfBonusCount := districtCount `div` 2 in
  let bonuses := pushIf (0 <? halfBonusCount)
    (mkAdjacencyBonus DistrictType.INDUSTRIAL_ZONE Kproduction halfBonusCount
       (pretty districtCount +:+ " District(s)")) bonuses in
  (* Strategic resources *)
  let bonuses := pushIf (0 <? strategicResourceCount)
    (mkAdjacencyBonus DistrictType.INDUSTRIAL_ZONE Kproduction strategicResourceCount
       (pretty strategicResourceCount +:+ " Strategic Resource(s)")) bonuses in
  bonuses.

(** Calculate adjacency bonus for a single district. *)
Definition calculateDistrictAdjacency (h : Heap) (this_map : GameMap.t) (tile : loc)
  : DistrictAdjacencyResult.t :=
  let bonuses : list AdjacencyBonus := [] in
  let neighbors := GameMap.getNeighborTiles this_map (coord (tileAt h tile)) in
  let bonuses :=
    match Tile.district h tile with
    | DistrictType.CAMPUS => calculateCampusAdjacency h tile neighbors bonuses
    | DistrictType.HOLY_SITE => calculateHolySiteAdjacency h tile neighbors bonuses
    | DistrictType.THEATER_SQUARE => calculateTheaterSquareAdjacency h tile neighbors bonuses
    | DistrictType.COMMERCIAL_HUB => calculateCommercialHubAdjacency h tile neighbors bonuses
    | DistrictType.HARBOR => calculateHarborAdjacency h tile neighbors bonuses
    | DistrictType.INDUSTRIAL_ZONE => calculateIndustrialZoneAdjacency h tile neighbors bonuses
    | DistrictType.PRESERVE => bonuses  (* doesn't get adjacency bonuses itself *)
    | DistrictType.GOVERNMENT_PLAZA => bonuses  (* doesn't get bonuses but gives them *)
    | _ => bonuses
    end in
  (* Government Plaza adjacent bonus *)
  let govPlazaAdjacent :=
    existsb (fun n => Tile.district h n === DistrictType.GOVERNMENT_PLAZA) neighbors in
  let bonuses :=
    if govPlazaAdjacent && DistrictInfo.isSpecialty (DISTRICT_DATA (Tile.district h tile))
    then
      match DistrictInfo.primaryYieldType (DISTRICT_DATA (Tile.district h tile)) with
      | Some primaryYield =>
          bonuses ++ [mkAdjacencyBonus (Tile.district h tile) primaryYield 1
                        "Government Plaza"]
      | None => bonuses
      end
    else bonuses in
  (* Calculate total bonus *)
  let totalBonus :=
    foldl (fun totalBonus bonus =>
             Yields_add (yieldType bonus) (amount bonus) totalBonus)
          EMPTY_YIELDS bonuses in
  {| DistrictAdjacencyResult.tile := tile;
     DistrictAdjacencyResult.districtType := Tile.district h tile;
     DistrictAdjacencyResult.totalBonus := totalBonus;
     DistrictAdjacencyResult.bonusBreakdown := bonuses |}.

(** Calculate all adjacency bonuses for districts within a city's range. *)
Definition calculateCityAdjacency (h : Heap) (this_map : GameMap.t) (cityCenter : HexCoord)
  : CityAdjacencyResult.t :=
  let workableTiles := GameMap.getTilesInRange this_map cityCenter 3 in
  let districtTiles :=
    List.filter (fun t => Tile.hasDistrict h t
                          && (Tile.district h t !== DistrictType.CITY_CENTER))
                workableTiles in
  let districts := map (calculateDistrictAdjacency h this_map) districtTiles in
  (* Sum up total yields *)
  let totalYields :=
    foldl (fun totalYields district =>
        foldl (fun totalYields key =>
                 Yields_add key
                   (Yields_get (DistrictAdjacencyResult.totalBonus district) key)
                   totalYields)
              totalYields [Kfood; Kproduction; Kgold; Kscience; Kculture; Kfaith])
      EMPTY_YIELDS districts in
  {| CityAdjacencyResult.cityCenter := cityCenter;
     CityAdjacencyResult.districts := districts;
     CityAdjacencyResult.totalYields := totalYields |}.

(** [{ ...tile.toJSON(), district: districtType }] *)
Definition with_district_data (v : DistrictType.t) (d : TileData.t) : TileData.t :=
  TileData.mk (TileData.coord d) (TileData.terrain d) (TileData.modifier d)
    (TileData.feature d) (TileData.resource d) v (TileData.wonder d)
    (TileData.naturalWonder d) (TileData.improvement d) (TileData.riverEdges d)
    (TileData.ownerCityId d) (TileData.isCityCenter d).

(** Calculate what adjacency bonus a district would get if placed at a
    specific tile; [null] is [None].  The local [neighbors] of the source is
    read and never used. *)
Definition calculatePotentialAdjacency (this_map : GameMap.t) (coord : HexCoord)
    (districtType : DistrictType.t) : M (option DistrictAdjacencyResult.t) :=
  match GameMap.getTile this_map coord with
  | None => ret None
  | Some tile =>
      (* Create a temporary tile with the district *)
      data <- gets (fun h => Tile.toJSON h tile) ;;
      tempTile <- Tile.fromJSON (with_district_data districtType data) ;;
      result <- gets (fun h => calculateDistrictAdjacency h this_map tempTile) ;;
      ret (Some result)
  end.

(** Check if a district can be placed on a tile. *)
Definition canPlaceDistrict (h : Heap) (tile : loc) (districtType : DistrictType.t) : bool :=
  let districtInfo := DISTRICT_DATA districtType in
  (* Check terrain requirements *)
  if DistrictInfo.requiresCoast districtInfo && negb (Tile.isWater h tile) then false
  else if DistrictInfo.requiresLand districtInfo && Tile.isWater h tile then false
  else if negb (DistrictInfo.canBuildOnHills districtInfo) && Tile.isHill h tile then false
  else true.

(** Find best placement for a district type within city range. *)
Definition findBestDistrictPlacement (this_map : GameMap.t) (cityCenter : HexCoord)
    (districtType : DistrictType.t)
  : M (option (HexCoord * DistrictAdjacencyResult.t)) :=
  let workableTiles := GameMap.getTilesInRange this_map cityCenter 3 in
  validTiles <- gets (fun h =>
    List.filter (fun t => negb (Tile.hasDistrict h t)
                          && negb (Tile.isMountain h t)
                          && canPlaceDistrict h t districtType)
                workableTiles) ;;
  best <- forOf validTiles (fun '(bestResult, bestTotal) tile =>
      tile_coord <- gets (fun h => coord (tileAt h tile)) ;;
      result <- calculatePotentialAdjacency this_map tile_coord districtType ;;
      match result with
      | Some result =>
          let primary := DistrictInfo.primaryYieldType (DISTRICT_DATA districtType) in
          let total :=
            match primary with
            | Some p => Yields_get (DistrictAdjacencyResult.totalBonus result) p
            | None => 0
            end in
          if gt_ext total bestTotal
          then ret (Some (tile_coord, result), Finite total)
          else ret (bestResult, bestTotal)
      | None => ret (bestResult, bestTotal)
      end)
    (None, NegInfinity) ;;
  ret best.1.

End AdjacencyEngine.

(** * Notions used in the statements *)

(** ** Base yields, as the specification words them

    The field-wise sum, over all six fields, of the zero record, the
    terrain's yields, one production on Hills, the feature's yields and the
    resource's yields. *)

Definition Yields_plus (a b : Yields) : Yields :=
  mkYields (food a + food b) (production a + production b) (gold a + gold b)
           (science a + science b) (culture a + culture b) (faith a + faith b).

Definition baseYields_spec (h : Heap) (this : loc) : Yields :=
  let t := tileAt h this in
  Yields_plus
    (Yields_plus
       (Yields_plus
          (Yields_plus EMPTY_YIELDS (TerrainInfo.yields (TERRAIN_DATA (_terrain t))))
          (if _modifier t === TerrainModifier.HILLS
           then spread EMPTY_YIELDS [(Kproduction, 1)] else EMPTY_YIELDS))
       (FeatureInfo.yields (FEATURE_DATA (_feature t))))
    (ResourceInfo.yields (RESOURCE_DATA (_resource t))).

(** ** Calls of the validated mutators of a tile *)

Inductive MutatorCall :=
  | CallSetTerrain (terrain : TerrainType.t) (modifier : TerrainModifier.t)
  | CallSetFeature (feature : FeatureType.t)
  | CallSetDistrict (district : DistrictType.t)
  | CallSetWonder (wonder : WonderType.t)
  | CallSetImprovement (improvement : ImprovementType.t)
  | CallAddRiverEdge (edge : Z)
  | CallRemoveRiverEdge (edge : Z)
  | CallSetOwner (cityId : option string) (isCityCenter : bool).

Definition call (this : loc) (c : MutatorCall) : M loc :=
  match c with
  | CallSetTerrain terrain modifier => Tile.setTerrain this terrain modifier
  | CallSetFeature feature => Tile.setFeature this feature
  | CallSetDistrict district => Tile.setDistrict this district
  | CallSetWonder wonder => Tile.setWonder this wonder
  | CallSetImprovement improvement => Tile.setImprovement this improvement
  | CallAddRiverEdge edge => Tile.addRiverEdge this edge
  | CallRemoveRiverEdge edge => Tile.removeRiverEdge this edge
  | CallSetOwner cityId isCityCenter => Tile.setOwner this cityId isCityCenter
  end.

(** The calls that are meant to change the river edges. *)
Definition isRiverCall (c : MutatorCall) : bool :=
  match c with
  | CallAddRiverEdge _ | CallRemoveRiverEdge _ => true
  | _ => false
  end.

(** Running a computation from a store: its completion and the store it
    leaves. *)
Definition completion {A} (c : M A) (h : Heap) : Completion A := (c h).1.
Definition finalHeap {A} (c : M A) (h : Heap) : Heap := (c h).2.

(** ** Scenarios: short programs run from the empty store *)

Local Open Scope M_scope.

(** A fresh Grass tile on which [setFeature(GEOTHERMAL_FISSURE)] has
    succeeded. *)
Definition fissureTile : M loc :=
  t <- Tile.new (mkHexCoord 0 0) ;;
  Tile.setFeature t FeatureType.GEOTHERMAL_FISSURE.

(** A fresh tile turned into a Plains Mountain and then made the city
    center: both calls succeed. *)
Definition mountainCity : M loc :=
  t <- Tile.new (mkHexCoord 0 0) ;;
  Tile.setTerrain t TerrainType.PLAINS TerrainModifier.MOUNTAIN ;;
  Tile.setOwner t (Some "city1") true.

(** A fresh tile given a Campus and then raised to a Mountain. *)
Definition raisedCampus : M loc :=
  t <- Tile.new (mkHexCoord 0 0) ;;
  Tile.setDistrict t DistrictType.CAMPUS ;;
  Tile.setTerrain t TerrainType.GRASS TerrainModifier.MOUNTAIN.

Local Close Scope M_scope.

(** ** Stores over time *)

(** [h'] holds every object of [h], unchanged, and possibly newer ones. *)
Definition heap_extends (h h' : Heap) : Prop :=
  tileObjs h `prefix_of` tileObjs h' /\ setObjs h `prefix_of` setObjs h'.

(** ** Operations on a [Set<number>] held by a caller *)





(** ** Counting neighbours *)

(** The number of tiles of a list that satisfy a test. *)
Definition countWhere (p : loc -> bool) (ns : list loc) : Z :=
  Z.of_nat (length (List.filter p ns)).

(** A 3 by 3 map with a Commercial Hub at (1,1) on a river (edges 0 and 1)
    and a Campus on three of its six neighbours: (1,0), (0,1) and (2,1).
    The tiles of a new map are allocated row by row, so these are the tiles
    4, 1, 3 and 5. *)
Definition hubScenario : M GameMap.t :=
  (m <- GameMap.new 3 3 "hub" ;;
   Tile.setDistrict 1%nat DistrictType.CAMPUS ;;
   Tile.setDistrict 3%nat DistrictType.CAMPUS ;;
   Tile.setDistrict 5%nat DistrictType.CAMPUS ;;
   Tile.addRiverEdge 4%nat 0 ;;
   Tile.addRiverEdge 4%nat 1 ;;
   Tile.setDistrict 4%nat DistrictType.COMMERCIAL_HUB ;;
   ret m)%M.

(** The map a scenario returns; the empty map if it threw. *)
Definition resultMap (c : M GameMap.t) (h : Heap) : GameMap.t :=
  match completion c h with
  | Normal m => m
  | Throw _ => GameMap.mk [] 0 0 ""
  end.

(** ** Grids in a store *)

(** The field values [Tile.fromJSON] gives the tile it builds. *)
Definition fieldsOfData (data : TileData.t) (edges : loc) : TileFields :=
  {| coord := TileData.coord data;
     _terrain := TileData.terrain data;
     _modifier := TileData.modifier data;
     _feature := TileData.feature data;
     _resource := TileData.resource data;
     _district := TileData.district data;
     _wonder := TileData.wonder data;
     _naturalWonder := TileData.naturalWonder data;
     _improvement := TileData.improvement data;
     _riverEdges := edges;
     _ownerCityId := TileData.ownerCityId data;
     _isCityCenter := TileData.isCityCenter data |}.

(** A tile reference names an allocated tile whose river-edge set is an
    allocated set. *)
Definition allocated (h : Heap) (l : loc) : Prop :=
  (l < length (tileObjs h))%nat
  /\ (_riverEdges (tileAt h l) < length (setObjs h))%nat.

#[global] Instance allocated_dec (h : Heap) (l : loc) : Decision (allocated h l).
Proof. unfold allocated. apply _. Defined.

(** Every tile of the grid is allocated in the store. *)
Definition map_allocated (h : Heap) (m : GameMap.t) : Prop :=
  Forall (allocated h) (GameMap.getAllTiles m).

#[global] Instance map_allocated_dec (h : Heap) (m : GameMap.t) :
  Decision (map_allocated h m).
Proof. unfold map_allocated. apply _. Defined.

(** ** Keys and regions *)

(** A string without a comma. *)
Fixpoint comma_free (s : string) : bool :=
  match s with
  | EmptyString => true
  | String c s' => negb (Ascii.eqb c ","%char) && comma_free s'
  end.

(** The coordinates of a [width] by [height] map, row by row: for each row
    [r] of [[0, height)], the columns [q] of
    [[-floor(r/2), width - floor(r/2))]. *)
Definition region (width height : Z) : list HexCoord :=
  seqZ 0 height ≫= fun r =>
    (fun q => mkHexCoord q r) <$> seqZ (- (r `div` 2)) width.

Definition inRegion (width height : Z) (c : HexCoord) : Prop :=
  0 <= r c < height
  /\ - (r c `div` 2) <= q c < width - r c `div` 2.

(** The serialized form of a tile as [new Tile(c)] leaves it. *)
Definition defaultData (c : HexCoord) : TileData.t :=
  {| TileData.coord := c;
     TileData.terrain := TerrainType.GRASS;
     TileData.modifier := TerrainModifier.FLAT;
     TileData.feature := FeatureType.NONE;
     TileData.resource := ResourceType.NONE;
     TileData.district := DistrictType.NONE;
     TileData.wonder := WonderType.NONE;
     TileData.naturalWonder := NaturalWonderType.NONE;
     TileData.improvement := ImprovementType.NONE;
     TileData.riverEdges := [];
     TileData.ownerCityId := None;
     TileData.isCityCenter := false |}.

(** One round of the loop of [initializeEmptyMap]: a new tile at [coord],
    entered under its key. *)
Definition fillBody (this : GameMap.t) (coord : HexCoord) : M GameMap.t :=
  (tile <- Tile.new coord ;;
   ret (GameMap.with_tiles
          (JsMap.set (GameMap.tiles this) (HexUtils.coordToKey coord) tile) this))%M.

(** The entries and the tiles that filling a map at the coordinates [cs]
    adds, from a store that holds [n0] tiles and [s0] sets. *)
Definition newEntries (n0 : nat) (cs : list HexCoord) : JsMap.t loc :=
  imap (fun i c => (HexUtils.coordToKey c, (n0 + i)%nat)) cs.

Definition newTiles (s0 : nat) (cs : list HexCoord) : list TileFields :=
  imap (fun i c => initialFields c (s0 + i)%nat) cs.

(** ** Loading a snapshot *)

(** One round of the loop of [GameMap.fromJSON]. *)
Definition loadBody (map_ : GameMap.t) (tileData : TileData.t) : M GameMap.t :=
  (tile <- Tile.fromJSON tileData ;;
   tile_coord <- gets (fun h => coord (tileAt h tile)) ;;
   ret (GameMap.with_tiles
          (JsMap.set (GameMap.tiles map_) (HexUtils.coordToKey tile_coord) tile)
          map_))%M.

(** The entries after loading the tile data [ds] into the entries [acc],
    the first new tile being the object [n]. *)
Fixpoint loadEntries (n : nat) (ds : list TileData.t) (acc : JsMap.t loc)
  : JsMap.t loc :=
  match ds with
  | [] => acc
  | d :: ds' =>
      loadEntries (S n) ds'
        (JsMap.set acc (HexUtils.coordToKey (TileData.coord d)) n)
  end.

(** The tiles and the sets that loading [ds] allocates, from a store that
    holds [s0] sets: two sets for each tile, the empty one of [new Tile] and
    the one built from the listed river edges. *)
Definition loadedTiles (s0 : nat) (ds : list TileData.t) : list TileFields :=
  imap (fun i d => fieldsOfData d (S (s0 + 2 * i))) ds.

Definition loadedSets (ds : list TileData.t) : list (list Z) :=
  ds ≫= fun d =>
    [[]; foldl (fun s x => JsSet.add_elem x s) [] (TileData.riverEdges d)].

(** The object that the last entry of [ds] with coordinate [c] becomes, the
    first entry becoming the object [n]. *)
Fixpoint lastLoaded (c : HexCoord) (ds : list TileData.t) (n : nat) : option nat :=
  match ds with
  | [] => None
  | d :: ds' =>
      match lastLoaded c ds' (S n) with
      | Some j => Some j
      | None => if bool_decide (TileData.coord d = c) then Some n else None
      end
  end.

(** A serialized tile with its river edges passed through [new Set]. *)
Definition reloaded (d : TileData.t) : TileData.t :=
  TileData.mk (TileData.coord d) (TileData.terrain d) (TileData.modifier d)
    (TileData.feature d) (TileData.resource d) (TileData.district d)
    (TileData.wonder d) (TileData.naturalWonder d) (TileData.improvement d)
    (foldl (fun s x => JsSet.add_elem x s) [] (TileData.riverEdges d))
    (TileData.ownerCityId d) (TileData.isCityCenter d).


(** The entries of a grid have distinct keys, and each tile stands under the
    key of its own coordinate, as [initializeEmptyMap], [setTile] and
    [fromJSON] enter it. *)
Definition map_keyed (h : Heap) (m : GameMap.t) : Prop :=
  NoDup (JsMap.keys (GameMap.tiles m))
  /\ Forall (fun e => e.1 = HexUtils.coordToKey (coord (tileAt h e.2)))
            (GameMap.tiles m).

#[global] Instance map_keyed_dec (h : Heap) (m : GameMap.t) : Decision (map_keyed h m).
Proof. unfold map_keyed. apply _. Defined.

(** [{ ...data, version: v }] *)
Definition with_version (v : Z) (data : GameMapData.t) : GameMapData.t :=
  GameMapData.mk v (GameMapData.name data) (GameMapData.width data)
    (GameMapData.height data) (GameMapData.tiles data).

(** A snapshot that is well-formed in every respect except that its version
    is 2. *)
Definition snapshotV2 : GameMapData.t :=
  {| GameMapData.version := 2;
     GameMapData.name := "v2";
     GameMapData.width := 1;
     GameMapData.height := 1;
     GameMapData.tiles := [defaultData (mkHexCoord 0 0)] |}.

(** ** The placement search *)

(** The candidates of the search, in the order in which it visits them:
    the tiles within range 3 of the city center, as [getTilesInRange] lists
    them, that have no district, are not a Mountain and pass the terrain
    test of the district. *)
Definition candidates (h : Heap) (this_map : GameMap.t) (cityCenter : HexCoord)
    (dt : DistrictType.t) : list loc :=
  List.filter (fun t => negb (Tile.hasDistrict h t)
                        && negb (Tile.isMountain h t)
                        && AdjacencyEngine.canPlaceDistrict h t dt)
              (GameMap.getTilesInRange this_map cityCenter 3).

(** The total of a result in the primary yield of the district, 0 when the
    district has none. *)
Definition primaryTotal (dt : DistrictType.t) (res : DistrictAdjacencyResult.t) : Z :=
  match DistrictInfo.primaryYieldType (DISTRICT_DATA dt) with
  | Some p => Yields_get (DistrictAdjacencyResult.totalBonus res) p
  | None => 0
  end.

(** The score of a tile: the primary total of the hypothetical placement of
    the district on it, evaluated in the store [h]. *)
Definition potentialScore (h : Heap) (this_map : GameMap.t) (dt : DistrictType.t)
    (tile : loc) : Z :=
  match completion (AdjacencyEngine.calculatePotentialAdjacency this_map
                      (coord (tileAt h tile)) dt) h with
  | Normal (Some res) => primaryTotal dt res
  | _ => 0
  end.

(** One round of the loop of [findBestDistrictPlacement]. *)
Definition searchBody (this_map : GameMap.t) (districtType : DistrictType.t)
    (best : option (HexCoord * DistrictAdjacencyResult.t) * ExtNumber) (tile : loc)
  : M (option (HexCoord * DistrictAdjacencyResult.t) * ExtNumber) :=
  (let '(bestResult, bestTotal) := best in
   tile_coord <- gets (fun h => coord (tileAt h tile)) ;;
   result <- AdjacencyEngine.calculatePotentialAdjacency this_map tile_coord districtType ;;
   match result with
   | Some result =>
       let primary := DistrictInfo.primaryYieldType (DISTRICT_DATA districtType) in
       let total :=
         match primary with
         | Some p => Yields_get (DistrictAdjacencyResult.totalBonus result) p
         | None => 0
         end in
       if gt_ext total bestTotal
       then ret (Some (tile_coord, result), Finite total)
       else ret (bestResult, bestTotal)
   | None => ret (bestResult, bestTotal)
   end)%M.

(** What the search holds after visiting the tiles [visited]: nothing if
    there were none; otherwise a visited tile that scores strictly more than
    every tile visited before it and at least as much as every tile visited
    after it, with its coordinate and a result of that score. *)
Definition searchInv (h : Heap) (this_map : GameMap.t) (dt : DistrictType.t)
    (visited : list loc)
    (best : option (HexCoord * DistrictAdjacencyResult.t) * ExtNumber) : Prop :=
  match best.1 with
  | None => visited = [] /\ best.2 = NegInfinity
  | Some (c, res) =>
      exists pre tile post,
        visited = pre ++ tile :: post
        /\ c = coord (tileAt h tile)
        /\ best.2 = Finite (potentialScore h this_map dt tile)
        /\ primaryTotal dt res = potentialScore h this_map dt tile
        /\ Forall (fun t => potentialScore h this_map dt t
                            < potentialScore h this_map dt tile) pre
        /\ Forall (fun t => potentialScore h this_map dt t
                            <= potentialScore h this_map dt tile) post
  end.

(** ** Grids a program can reach *)

(** The two stores hold the same objects, and every tile has the coordinate
    and the river-edge set object it had; only field values and set
    contents may differ. *)
Definition same_shape (h h' : Heap) : Prop :=
  length (tileObjs h') = length (tileObjs h)
  /\ length (setObjs h') = length (setObjs h)
  /\ forall l, coord (tileAt h' l) = coord (tileAt h l)
               /\ _riverEdges (tileAt h' l) = _riverEdges (tileAt h l).

(** One step of a program on the store: a call of a mutator on some tile,
    or the allocation of new objects. *)
Inductive heap_step : Heap -> Heap -> Prop :=
  | step_call (h : Heap) (this : loc) (c : MutatorCall) :
      heap_step h (finalHeap (call this c) h)
  | step_setResource (h : Heap) (this : loc) (resource : ResourceType.t) :
      heap_step h (finalHeap (Tile.setResource this resource) h)
  | step_setNaturalWonder (h : Heap) (this : loc) (nw : NaturalWonderType.t) :
      heap_step h (finalHeap (Tile.setNaturalWonder this nw) h)
  | step_alloc (h h' : Heap) :
      heap_extends h h' -> heap_step h h'.

(** A grid built by [new GameMap] or [GameMap.fromJSON], after any number of
    steps on the store, of calls of [setTile] with allocated tiles and of
    assignments to its name. *)
Inductive reachableGrid : Heap -> GameMap.t -> Prop :=
  | reach_new (h : Heap) (width height : Z) (name : string) :
      reachableGrid (finalHeap (GameMap.new width height name) h)
                    (resultMap (GameMap.new width height name) h)
  | reach_fromJSON (h : Heap) (data : GameMapData.t) :
      reachableGrid (finalHeap (GameMap.fromJSON data) h)
                    (resultMap (GameMap.fromJSON data) h)
  | reach_step (h h' : Heap) (g : GameMap.t) :
      reachableGrid h g -> heap_step h h' -> reachableGrid h' g
  | reach_setTile (h : Heap) (g : GameMap.t) (tile : loc) :
      reachableGrid h g -> allocated h tile ->
      reachableGrid h (GameMap.setTile h g tile)
  | reach_set_name (h : Heap) (g : GameMap.t) (value : string) :
      reachableGrid h g -> reachableGrid h (GameMap.set_name g value).

(** ** Tiles own their river-edge sets *)

(** Every tile of the store refers to an allocated set, and no two tiles
    refer to the same set. *)
Definition heap_wf (h : Heap) : Prop :=
  Forall (fun t => (_riverEdges t < length (setObjs h))%nat) (tileObjs h)
  /\ NoDup (_riverEdges <$> tileObjs h).

#[global] Instance heap_wf_dec (h : Heap) : Decision (heap_wf h).
Proof. unfold heap_wf. apply _. Defined.

(** ** Definitions for the further properties *)

(** One side of a hex ring: [radius] steps in direction [d] from a corner. *)
Definition ringSide (corner : HexCoord) (d : Z * Z) (radius : Z) : list HexCoord :=
  (fun i => mkHexCoord (q corner + i * d.1) (r corner + i * d.2)) <$> seqZ 0 radius.

(** ** The mutators of a tile, call by call *)

(** The exception with which a call on a tile with the fields [t] ends, if
    it is refused. *)
Definition refusal (t : TileFields) (c : MutatorCall) : option Exn :=
  match c with
  | CallSetTerrain terrain modifier =>
      if (modifier === TerrainModifier.MOUNTAIN)
         && ((terrain === TerrainType.COAST) || (terrain === TerrainType.OCEAN))
      then Some (Error "Mountains cannot be placed on water tiles")
      else if (modifier === TerrainModifier.HILLS)
              && ((terrain === TerrainType.COAST) || (terrain === TerrainType.OCEAN))
      then Some (Error "Hills cannot be placed on water tiles")
      else None
  | CallSetFeature feature =>
      if (feature !== FeatureType.NONE)
         && negb (includes (FeatureInfo.validTerrains (FEATURE_DATA feature)) (_terrain t))
      then Some (Error (FeatureType_value feature +:+ " cannot be placed on "
                        +:+ TerrainType_value (_terrain t)))
      else None
  | CallSetDistrict district =>
      if (_modifier t === TerrainModifier.MOUNTAIN) && (district !== DistrictType.NONE)
      then Some (Error "Districts cannot be placed on mountains")
      else if ((_terrain t === TerrainType.COAST) || (_terrain t === TerrainType.OCEAN))
              && (district !== DistrictType.NONE)
              && (district !== DistrictType.HARBOR)
              && (district !== DistrictType.WATER_PARK)
      then Some (Error "Only Harbor and Water Park can be placed on water")
      else None
  | CallSetImprovement _ =>
      if (_district t !== DistrictType.NONE) || (_wonder t !== WonderType.NONE)
      then Some (Error "Cannot place improvements on districts or wonders")
      else None
  | CallAddRiverEdge edge =>
      if (edge <? 0) || (5 <? edge)
      then Some (Error "River edge must be between 0 and 5")
      else None
  | CallSetWonder _ | CallRemoveRiverEdge _ | CallSetOwner _ _ => None
  end.

(** The fields of the tile after a call that is not refused. *)
Definition tileEffect (c : MutatorCall) (t : TileFields) : TileFields :=
  match c with
  | CallSetTerrain terrain modifier => with_modifier modifier (with_terrain terrain t)
  | CallSetFeature feature => with_feature feature t
  | CallSetDistrict district =>
      if district !== DistrictType.NONE
      then with_feature FeatureType.NONE
             (with_improvement ImprovementType.NONE (with_district district t))
      else with_district district t
  | CallSetWonder wonder =>
      if wonder !== WonderType.NONE
      then with_improvement ImprovementType.NONE (with_wonder wonder t)
      else with_wonder wonder t
  | CallSetImprovement improvement => with_improvement improvement t
  | CallAddRiverEdge _ | CallRemoveRiverEdge _ => t
  | CallSetOwner cityId isCityCenter =>
      if isCityCenter
      then with_district DistrictType.CITY_CENTER
             (with_isCityCenter isCityCenter (with_ownerCityId cityId t))
      else with_isCityCenter isCityCenter (with_ownerCityId cityId t)
  end.

(** The river edges of the tile after a call that is not refused. *)
Definition edgesEffect (c : MutatorCall) (s : list Z) : list Z :=
  match c with
  | CallAddRiverEdge edge => JsSet.add_elem edge s
  | CallRemoveRiverEdge edge => JsSet.delete_elem edge s
  | _ => s
  end.

(** A computation throws from a store. *)
Definition throws {A} (c : M A) (h : Heap) : Prop :=
  exists e, completion c h = Throw e.

(** The calls that a tile refuses, in terms of its public properties. *)
Definition refused (h : Heap) (this : loc) (c : MutatorCall) : Prop :=
  match c with
  | CallSetTerrain terrain modifier =>
      (modifier = TerrainModifier.MOUNTAIN \/ modifier = TerrainModifier.HILLS)
      /\ (terrain = TerrainType.COAST \/ terrain = TerrainType.OCEAN)
  | CallSetFeature feature =>
      feature <> FeatureType.NONE
      /\ Tile.terrain h this ∉ FeatureInfo.validTerrains (FEATURE_DATA feature)
  | CallSetDistrict district =>
      district <> DistrictType.NONE
      /\ (Tile.isMountain h this = true
          \/ (Tile.isWater h this = true
              /\ district <> DistrictType.HARBOR /\ district <> DistrictType.WATER_PARK))
  | CallSetImprovement _ =>
      Tile.hasDistrict h this = true \/ Tile.hasWonder h this = true
  | CallAddRiverEdge edge => edge < 0 \/ 5 < edge
  | CallSetWonder _ | CallRemoveRiverEdge _ | CallSetOwner _ _ => False
  end.

(** A tile that carries an improvement has no district and no wonder. *)
Definition improvement_ok (h : Heap) (l : loc) : Prop :=
  Tile.improvement h l <> ImprovementType.NONE ->
  Tile.hasDistrict h l = false /\ Tile.hasWonder h l = false.

(** A water tile is flat. *)
Definition water_is_flat (h : Heap) (l : loc) : Prop :=
  Tile.isWater h l = true -> Tile.modifier h l = TerrainModifier.FLAT.

#[global] Instance improvement_ok_dec (h : Heap) (l : loc) : Decision (improvement_ok h l).
Proof. unfold improvement_ok. apply _. Defined.

#[global] Instance water_is_flat_dec (h : Heap) (l : loc) : Decision (water_is_flat h l).
Proof. unfold water_is_flat. apply _. Defined.

(** A set of river edges: edges 0 to 5, none twice. *)
Definition edges_ok (s : list Z) : Prop :=
  NoDup s /\ Forall (fun e => 0 <= e <= 5) s.

#[global] Instance edges_ok_dec (s : list Z) : Decision (edges_ok s).
Proof. unfold edges_ok. apply _. Defined.

(** A fresh tile given a farm and then made the city center. *)
Definition farmCity : M loc :=
  (t <- Tile.new (mkHexCoord 0 0) ;;
   Tile.setImprovement t ImprovementType.FARM ;;
   Tile.setOwner t (Some "city1") true)%M.

(** ** Adjacency *)

(** The sum of the amounts of a list of bonuses. *)
Definition sumAmounts (bs : list AdjacencyBonus) : Z :=
  foldr (fun b acc => amount b + acc) 0 bs.

(** The bonus of a Government Plaza among the neighbours. *)
Definition govPlazaBonus (h : Heap) (neighbors : list loc) : Z :=
  if existsb (fun n => Tile.district h n === DistrictType.GOVERNMENT_PLAZA) neighbors
  then 1 else 0.

(** A bonus of a district: a positive amount of the district's primary
    yield, booked under the district. *)
Definition bonus_of (d : DistrictType.t) (b : AdjacencyBonus) : Prop :=
  0 < amount b
  /\ districtType b = d
  /\ DistrictInfo.primaryYieldType (DISTRICT_DATA d) = Some (yieldType b).

(** The sum over a list of district results of one field of their totals. *)
Definition sumTotals (k : YieldKey) (ds : list DistrictAdjacencyResult.t) : Z :=
  foldr (fun d acc => Yields_get (DistrictAdjacencyResult.totalBonus d) k + acc) 0 ds.

(** * Properties *)

Local Open Scope M_scope.

Ltac run_M :=
  unfold bind, ret, throw, gets, when_, modifyTile, modifySet, allocTile,
    allocSet; simpl.

(** ** Base yields *)

(** On the three fields the code sums, it agrees with the specification's
    sum for every tile. *)
Lemma baseYields_food_production_gold (h : Heap) (this : loc) :
  food (Tile.baseYields h this) = food (baseYields_spec h this)
  /\ production (Tile.baseYields h this) = production (baseYields_spec h this)
  /\ gold (Tile.baseYields h this) = gold (baseYields_spec h this).
Proof.
  unfold Tile.baseYields, baseYields_spec.
  destruct (_modifier (tileAt h this) === TerrainModifier.HILLS); simpl; lia.
Qed.

(** The code never adds to science, culture or faith. *)
Lemma baseYields_science_culture_faith (h : Heap) (this : loc) :
  science (Tile.baseYields h this) = 0
  /\ culture (Tile.baseYields h this) = 0
  /\ faith (Tile.baseYields h this) = 0.
Proof.
  unfold Tile.baseYields.
  destruct (_modifier (tileAt h this) === TerrainModifier.HILLS); simpl; auto.
Qed.

(** C1, at the failing input.  On a Grass tile carrying a Geothermal Fissure
    the specification's six-field sum has science 1 (the feature's intrinsic
    yield) while [baseYields] returns science 0: the code adds only the
    food, production and gold of each source. *)
Theorem C1_baseYields_omits_science :
  completion fissureTile emptyHeap = Normal 0%nat
  /\ Tile.baseYields (finalHeap fissureTile emptyHeap) 0%nat
     = mkYields 2 0 0 0 0 0
  /\ baseYields_spec (finalHeap fissureTile emptyHeap) 0%nat
     = mkYields 2 0 0 1 0 0.
Proof. repeat split; reflexivity. Qed.

(** ** The mutators are all-or-nothing *)



(** ** Districts and mountains *)

(** [setDistrict] itself refuses a district on a Mountain. *)
Lemma setDistrict_refuses_mountain (h : Heap) (this : loc) (d : DistrictType.t) :
  _modifier (tileAt h this) = TerrainModifier.MOUNTAIN ->
  d <> DistrictType.NONE ->
  Tile.setDistrict this d h
  = (Throw (Error "Districts cannot be placed on mountains"), h).
Proof.
  intros Hm Hd. unfold Tile.setDistrict. run_M. rewrite Hm.
  rewrite (bool_decide_eq_true_2 _ eq_refl), (bool_decide_eq_false_2 _ Hd).
  reflexivity.
Qed.

(** C7, at the failing input.  After [setTerrain(PLAINS, MOUNTAIN)] and
    [setOwner("city1", true)], both successful, the tile is a Mountain and
    carries the City Center district; likewise a Campus tile can be raised
    to a Mountain by [setTerrain].  [setDistrict] guards against a district
    on a Mountain, [setOwner] and [setTerrain] do not. *)
Theorem C7_district_on_mountain_reachable :
  completion mountainCity emptyHeap = Normal 0%nat
  /\ Tile.modifier (finalHeap mountainCity emptyHeap) 0%nat = TerrainModifier.MOUNTAIN
  /\ Tile.district (finalHeap mountainCity emptyHeap) 0%nat = DistrictType.CITY_CENTER
  /\ completion raisedCampus emptyHeap = Normal 0%nat
  /\ Tile.modifier (finalHeap raisedCampus emptyHeap) 0%nat = TerrainModifier.MOUNTAIN
  /\ Tile.district (finalHeap raisedCampus emptyHeap) 0%nat = DistrictType.CAMPUS.
Proof. repeat split; reflexivity. Qed.

(** ** The store *)

Lemma tileAt_lookup (h : Heap) (l : loc) (t : TileFields) :
  tileObjs h !! l = Some t -> tileAt h l = t.
Proof. unfold tileAt. intros ->. reflexivity. Qed.

Lemma setAt_lookup (h : Heap) (l : loc) (s : list Z) :
  setObjs h !! l = Some s -> setAt h l = s.
Proof. unfold setAt. intros ->. reflexivity. Qed.

Lemma tileAt_alter (f : TileFields -> TileFields) (ts : list TileFields)
    (ss : list (list Z)) (this l : loc) :
  tileAt (mkHeap (alter f this ts) ss) l
  = if decide (this = l /\ (l < length ts)%nat)
    then f (tileAt (mkHeap ts ss) l) else tileAt (mkHeap ts ss) l.
Proof.
  unfold tileAt. simpl.
  destruct (decide (this = l)) as [->|Hne].
  - rewrite list_lookup_alter_eq.
    destruct (ts !! l) as [t|] eqn:E; simpl.
    + apply lookup_lt_Some in E. rewrite decide_True by done. done.
    + apply lookup_ge_None in E. rewrite decide_False by lia. done.
  - rewrite list_lookup_alter_ne by done. rewrite decide_False by tauto. done.
Qed.

Lemma setAt_alter (f : list Z -> list Z) (ts : list TileFields)
    (ss : list (list Z)) (this l : loc) :
  setAt (mkHeap ts (alter f this ss)) l
  = if decide (this = l /\ (l < length ss)%nat)
    then f (setAt (mkHeap ts ss) l) else setAt (mkHeap ts ss) l.
Proof.
  unfold setAt. simpl.
  destruct (decide (this = l)) as [->|Hne].
  - rewrite list_lookup_alter_eq.
    destruct (ss !! l) as [t|] eqn:E; simpl.
    + apply lookup_lt_Some in E. rewrite decide_True by done. done.
    + apply lookup_ge_None in E. rewrite decide_False by lia. done.
  - rewrite list_lookup_alter_ne by done. rewrite decide_False by tauto. done.
Qed.

#[local] Instance heap_extends_refl : Reflexive heap_extends.
Proof. intros h. split; reflexivity. Qed.

#[local] Instance heap_extends_trans : Transitive heap_extends.
Proof. intros h1 h2 h3 [? ?] [? ?]. split; etrans; eauto. Qed.

Lemma heap_extends_tileAt (h h' : Heap) (l : loc) :
  heap_extends h h' -> (l < length (tileObjs h))%nat -> tileAt h' l = tileAt h l.
Proof.
  intros [[k Hk] _] Hl. unfold tileAt. rewrite Hk, lookup_app_l by done. reflexivity.
Qed.

Lemma heap_extends_setAt (h h' : Heap) (l : loc) :
  heap_extends h h' -> (l < length (setObjs h))%nat -> setAt h' l = setAt h l.
Proof.
  intros [_ [k Hk]] Hl. unfold setAt. rewrite Hk, lookup_app_l by done. reflexivity.
Qed.

Lemma heap_extends_length (h h' : Heap) :
  heap_extends h h' ->
  (length (tileObjs h) <= length (tileObjs h'))%nat
  /\ (length (setObjs h) <= length (setObjs h'))%nat.
Proof.
  intros [[k ->] [k' ->]]. rewrite !length_app. lia.
Qed.

(** ** [Set<number>] *)

Lemma add_elem_elem_of (x y : Z) (s : list Z) :
  y ∈ JsSet.add_elem x s <-> y = x \/ y ∈ s.
Proof.
  unfold JsSet.add_elem. case_bool_decide.
  - split; [tauto|]. intros [Hy|Hy]; [by subst|done].
  - rewrite elem_of_app, list_elem_of_singleton. tauto.
Qed.

Lemma add_elem_NoDup (x : Z) (s : list Z) : NoDup s -> NoDup (JsSet.add_elem x s).
Proof.
  intros Hs. unfold JsSet.add_elem. case_bool_decide; [done|].
  apply NoDup_app. split_and!; [done| |apply NoDup_singleton].
  intros y Hy ->%list_elem_of_singleton. done.
Qed.

Lemma delete_elem_elem_of (x y : Z) (s : list Z) :
  y ∈ JsSet.delete_elem x s <-> y <> x /\ y ∈ s.
Proof. unfold JsSet.delete_elem. rewrite list_elem_of_filter. done. Qed.

Lemma of_list_elem_of_gen (xs acc : list Z) (y : Z) :
  y ∈ foldl (fun s x => JsSet.add_elem x s) acc xs <-> y ∈ acc \/ y ∈ xs.
Proof.
  revert acc. induction xs as [|x xs IH]; intros acc; simpl.
  - rewrite elem_of_nil. tauto.
  - rewrite IH, add_elem_elem_of, elem_of_cons. tauto.
Qed.

(** [new Set(iterable)] has exactly the elements of the iterable. *)
Lemma of_list_elem_of (xs : list Z) (y : Z) :
  y ∈ foldl (fun s x => JsSet.add_elem x s) [] xs <-> y ∈ xs.
Proof. rewrite of_list_elem_of_gen, elem_of_nil. tauto. Qed.

Lemma of_list_NoDup_gen (xs acc : list Z) :
  NoDup acc -> NoDup (foldl (fun s x => JsSet.add_elem x s) acc xs).
Proof.
  revert acc. induction xs as [|x xs IH]; intros acc Hacc; simpl; [done|].
  apply IH, add_elem_NoDup, Hacc.
Qed.

Lemma of_list_id_gen (xs acc : list Z) :
  NoDup (acc ++ xs) -> foldl (fun s x => JsSet.add_elem x s) acc xs = acc ++ xs.
Proof.
  revert acc. induction xs as [|x xs IH]; intros acc Hnd; simpl.
  - by rewrite app_nil_r.
  - assert (x ∉ acc) as Hx.
    { apply NoDup_app in Hnd as (_ & Hd & _). intros Hin.
      apply (Hd x Hin). left. }
    unfold JsSet.add_elem at 2. rewrite bool_decide_eq_false_2 by done.
    rewrite IH; rewrite <- app_assoc; done.
Qed.

(** On a list without repetition (the values of a set), [new Set] keeps the
    elements and their order. *)
Lemma of_list_id (xs : list Z) :
  NoDup xs -> foldl (fun s x => JsSet.add_elem x s) [] xs = xs.
Proof. intros. by rewrite of_list_id_gen. Qed.

(** ** The copy returned by the [riverEdges] getter *)

Lemma riverEdges_run (h : Heap) (this : loc) :
  Tile.riverEdges this h
  = (Normal (length (setObjs h)),
     mkHeap (tileObjs h)
       (setObjs h ++ [foldl (fun s x => JsSet.add_elem x s) []
                        (setAt h (_riverEdges (tileAt h this)))])).
Proof. reflexivity. Qed.


(** A mutator other than [addRiverEdge] and [removeRiverEdge] leaves the set
    objects of the store, and the reference each tile holds to its set, as
    they were. *)
Lemma non_river_call_frame (h : Heap) (this : loc) (c : MutatorCall) :
  isRiverCall c = false ->
  setObjs (finalHeap (call this c) h) = setObjs h
  /\ forall l, _riverEdges (tileAt (finalHeap (call this c) h) l)
               = _riverEdges (tileAt h l).
Proof.
  intros Hc. unfold finalHeap.
  assert (forall (f : TileFields -> TileFields) ts ss l,
            (forall t, _riverEdges (f t) = _riverEdges t) ->
            _riverEdges (tileAt (mkHeap (alter f this ts) ss) l)
            = _riverEdges (tileAt (mkHeap ts ss) l)) as Halt.
  { intros f ts ss l Hf. rewrite tileAt_alter. case_decide; auto. }
  destruct h as [ts0 ss0].
  destruct c; simpl in *; try discriminate.
  - unfold Tile.setTerrain. run_M.
    repeat (case_bool_decide; simpl); (split; [done|intros l]);
      rewrite ?Halt by done; done.
  - unfold Tile.setFeature. run_M.
    repeat (case_bool_decide; simpl); try destruct (includes _ _); simpl;
      (split; [done|intros l]); rewrite ?Halt by done; done.
  - unfold Tile.setDistrict. run_M.
    repeat (case_bool_decide; simpl); (split; [done|intros l]);
      rewrite ?Halt by done; done.
  - unfold Tile.setWonder. run_M.
    repeat (case_bool_decide; simpl); (split; [done|intros l]);
      rewrite ?Halt by done; done.
  - unfold Tile.setImprovement. run_M.
    repeat (case_bool_decide; simpl); (split; [done|intros l]);
      rewrite ?Halt by done; done.
  - unfold Tile.setOwner. run_M.
    destruct isCityCenter; simpl; (split; [done|intros l]);
      rewrite ?Halt by done; done.
Qed.



(** ** Commercial Hub adjacency *)

Lemma countWhere_cons (p : loc -> bool) (n : loc) (ns : list loc) :
  countWhere p (n :: ns) = (if p n then 1 else 0) + countWhere p ns.
Proof.
  unfold countWhere. simpl. destruct (p n); simpl; lia.
Qed.

Lemma countWhere_nonneg (p : loc -> bool) (ns : list loc) : 0 <= countWhere p ns.
Proof. unfold countWhere. lia. Qed.

Lemma countWhere_zero_existsb (p : loc -> bool) (ns : list loc) :
  countWhere p ns = 0 -> existsb p ns = false.
Proof.
  induction ns as [|n ns IH]; simpl; [done|].
  rewrite countWhere_cons. pose proof (countWhere_nonneg p ns).
  destruct (p n); simpl; [lia|]. intros. apply IH. lia.
Qed.

(** The two counters of the Commercial Hub loop. *)
Lemma count_loop2 (p1 p2 : loc -> bool) (ns : list loc) (a b : Z) :
  foldl (fun '(c1, c2) n => (incrIf (p1 n) c1, incrIf (p2 n) c2)) (a, b) ns
  = (a + countWhere p1 ns, b + countWhere p2 ns).
Proof.
  revert a b. induction ns as [|n ns IH]; intros a b; simpl.
  - unfold countWhere. simpl. f_equal; lia.
  - rewrite IH, !countWhere_cons. unfold incrIf.
    destruct (p1 n), (p2 n); f_equal; lia.
Qed.

(** C2.  A Commercial Hub whose existing neighbours count exactly three
    tiles with a district, no Harbor and no Government Plaza among them, has
    a total gold bonus of 1 when its own set of river edges is empty and of
    3 when it is not, however many river edges there are; the other five
    yields of the total are 0. *)
Theorem C2_commercial_hub_three_districts
    (h : Heap) (this_map : GameMap.t) (tile : loc) :
  Tile.district h tile = DistrictType.COMMERCIAL_HUB ->
  let neighbors := GameMap.getNeighborTiles this_map (coord (tileAt h tile)) in
  countWhere (Tile.hasDistrict h) neighbors = 3 ->
  countWhere (fun n => Tile.district h n === DistrictType.HARBOR) neighbors = 0 ->
  countWhere (fun n => Tile.district h n === DistrictType.GOVERNMENT_PLAZA) neighbors = 0 ->
  let total :=
    DistrictAdjacencyResult.totalBonus
      (AdjacencyEngine.calculateDistrictAdjacency h this_map tile) in
  (JsSet.values h (_riverEdges (tileAt h tile)) = [] ->
     total = mkYields 0 0 1 0 0 0)
  /\ (JsSet.values h (_riverEdges (tileAt h tile)) <> [] ->
     total = mkYields 0 0 3 0 0 0).
Proof.
  intros Hhub neighbors Hd Hh Hg total.
  assert (total = mkYields 0 0 (if Tile.hasRiver h tile then 3 else 1) 0 0 0) as ->.
  { unfold total, AdjacencyEngine.calculateDistrictAdjacency.
    fold neighbors. rewrite Hhub. simpl DISTRICT_DATA.
    rewrite (countWhere_zero_existsb _ _ Hg). simpl andb. cbv iota.
    unfold AdjacencyEngine.calculateCommercialHubAdjacency.
    rewrite count_loop2, Hh, Hd. simpl.
    destruct (Tile.hasRiver h tile); reflexivity. }
  unfold Tile.hasRiver, JsSet.size, JsSet.values.
  destruct (setAt h (_riverEdges (tileAt h tile))) as [|x xs]; simpl; split; try done.
Qed.

Lemma C2_commercial_hub_three_districts_witness :
  DistrictAdjacencyResult.totalBonus
    (AdjacencyEngine.calculateDistrictAdjacency
       (finalHeap hubScenario emptyHeap) (resultMap hubScenario emptyHeap) 4%nat)
  = mkYields 0 0 3 0 0 0.
Proof.
  apply (C2_commercial_hub_three_districts
           (finalHeap hubScenario emptyHeap) (resultMap hubScenario emptyHeap) 4%nat);
    [reflexivity | reflexivity | reflexivity | reflexivity | vm_compute; discriminate].
Defined.

(** ** Building a tile from its serialized form *)

Lemma alter_last {A} (f : A -> A) (l : list A) (x : A) :
  alter f (length l) (l ++ [x]) = l ++ [f x].
Proof.
  rewrite alter_app_r_alt by lia. by rewrite Nat.sub_diag.
Qed.

Lemma Tile_new_run (c : HexCoord) (h : Heap) :
  Tile.new c h
  = (Normal (length (tileObjs h)),
     mkHeap (tileObjs h ++ [initialFields c (length (setObjs h))])
            (setObjs h ++ [[]])).
Proof. reflexivity. Qed.

Lemma Tile_fromJSON_run (data : TileData.t) (h : Heap) :
  Tile.fromJSON data h
  = (Normal (length (tileObjs h)),
     mkHeap (tileObjs h ++ [fieldsOfData data (S (length (setObjs h)))])
            (setObjs h ++ [[]; foldl (fun s x => JsSet.add_elem x s) []
                                 (TileData.riverEdges data)])).
Proof.
  unfold Tile.fromJSON, bind. rewrite Tile_new_run. run_M.
  unfold JsSet.new. run_M.
  rewrite !alter_last. simpl. rewrite length_app. simpl.
  rewrite <- app_assoc. simpl.
  replace (length (setObjs h) + 1)%nat with (S (length (setObjs h))) by lia.
  reflexivity.
Qed.

Lemma heap_extends_app (h : Heap) (ts : list TileFields) (ss : list (list Z)) :
  heap_extends h (mkHeap (tileObjs h ++ ts) (setObjs h ++ ss)).
Proof. split; simpl; by apply prefix_app_r. Qed.

Lemma Tile_fromJSON_extends (data : TileData.t) (h : Heap) :
  heap_extends h (finalHeap (Tile.fromJSON data) h).
Proof. unfold finalHeap. rewrite Tile_fromJSON_run. apply heap_extends_app. Qed.

(** An allocated tile reads the same in every later store. *)
Lemma heap_extends_toJSON (h h' : Heap) (l : loc) :
  heap_extends h h' -> allocated h l -> Tile.toJSON h' l = Tile.toJSON h l.
Proof.
  intros Hext [Hl Hs]. unfold Tile.toJSON, JsSet.values.
  rewrite (heap_extends_tileAt h h' l Hext Hl).
  by rewrite (heap_extends_setAt h h' _ Hext Hs).
Qed.

Lemma heap_extends_allocated (h h' : Heap) (l : loc) :
  heap_extends h h' -> allocated h l -> allocated h' l.
Proof.
  intros Hext [Hl Hs]. destruct (heap_extends_length h h' Hext).
  split; [lia|]. rewrite (heap_extends_tileAt h h' l Hext Hl). lia.
Qed.

Lemma heap_extends_map_toJSON (h h' : Heap) (m : GameMap.t) :
  heap_extends h h' -> map_allocated h m -> GameMap.toJSON h' m = GameMap.toJSON h m.
Proof.
  intros Hext Hm. unfold GameMap.toJSON. f_equal.
  apply map_ext_Forall. eapply Forall_impl; [exact Hm|].
  intros l Hl. by apply heap_extends_toJSON.
Qed.

(** ** Potential-placement evaluation *)

Lemma calculatePotentialAdjacency_run (h : Heap) (this_map : GameMap.t)
    (c : HexCoord) (dt : DistrictType.t) :
  AdjacencyEngine.calculatePotentialAdjacency this_map c dt h
  = match GameMap.getTile this_map c with
    | None => (Normal None, h)
    | Some tile =>
        let h' := finalHeap (Tile.fromJSON
                    (AdjacencyEngine.with_district_data dt (Tile.toJSON h tile))) h in
        (Normal (Some (AdjacencyEngine.calculateDistrictAdjacency h' this_map
                         (length (tileObjs h)))), h')
    end.
Proof.
  unfold AdjacencyEngine.calculatePotentialAdjacency.
  destruct (GameMap.getTile this_map c) as [tile|]; [|reflexivity].
  unfold bind, gets, ret, finalHeap. rewrite Tile_fromJSON_run. reflexivity.
Qed.

Lemma calculatePotentialAdjacency_extends (h : Heap) (this_map : GameMap.t)
    (c : HexCoord) (dt : DistrictType.t) :
  heap_extends h (finalHeap (AdjacencyEngine.calculatePotentialAdjacency this_map c dt) h).
Proof.
  unfold finalHeap at 1. rewrite calculatePotentialAdjacency_run.
  destruct (GameMap.getTile this_map c); simpl.
  - apply Tile_fromJSON_extends.
  - reflexivity.
Qed.

(** C9.  Evaluating a hypothetical placement never throws; it answers
    not-found exactly for a coordinate absent from the grid, and then the
    store is untouched; in every case each object of the store before the
    call is in the store after it, unchanged -- the call only allocates --
    so that, for a grid whose tiles are allocated, every tile serializes
    after the call as before it and the grid's snapshot is the same. *)
Theorem C9_calculatePotentialAdjacency_no_side_effect
    (h : Heap) (this_map : GameMap.t) (c : HexCoord) (dt : DistrictType.t) :
  map_allocated h this_map ->
  let run := AdjacencyEngine.calculatePotentialAdjacency this_map c dt in
  (exists res, completion run h = Normal res
               /\ (res = None <-> GameMap.getTile this_map c = None))
  /\ (GameMap.getTile this_map c = None -> finalHeap run h = h)
  /\ heap_extends h (finalHeap run h)
  /\ Forall (fun l => Tile.toJSON (finalHeap run h) l = Tile.toJSON h l)
            (GameMap.getAllTiles this_map)
  /\ GameMap.toJSON (finalHeap run h) this_map = GameMap.toJSON h this_map.
Proof.
  intros Hm run.
  pose proof (calculatePotentialAdjacency_extends h this_map c dt) as Hext.
  fold run in Hext. split_and!.
  - unfold completion, run. rewrite calculatePotentialAdjacency_run.
    destruct (GameMap.getTile this_map c); simpl; eexists; (split; [reflexivity|]);
      split; done.
  - intros Hnone. unfold finalHeap, run. rewrite calculatePotentialAdjacency_run.
    by rewrite Hnone.
  - exact Hext.
  - eapply Forall_impl; [exact Hm|]. intros l Hl. by apply heap_extends_toJSON.
  - by apply heap_extends_map_toJSON.
Qed.

Lemma C9_calculatePotentialAdjacency_no_side_effect_witness :
  let h := finalHeap hubScenario emptyHeap in
  let m := resultMap hubScenario emptyHeap in
  let run := AdjacencyEngine.calculatePotentialAdjacency m (mkHexCoord 0 0)
               DistrictType.HOLY_SITE in
  GameMap.toJSON (finalHeap run h) m = GameMap.toJSON h m.
Proof.
  apply (C9_calculatePotentialAdjacency_no_side_effect
           (finalHeap hubScenario emptyHeap) (resultMap hubScenario emptyHeap)
           (mkHexCoord 0 0) DistrictType.HOLY_SITE).
  compute_done.
Defined.

(** ** Coordinate keys *)

Lemma comma_free_app (s1 s2 : string) :
  comma_free (s1 +:+ s2) = comma_free s1 && comma_free s2.
Proof.
  induction s1 as [|c s1 IH]; simpl; [done|].
  rewrite IH. by rewrite andb_assoc.
Qed.

Lemma pretty_N_char_comma_free (x : N) :
  Ascii.eqb (pretty_N_char x) ","%char = false.
Proof. unfold pretty_N_char. by repeat case_match. Qed.

Lemma pretty_N_go_comma_free (x : N) (s : string) :
  comma_free s = true -> comma_free (pretty_N_go x s) = true.
Proof.
  revert s. induction (N.lt_wf_0 x) as [x _ IH]; intros s Hs.
  destruct (decide (x = 0)%N) as [->|Hx].
  - by rewrite pretty_N_go_0.
  - rewrite pretty_N_go_step by lia. apply IH.
    + apply N.div_lt; lia.
    + simpl. by rewrite pretty_N_char_comma_free, Hs.
Qed.

Lemma pretty_N_comma_free (x : N) : comma_free (pretty x) = true.
Proof.
  unfold pretty, pretty_N. case_decide; [done|].
  by apply pretty_N_go_comma_free.
Qed.

Lemma pretty_Z_comma_free (x : Z) : comma_free (pretty x) = true.
Proof.
  unfold pretty, pretty_Z. destruct x as [|p|p].
  - done.
  - apply pretty_N_comma_free.
  - rewrite comma_free_app. simpl. apply pretty_N_comma_free.
Qed.

(** Two strings split at their first comma in one way only. *)
Lemma comma_split_unique (a a' b b' : string) :
  comma_free a = true -> comma_free a' = true ->
  a +:+ "," +:+ b = a' +:+ "," +:+ b' -> a = a' /\ b = b'.
Proof.
  revert a'. induction a as [|c a IH]; intros [|c' a'] Ha Ha' Heq; simpl in *.
  - by injection Heq.
  - injection Heq as <- _. by rewrite Ascii.eqb_refl in Ha'.
  - injection Heq as -> _. by rewrite Ascii.eqb_refl in Ha.
  - injection Heq as -> Heq.
    apply andb_prop in Ha as [_ Ha]. apply andb_prop in Ha' as [_ Ha'].
    destruct (IH a' Ha Ha' Heq) as [-> ->]. done.
Qed.

(** The coordinate-to-key mapping is injective. *)
Lemma coordToKey_inj (c c' : HexCoord) :
  HexUtils.coordToKey c = HexUtils.coordToKey c' -> c = c'.
Proof.
  unfold HexUtils.coordToKey. intros Heq.
  apply comma_split_unique in Heq as [Hq Hr]; try apply pretty_Z_comma_free.
  apply (inj pretty) in Hq. apply (inj pretty) in Hr.
  destruct c, c'; simpl in *; congruence.
Qed.

(** ** [Map<string, V>] *)

Lemma JsMap_get_None {V} (m : JsMap.t V) (k : string) :
  JsMap.get m k = None <-> k ∉ JsMap.keys m.
Proof.
  induction m as [|[k' v] m IH]; simpl.
  - split; [intros _; apply not_elem_of_nil|done].
  - rewrite not_elem_of_cons. case_bool_decide; subst.
    + split; [done|]. intros [? _]. done.
    + rewrite IH. split; [intros; split; congruence|tauto].
Qed.

Lemma JsMap_get_Some {V} (m : JsMap.t V) (k : string) (v : V) :
  NoDup (JsMap.keys m) -> (k, v) ∈ m -> JsMap.get m k = Some v.
Proof.
  induction m as [|[k' v'] m IH]; simpl; intros Hnd Hin.
  - by apply elem_of_nil in Hin.
  - apply NoDup_cons in Hnd as [Hk' Hnd].
    apply elem_of_cons in Hin as [Heq|Hin].
    + injection Heq as <- <-. by rewrite bool_decide_eq_true_2.
    + case_bool_decide; subst.
      * exfalso. apply Hk'. unfold JsMap.keys.
        apply list_elem_of_fmap. by exists (k, v).
      * by apply IH.
Qed.

Lemma JsMap_get_elem_of {V} (m : JsMap.t V) (k : string) (v : V) :
  JsMap.get m k = Some v -> (k, v) ∈ m.
Proof.
  induction m as [|[k' v'] m IH]; simpl; [done|].
  case_bool_decide; subst.
  - intros [= ->]. left.
  - intros. right. by apply IH.
Qed.

Lemma JsMap_set_fresh {V} (m : JsMap.t V) (k : string) (v : V) :
  k ∉ JsMap.keys m -> JsMap.set m k v = m ++ [(k, v)].
Proof.
  induction m as [|[k' v'] m IH]; simpl; [done|].
  rewrite not_elem_of_cons. intros [Hne Hk].
  rewrite bool_decide_eq_false_2 by congruence. by rewrite IH.
Qed.

Lemma JsMap_get_set_eq {V} (m : JsMap.t V) (k : string) (v : V) :
  JsMap.get (JsMap.set m k v) k = Some v.
Proof.
  induction m as [|[k' v'] m IH]; simpl.
  - by rewrite bool_decide_eq_true_2.
  - case_bool_decide; simpl.
    + by rewrite bool_decide_eq_true_2.
    + by rewrite bool_decide_eq_false_2.
Qed.

Lemma JsMap_get_set_ne {V} (m : JsMap.t V) (k k' : string) (v : V) :
  k <> k' -> JsMap.get (JsMap.set m k v) k' = JsMap.get m k'.
Proof.
  intros Hne. induction m as [|[k0 v0] m IH]; simpl.
  - by rewrite bool_decide_eq_false_2.
  - case_bool_decide; simpl; subst.
    + by rewrite !bool_decide_eq_false_2.
    + case_bool_decide; [done|]. apply IH.
Qed.

(** [set] keeps the keys in place, adding a new key at the end. *)
Lemma JsMap_keys_set {V} (m : JsMap.t V) (k : string) (v : V) :
  JsMap.keys (JsMap.set m k v)
  = if bool_decide (k ∈ JsMap.keys m) then JsMap.keys m else JsMap.keys m ++ [k].
Proof.
  induction m as [|[k0 v0] m IH]; simpl; [done|].
  destruct (decide (k0 = k)) as [->|Hne].
  - rewrite (bool_decide_eq_true_2 (k = k)) by done. simpl.
    rewrite bool_decide_eq_true_2 by (apply elem_of_cons; by left). done.
  - rewrite (bool_decide_eq_false_2 (k0 = k)) by done. simpl.
    rewrite IH. destruct (decide (k ∈ JsMap.keys m)) as [Hin|Hin].
    + rewrite (bool_decide_eq_true_2 _ Hin).
      rewrite bool_decide_eq_true_2 by (apply elem_of_cons; by right). done.
    + rewrite (bool_decide_eq_false_2 _ Hin).
      rewrite bool_decide_eq_false_2; [done|].
      rewrite not_elem_of_cons. split; [congruence|done].
Qed.

Lemma JsMap_set_NoDup {V} (m : JsMap.t V) (k : string) (v : V) :
  NoDup (JsMap.keys m) -> NoDup (JsMap.keys (JsMap.set m k v)).
Proof.
  intros Hnd. rewrite JsMap_keys_set. case_bool_decide; [done|].
  apply NoDup_app. split_and!; [done| |apply NoDup_singleton].
  intros x Hx ->%list_elem_of_singleton. done.
Qed.

(** ** Loops *)

Lemma forOf_app {A S} (xs ys : list A) (body : S -> A -> M S) (s : S) (h : Heap) :
  forOf (xs ++ ys) body s h = bind (forOf xs body s) (forOf ys body) h.
Proof.
  revert s h. induction xs as [|x xs IH]; intros s h; simpl.
  - reflexivity.
  - unfold bind in *. destruct (body s x h) as [[s'|e] h']; [|reflexivity].
    apply IH.
Qed.

Lemma forOf_fmap {A B S} (g : A -> B) (xs : list A) (body : S -> B -> M S)
    (s : S) (h : Heap) :
  forOf (g <$> xs) body s h = forOf xs (fun s x => body s (g x)) s h.
Proof.
  revert s h. induction xs as [|x xs IH]; intros s h; simpl; [reflexivity|].
  unfold bind. destruct (body s (g x) h) as [[s'|e] h']; [apply IH|reflexivity].
Qed.

Lemma forOf_ext {A S} (xs : list A) (body1 body2 : S -> A -> M S) (s : S) (h : Heap) :
  (forall s x h, body1 s x h = body2 s x h) ->
  forOf xs body1 s h = forOf xs body2 s h.
Proof.
  intros Hext. revert s h. induction xs as [|x xs IH]; intros s h; simpl; [reflexivity|].
  unfold bind. rewrite Hext. destruct (body2 s x h) as [[s'|e] h']; [apply IH|reflexivity].
Qed.

(** ** Filling a map with new tiles *)

Lemma with_tiles_id (this : GameMap.t) :
  GameMap.with_tiles (GameMap.tiles this) this = this.
Proof. by destruct this. Qed.

Lemma fill_run (cs : list HexCoord) (this : GameMap.t) (h : Heap) :
  NoDup cs ->
  (forall c, c ∈ cs -> HexUtils.coordToKey c ∉ JsMap.keys (GameMap.tiles this)) ->
  forOf cs fillBody this h
  = (Normal (GameMap.with_tiles
               (GameMap.tiles this ++ newEntries (length (tileObjs h)) cs) this),
     mkHeap (tileObjs h ++ newTiles (length (setObjs h)) cs)
            (setObjs h ++ replicate (length cs) [])).
Proof.
  revert this h. induction cs as [|c cs IH]; intros this h Hnd Hfresh.
  - simpl. unfold ret, newEntries, newTiles. simpl.
    rewrite !app_nil_r, with_tiles_id. by destruct h.
  - apply NoDup_cons in Hnd as [Hc Hnd].
    simpl. unfold bind at 1. unfold fillBody at 1. unfold bind.
    rewrite Tile_new_run. unfold ret.
    rewrite JsMap_set_fresh by (apply Hfresh; left).
    rewrite IH; [|done|].
    + simpl. unfold newEntries, newTiles. rewrite !imap_cons.
      rewrite !length_app. simpl.
      rewrite <- !app_assoc. simpl.
      rewrite !Nat.add_0_r.
      rewrite (imap_ext (fun i c0 => (HexUtils.coordToKey c0, (length (tileObjs h) + 1 + i)%nat))
                 ((fun i c0 => (HexUtils.coordToKey c0, (length (tileObjs h) + i)%nat)) ∘ S))
        by (intros i x _; simpl; f_equal; lia).
      rewrite (imap_ext (fun i c0 => initialFields c0 (length (setObjs h) + 1 + i)%nat)
                 ((fun i c0 => initialFields c0 (length (setObjs h) + i)%nat) ∘ S))
        by (intros i x _; simpl; f_equal; lia).
      by destruct this.
    + intros c' Hc'. simpl. unfold JsMap.keys. rewrite fmap_app.
      rewrite elem_of_app. intros [Hin|Hin].
      * apply (Hfresh c'); [by right|done].
      * simpl in Hin. apply list_elem_of_singleton in Hin.
        apply coordToKey_inj in Hin. by subst.
Qed.

Lemma bind_Normal {A B} (c : M A) (k : A -> M B) (h : Heap) (a : A) (h' : Heap) :
  c h = (Normal a, h') -> bind c k h = k a h'.
Proof. unfold bind. by intros ->. Qed.

(** ** The region of a new map *)

Lemma elem_of_region (width height : Z) (c : HexCoord) :
  c ∈ region width height <-> inRegion width height c.
Proof.
  unfold region, inRegion. rewrite list_elem_of_bind. split.
  - intros (r0 & Hc & Hr0). apply list_elem_of_fmap in Hc as (q0 & -> & Hq0).
    apply elem_of_seqZ in Hr0. apply elem_of_seqZ in Hq0. simpl. lia.
  - intros [Hr Hq]. exists (r c). split.
    + apply list_elem_of_fmap. exists (q c). split; [by destruct c|].
      apply elem_of_seqZ. lia.
    + apply elem_of_seqZ. lia.
Qed.

Lemma NoDup_region (width height : Z) : NoDup (region width height).
Proof.
  unfold region. apply NoDup_bind.
  - intros r1 r2 c _ _ H1 H2.
    apply list_elem_of_fmap in H1 as (q1 & -> & _).
    apply list_elem_of_fmap in H2 as (q2 & [= _ ->] & _). done.
  - intros r0 _. apply NoDup_fmap_2; [|apply NoDup_seqZ].
    intros q1 q2 [= ->]. done.
  - apply NoDup_seqZ.
Qed.

(** ** [initializeEmptyMap] *)

Lemma fill_dims (cs : list HexCoord) (this : GameMap.t) (h : Heap) :
  exists tiles' h',
    forOf cs fillBody this h = (Normal (GameMap.with_tiles tiles' this), h').
Proof.
  revert this h. induction cs as [|c cs IH]; intros this h; simpl.
  - exists (GameMap.tiles this), h. unfold ret. by rewrite with_tiles_id.
  - unfold bind at 1. unfold fillBody at 1. unfold bind. rewrite Tile_new_run.
    unfold ret.
    edestruct IH as (tiles' & h' & ->). exists tiles', h'. by destruct this.
Qed.

Lemma initialize_rows (rs : list Z) (this : GameMap.t) (h : Heap) :
  forOf rs (fun this r =>
      let qOffset := r `div` 2 in
      forOf (seqZ (- qOffset) ((GameMap._width this - qOffset) - (- qOffset)))
        (fun this q =>
           let coord := mkHexCoord q r in
           bind (Tile.new coord) (fun tile =>
             ret (GameMap.with_tiles
                    (JsMap.set (GameMap.tiles this) (HexUtils.coordToKey coord) tile)
                    this)))
        this)
    this h
  = forOf (rs ≫= fun r => (fun q => mkHexCoord q r)
                             <$> seqZ (- (r `div` 2)) (GameMap._width this))
      fillBody this h.
Proof.
  revert this h. induction rs as [|r0 rs IH]; intros this h; [reflexivity|].
  change ((r0 :: rs) ≫= ?f) with (f r0 ++ (rs ≫= f)).
  rewrite forOf_app.
  destruct (fill_dims ((fun q => mkHexCoord q r0)
                         <$> seqZ (- (r0 `div` 2)) (GameMap._width this)) this h)
    as (tiles' & h' & Hrun).
  rewrite (bind_Normal _ _ _ _ _ Hrun).
  cbn [forOf].
  rewrite (bind_Normal _ _ h (GameMap.with_tiles tiles' this) h').
  - rewrite IH. reflexivity.
  - cbv zeta.
    replace (GameMap._width this - r0 `div` 2 - - (r0 `div` 2))
      with (GameMap._width this) by lia.
    rewrite forOf_fmap in Hrun. exact Hrun.
Qed.

Lemma GameMap_new_run (width height : Z) (name : string) (h : Heap) :
  GameMap.new width height name h
  = (Normal (GameMap.mk (newEntries (length (tileObjs h)) (region width height))
               width height name),
     mkHeap (tileObjs h ++ newTiles (length (setObjs h)) (region width height))
            (setObjs h ++ replicate (length (region width height)) [])).
Proof.
  unfold GameMap.new, GameMap.initializeEmptyMap. simpl GameMap._height.
  rewrite Z.sub_0_r. rewrite initialize_rows. simpl GameMap._width.
  fold (region width height).
  rewrite fill_run; [reflexivity|apply NoDup_region|].
  intros c _. simpl. apply not_elem_of_nil.
Qed.

Lemma map_fmap {A B} (f : A -> B) (l : list A) : map f l = f <$> l.
Proof. induction l as [|x l IH]; simpl; [done|]. by rewrite IH. Qed.

Lemma newEntries_keys (n0 : nat) (cs : list HexCoord) :
  JsMap.keys (newEntries n0 cs) = HexUtils.coordToKey <$> cs.
Proof.
  unfold JsMap.keys, newEntries. rewrite map_fmap, fmap_imap.
  rewrite <- imap_const. by apply imap_ext.
Qed.

Lemma newEntries_values (n0 : nat) (cs : list HexCoord) :
  JsMap.values (newEntries n0 cs) = seq n0 (length cs).
Proof.
  unfold JsMap.values, newEntries. rewrite map_fmap, fmap_imap.
  rewrite <- (list_fmap_id (seq n0 (length cs))). rewrite <- imap_seq.
  by apply imap_ext.
Qed.

Lemma newEntries_get (n0 : nat) (cs : list HexCoord) (c : HexCoord) (i : nat) :
  NoDup cs -> cs !! i = Some c ->
  JsMap.get (newEntries n0 cs) (HexUtils.coordToKey c) = Some (n0 + i)%nat.
Proof.
  intros Hnd Hi. apply JsMap_get_Some.
  - rewrite newEntries_keys. apply NoDup_fmap_2; [|done].
    intros c1 c2. apply coordToKey_inj.
  - unfold newEntries.
    apply (elem_of_lookup_imap_2
             (fun i c => (HexUtils.coordToKey c, (n0 + i)%nat)) cs c i Hi).
Qed.

Lemma newEntries_get_None (n0 : nat) (cs : list HexCoord) (c : HexCoord) :
  c ∉ cs -> JsMap.get (newEntries n0 cs) (HexUtils.coordToKey c) = None.
Proof.
  intros Hc. apply JsMap_get_None. rewrite newEntries_keys.
  intros Hin. apply list_elem_of_fmap in Hin as (c' & Heq & Hin).
  apply coordToKey_inj in Heq. by subst.
Qed.

(** C8.  For every width and height, [new GameMap(width, height, name)]
    completes normally.  The entries of the map it returns are, in order,
    the coordinates of the region -- row [r] of [[0, height)], column [q]
    of [[-floor(r/2), width - floor(r/2))], each once -- and their tiles
    are distinct, newly allocated objects.  Looking up a coordinate of the
    region finds a tile that serializes as Grass, Flat and nothing else;
    looking up any other coordinate finds no tile. *)
Theorem C8_new_map_covers_region (width height : Z) (name : string) (h : Heap) :
  let run := GameMap.new width height name in
  let h' := finalHeap run h in
  exists m,
    completion run h = Normal m
    /\ heap_extends h h'
    /\ JsMap.keys (GameMap.tiles m) = HexUtils.coordToKey <$> region width height
    /\ GameMap.getAllTiles m
       = seq (length (tileObjs h)) (length (region width height))
    /\ NoDup (region width height)
    /\ (forall c, c ∈ region width height <-> inRegion width height c)
    /\ (forall c, inRegion width height c ->
          exists l, GameMap.getTile m c = Some l
                    /\ Tile.toJSON h' l = defaultData c)
    /\ (forall c, ~ inRegion width height c -> GameMap.getTile m c = None).
Proof.
  intros run h'. unfold completion, h', finalHeap, run.
  rewrite GameMap_new_run. simpl. eexists. split; [reflexivity|].
  pose proof (NoDup_region width height) as Hnd.
  split_and!.
  - apply heap_extends_app.
  - apply newEntries_keys.
  - apply newEntries_values.
  - exact Hnd.
  - apply elem_of_region.
  - intros c Hc. apply elem_of_region in Hc.
    apply list_elem_of_lookup in Hc as [i Hi].
    exists (length (tileObjs h) + i)%nat. split.
    + unfold GameMap.getTile. simpl. by apply newEntries_get.
    + assert (tileAt (mkHeap (tileObjs h ++ newTiles (length (setObjs h)) (region width height))
                  (setObjs h ++ replicate (length (region width height)) []))
                (length (tileObjs h) + i)
              = initialFields c (length (setObjs h) + i)) as Htile.
      { apply tileAt_lookup. simpl. rewrite lookup_app_r by lia.
        replace (length (tileObjs h) + i - length (tileObjs h))%nat with i by lia.
        unfold newTiles. rewrite list_lookup_imap, Hi. reflexivity. }
      unfold Tile.toJSON. rewrite Htile. unfold defaultData. simpl. f_equal.
      unfold JsSet.values. apply setAt_lookup. simpl.
      rewrite lookup_app_r by lia.
      replace (length (setObjs h) + i - length (setObjs h))%nat with i by lia.
      apply lookup_replicate_2. by apply lookup_lt_Some in Hi.
  - intros c Hc. unfold GameMap.getTile. simpl. apply newEntries_get_None.
    by rewrite elem_of_region.
Qed.

(** ** Loading a snapshot *)

Lemma loadBody_run (this : GameMap.t) (d : TileData.t) (h : Heap) :
  loadBody this d h
  = (Normal (GameMap.with_tiles
               (JsMap.set (GameMap.tiles this)
                  (HexUtils.coordToKey (TileData.coord d)) (length (tileObjs h)))
               this),
     mkHeap (tileObjs h ++ [fieldsOfData d (S (length (setObjs h)))])
            (setObjs h ++ [[]; foldl (fun s x => JsSet.add_elem x s) []
                                 (TileData.riverEdges d)])).
Proof.
  unfold loadBody.
  rewrite (bind_Normal _ _ _ _ _ (Tile_fromJSON_run d h)).
  unfold bind, gets, ret. unfold tileAt. simpl.
  rewrite lookup_app_r by lia. rewrite Nat.sub_diag. reflexivity.
Qed.

Lemma load_run (ds : list TileData.t) (this : GameMap.t) (h : Heap) :
  forOf ds loadBody this h
  = (Normal (GameMap.with_tiles
               (loadEntries (length (tileObjs h)) ds (GameMap.tiles this)) this),
     mkHeap (tileObjs h ++ loadedTiles (length (setObjs h)) ds)
            (setObjs h ++ loadedSets ds)).
Proof.
  revert this h. induction ds as [|d ds IH]; intros this h.
  - simpl. unfold ret, loadedTiles, loadedSets. simpl.
    rewrite !app_nil_r, with_tiles_id. by destruct h.
  - cbn [forOf]. rewrite (bind_Normal _ _ _ _ _ (loadBody_run this d h)).
    rewrite IH. simpl. unfold loadedTiles, loadedSets.
    rewrite imap_cons. rewrite !length_app. simpl.
    rewrite <- !app_assoc. simpl. rewrite !Nat.add_0_r.
    rewrite Nat.add_1_r.
    rewrite (imap_ext (fun i d0 => fieldsOfData d0 (S (length (setObjs h) + 2 + (i + (i + 0)))))
               ((fun i d0 => fieldsOfData d0 (S (length (setObjs h) + (i + (i + 0))))) ∘ S))
      by (intros i x _; simpl; f_equal; lia).
    by destruct this.
Qed.

Lemma GameMap_fromJSON_run (data : GameMapData.t) (h : Heap) :
  let n := length (region (GameMapData.width data) (GameMapData.height data)) in
  GameMap.fromJSON data h
  = (Normal (GameMap.mk
               (loadEntries (length (tileObjs h) + n) (GameMapData.tiles data) [])
               (GameMapData.width data) (GameMapData.height data)
               (GameMapData.name data)),
     mkHeap ((tileObjs h ++ newTiles (length (setObjs h))
                              (region (GameMapData.width data) (GameMapData.height data)))
             ++ loadedTiles (length (setObjs h) + n) (GameMapData.tiles data))
            ((setObjs h ++ replicate n []) ++ loadedSets (GameMapData.tiles data))).
Proof.
  intros n. unfold GameMap.fromJSON.
  rewrite (bind_Normal _ _ _ _ _ (GameMap_new_run _ _ _ h)).
  change (forOf (GameMapData.tiles data) ?b ?s ?hh)
    with (forOf (GameMapData.tiles data) loadBody s hh).
  rewrite load_run. simpl.
  unfold newTiles at 1. rewrite !length_app, length_imap, length_replicate.
  reflexivity.
Qed.

Lemma loadedSets_lookup (ds : list TileData.t) (i : nat) (d : TileData.t) :
  ds !! i = Some d ->
  loadedSets ds !! S (2 * i)
  = Some (foldl (fun s x => JsSet.add_elem x s) [] (TileData.riverEdges d)).
Proof.
  revert i. induction ds as [|d0 ds IH]; intros i Hi; [done|].
  destruct i as [|i]; simpl in Hi.
  - injection Hi as ->. reflexivity.
  - replace (S (2 * S i)) with (S (S (S (2 * i)))) by lia.
    change (loadedSets (d0 :: ds)) with ([] :: foldl (fun s x => JsSet.add_elem x s) []
      (TileData.riverEdges d0) :: loadedSets ds).
    simpl. by apply IH.
Qed.

Lemma loaded_toJSON (T : list TileFields) (S0 : list (list Z))
    (ds : list TileData.t) (i : nat) (d : TileData.t) :
  ds !! i = Some d ->
  Tile.toJSON (mkHeap (T ++ loadedTiles (length S0) ds) (S0 ++ loadedSets ds))
    (length T + i)
  = reloaded d.
Proof.
  intros Hi.
  assert (tileAt (mkHeap (T ++ loadedTiles (length S0) ds) (S0 ++ loadedSets ds))
            (length T + i)
          = fieldsOfData d (S (length S0 + 2 * i))) as Htile.
  { apply tileAt_lookup. simpl. rewrite lookup_app_r by lia.
    replace (length T + i - length T)%nat with i by lia.
    unfold loadedTiles. rewrite list_lookup_imap, Hi. reflexivity. }
  unfold Tile.toJSON. rewrite Htile. unfold reloaded. simpl. f_equal.
  unfold JsSet.values. apply setAt_lookup. simpl.
  rewrite lookup_app_r by lia.
  replace (S (length S0 + (i + (i + 0))) - length S0)%nat with (S (2 * i)) by lia.
  by apply loadedSets_lookup.
Qed.

Lemma JsMap_get_set {V} (m : JsMap.t V) (k k' : string) (v : V) :
  JsMap.get (JsMap.set m k v) k'
  = if bool_decide (k = k') then Some v else JsMap.get m k'.
Proof.
  case_bool_decide; subst.
  - apply JsMap_get_set_eq.
  - by apply JsMap_get_set_ne.
Qed.

(** Loading: the last entry with a given coordinate wins. *)
Lemma loadEntries_get (ds : list TileData.t) (n : nat) (acc : JsMap.t loc)
    (c : HexCoord) :
  JsMap.get (loadEntries n ds acc) (HexUtils.coordToKey c)
  = match lastLoaded c ds n with
    | Some j => Some j
    | None => JsMap.get acc (HexUtils.coordToKey c)
    end.
Proof.
  revert n acc. induction ds as [|d ds IH]; intros n acc; simpl; [done|].
  rewrite IH. destruct (lastLoaded c ds (S n)); [done|].
  rewrite JsMap_get_set.
  destruct (decide (TileData.coord d = c)) as [->|Hne].
  - by rewrite !bool_decide_eq_true_2.
  - rewrite (bool_decide_eq_false_2 (TileData.coord d = c)) by done.
    rewrite bool_decide_eq_false_2; [done|].
    intros Heq. by apply coordToKey_inj in Heq.
Qed.

Lemma lastLoaded_Some (c : HexCoord) (ds : list TileData.t) (n j : nat) :
  lastLoaded c ds n = Some j ->
  exists i d, j = (n + i)%nat /\ ds !! i = Some d /\ TileData.coord d = c.
Proof.
  revert n. induction ds as [|d ds IH]; intros n; simpl; [done|].
  destruct (lastLoaded c ds (S n)) as [j'|] eqn:E.
  - intros [= <-]. destruct (IH _ E) as (i & d' & -> & Hi & Hc).
    exists (S i), d'. split_and!; [lia|done|done].
  - case_bool_decide; [|done]. intros [= <-].
    exists 0%nat, d. split_and!; [lia|done|done].
Qed.

Lemma lastLoaded_None (c : HexCoord) (ds : list TileData.t) (n : nat) :
  lastLoaded c ds n = None <-> Forall (fun d => TileData.coord d <> c) ds.
Proof.
  revert n. induction ds as [|d ds IH]; intros n; simpl.
  - split; [by constructor|done].
  - rewrite Forall_cons. rewrite <- (IH (S n)).
    destruct (lastLoaded c ds (S n)) as [j'|] eqn:E.
    + split; [done|]. intros [_ ?]. done.
    + case_bool_decide; split; try done; try tauto.
Qed.



(** ** Deserialization does not validate *)

Lemma version_2_ne_1 : GameMapData.version snapshotV2 <> 1.
Proof. discriminate. Qed.

(** C6 does not hold as the specification states it.  A snapshot whose
    version is 2, hence not a well-formed version-1 snapshot, loads all the
    same: [fromJSON] completes normally, into a grid that holds the listed
    tile. *)
Lemma C6_version_2_snapshot_loads :
  GameMapData.version snapshotV2 <> 1
  /\ exists m,
       completion (GameMap.fromJSON snapshotV2) emptyHeap = Normal m
       /\ GameMap.getTile m (mkHexCoord 0 0) = Some 1%nat
       /\ Tile.toJSON (finalHeap (GameMap.fromJSON snapshotV2) emptyHeap) 1%nat
          = defaultData (mkHexCoord 0 0).
Proof.
  split; [apply version_2_ne_1|].
  eexists. split_and!; reflexivity.
Qed.

(** C6, as amended.  [fromJSON] checks nothing: for every snapshot of the
    declared shape, whatever its version, it completes normally and only
    allocates; the version is not read; the grid it returns has the
    snapshot's width, height and name and holds a tile exactly at the listed
    coordinates, each built from a listed entry with that coordinate. *)
Theorem C6_fromJSON_loads_every_snapshot (data : GameMapData.t) (h : Heap) :
  let run := GameMap.fromJSON data in
  let h' := finalHeap run h in
  exists m,
    completion run h = Normal m
    /\ heap_extends h h'
    /\ GameMap._width m = GameMapData.width data
    /\ GameMap._height m = GameMapData.height data
    /\ GameMap._name m = GameMapData.name data
    /\ (forall v, GameMap.fromJSON (with_version v data) h = GameMap.fromJSON data h)
    /\ (forall c, GameMap.getTile m c = None
                  <-> Forall (fun d => TileData.coord d <> c) (GameMapData.tiles data))
    /\ (forall c l, GameMap.getTile m c = Some l ->
          exists d, d ∈ GameMapData.tiles data
                    /\ TileData.coord d = c
                    /\ Tile.toJSON h' l = reloaded d).
Proof.
  intros run h'. unfold completion, h', finalHeap, run.
  rewrite GameMap_fromJSON_run. cbn [fst snd]. eexists. split; [reflexivity|].
  split_and!; try reflexivity.
  - split; simpl.
    + rewrite <- app_assoc. by apply prefix_app_r.
    + rewrite <- app_assoc. by apply prefix_app_r.
  - intros v. rewrite (GameMap_fromJSON_run (with_version v data)). reflexivity.
  - intros c. unfold GameMap.getTile. cbn [GameMap.tiles].
    rewrite loadEntries_get. rewrite <- (lastLoaded_None c _
      (length (tileObjs h)
       + length (region (GameMapData.width data) (GameMapData.height data)))).
    destruct (lastLoaded c _ _); simpl; split; done.
  - intros c l. unfold GameMap.getTile. cbn [GameMap.tiles].
    rewrite loadEntries_get.
    destruct (lastLoaded c _ _) as [j|] eqn:E; [|done].
    intros [= <-]. apply lastLoaded_Some in E as (i & d & -> & Hi & Hc).
    exists d. split_and!; [by eapply list_elem_of_lookup_2|done|].
    pose proof (loaded_toJSON
      (tileObjs h ++ newTiles (length (setObjs h))
         (region (GameMapData.width data) (GameMapData.height data)))
      (setObjs h ++ replicate
         (length (region (GameMapData.width data) (GameMapData.height data))) [])
      (GameMapData.tiles data) i d Hi) as Hj.
    unfold newTiles in Hj at 2.
    rewrite !length_app, length_imap, length_replicate in Hj. exact Hj.
Qed.

(** ** Serialization round trip *)


(** If the river edges are listed without repetition, as the values of a set
    are, reloading gives the same serialized tile. *)
Lemma reloaded_NoDup (d : TileData.t) :
  NoDup (TileData.riverEdges d) -> reloaded d = d.
Proof.
  intros Hnd. unfold reloaded. rewrite of_list_id by done. by destruct d.
Qed.




(** ** What the engine reads *)

Lemma foldl_ext_Forall {A B} (f g : A -> B -> A) (P : B -> Prop) (l : list B) (a : A) :
  Forall P l -> (forall a x, P x -> f a x = g a x) -> foldl f a l = foldl g a l.
Proof.
  intros Hl Hfg. revert a. induction Hl as [|x l Hx _ IH]; intros a; simpl; [done|].
  rewrite (Hfg a x Hx). apply IH.
Qed.

(** Rewrites the counting loop over the neighbours read in [h1] into the
    same loop read in [h2]. *)
Ltac loop_congr h1 h2 Hns :=
  match goal with
  | |- context [foldl ?f ?i ?ns] =>
      match f with
      | context [h1] =>
          let F := eval pattern h1 in f in
          match F with
          | ?G _ =>
              rewrite (foldl_ext_Forall f (G h2) _ ns i Hns);
              [|let a := fresh "a" in let x := fresh "x" in let Hx := fresh "Hx" in
                intros a x Hx; cbv beta;
                repeat match goal with p : (_ * _)%type |- _ => destruct p end;
                unfold Tile.isMountain, Tile.feature, Tile.hasDistrict, Tile.district,
                  Tile.hasNaturalWonder, Tile.hasWonder, Tile.isWater, Tile.resource,
                  Tile.improvement;
                rewrite Hx; reflexivity]
          end
      end
  end.

Lemma helpers_congr (h1 h2 : Heap) (t1 t2 : loc) (ns : list loc)
    (bonuses : list AdjacencyBonus) :
  Forall (fun n => tileAt h1 n = tileAt h2 n) ns ->
  Tile.hasRiver h1 t1 = Tile.hasRiver h2 t2 ->
  AdjacencyEngine.calculateCampusAdjacency h1 t1 ns bonuses
  = AdjacencyEngine.calculateCampusAdjacency h2 t2 ns bonuses
  /\ AdjacencyEngine.calculateHolySiteAdjacency h1 t1 ns bonuses
     = AdjacencyEngine.calculateHolySiteAdjacency h2 t2 ns bonuses
  /\ AdjacencyEngine.calculateTheaterSquareAdjacency h1 t1 ns bonuses
     = AdjacencyEngine.calculateTheaterSquareAdjacency h2 t2 ns bonuses
  /\ AdjacencyEngine.calculateCommercialHubAdjacency h1 t1 ns bonuses
     = AdjacencyEngine.calculateCommercialHubAdjacency h2 t2 ns bonuses
  /\ AdjacencyEngine.calculateHarborAdjacency h1 t1 ns bonuses
     = AdjacencyEngine.calculateHarborAdjacency h2 t2 ns bonuses
  /\ AdjacencyEngine.calculateIndustrialZoneAdjacency h1 t1 ns bonuses
     = AdjacencyEngine.calculateIndustrialZoneAdjacency h2 t2 ns bonuses.
Proof.
  intros Hns Hriver. split_and!.
  - unfold AdjacencyEngine.calculateCampusAdjacency. loop_congr h1 h2 Hns. reflexivity.
  - unfold AdjacencyEngine.calculateHolySiteAdjacency. loop_congr h1 h2 Hns. reflexivity.
  - unfold AdjacencyEngine.calculateTheaterSquareAdjacency. loop_congr h1 h2 Hns. reflexivity.
  - unfold AdjacencyEngine.calculateCommercialHubAdjacency. rewrite Hriver.
    loop_congr h1 h2 Hns. reflexivity.
  - unfold AdjacencyEngine.calculateHarborAdjacency. loop_congr h1 h2 Hns. reflexivity.
  - unfold AdjacencyEngine.calculateIndustrialZoneAdjacency. loop_congr h1 h2 Hns. reflexivity.
Qed.

Lemma getTile_in_tiles (m : GameMap.t) (c : HexCoord) (l : loc) :
  GameMap.getTile m c = Some l -> l ∈ GameMap.getAllTiles m.
Proof.
  unfold GameMap.getTile, GameMap.getAllTiles, JsMap.values. intros Hget.
  apply JsMap_get_elem_of in Hget. rewrite map_fmap.
  apply list_elem_of_fmap. by exists (HexUtils.coordToKey c, l).
Qed.

Lemma getNeighborTiles_in_tiles (m : GameMap.t) (c : HexCoord) :
  Forall (fun n => n ∈ GameMap.getAllTiles m) (GameMap.getNeighborTiles m c).
Proof.
  apply Forall_forall. intros n Hn. unfold GameMap.getNeighborTiles in Hn.
  apply list_elem_of_omap in Hn as (c' & _ & Hget). by eapply getTile_in_tiles.
Qed.

Lemma getTilesInRange_in_tiles (m : GameMap.t) (c : HexCoord) (range : Z) :
  Forall (fun n => n ∈ GameMap.getAllTiles m) (GameMap.getTilesInRange m c range).
Proof.
  apply Forall_forall. intros n Hn. unfold GameMap.getTilesInRange in Hn.
  apply list_elem_of_omap in Hn as (c' & _ & Hget). by eapply getTile_in_tiles.
Qed.

(** The bonuses of a district tile depend on the store only through the
    tile's coordinate, district and river, and the fields of the grid's
    tiles. *)
Lemma calculateDistrictAdjacency_congr (h1 h2 : Heap) (m : GameMap.t) (t1 t2 : loc) :
  Forall (fun n => tileAt h1 n = tileAt h2 n) (GameMap.getAllTiles m) ->
  coord (tileAt h1 t1) = coord (tileAt h2 t2) ->
  Tile.district h1 t1 = Tile.district h2 t2 ->
  Tile.hasRiver h1 t1 = Tile.hasRiver h2 t2 ->
  DistrictAdjacencyResult.bonusBreakdown (AdjacencyEngine.calculateDistrictAdjacency h1 m t1)
  = DistrictAdjacencyResult.bonusBreakdown (AdjacencyEngine.calculateDistrictAdjacency h2 m t2)
  /\ DistrictAdjacencyResult.totalBonus (AdjacencyEngine.calculateDistrictAdjacency h1 m t1)
     = DistrictAdjacencyResult.totalBonus (AdjacencyEngine.calculateDistrictAdjacency h2 m t2).
Proof.
  intros Hm Hc Hd Hr.
  assert (Forall (fun n => tileAt h1 n = tileAt h2 n)
            (GameMap.getNeighborTiles m (coord (tileAt h2 t2)))) as Hns.
  { rewrite Forall_forall in Hm. apply Forall_forall. intros n Hn. apply Hm.
    pose proof (getNeighborTiles_in_tiles m (coord (tileAt h2 t2))) as Hall.
    rewrite Forall_forall in Hall. by apply Hall. }
  assert (DistrictAdjacencyResult.bonusBreakdown
            (AdjacencyEngine.calculateDistrictAdjacency h1 m t1)
          = DistrictAdjacencyResult.bonusBreakdown
              (AdjacencyEngine.calculateDistrictAdjacency h2 m t2)) as Hb.
  { unfold AdjacencyEngine.calculateDistrictAdjacency. cbn [DistrictAdjacencyResult.bonusBreakdown].
    rewrite Hc, Hd.
    destruct (helpers_congr h1 h2 t1 t2 _ [] Hns Hr) as (-> & -> & -> & -> & -> & ->).
    assert (existsb (fun n => Tile.district h1 n === DistrictType.GOVERNMENT_PLAZA)
              (GameMap.getNeighborTiles m (coord (tileAt h2 t2)))
            = existsb (fun n => Tile.district h2 n === DistrictType.GOVERNMENT_PLAZA)
                (GameMap.getNeighborTiles m (coord (tileAt h2 t2)))) as ->.
    { induction Hns as [|n ns Hn _ IH]; simpl; [done|].
      rewrite IH. unfold Tile.district. by rewrite Hn. }
    reflexivity. }
  split; [exact Hb|].
  unfold AdjacencyEngine.calculateDistrictAdjacency in *.
  cbn [DistrictAdjacencyResult.bonusBreakdown DistrictAdjacencyResult.totalBonus] in *.
  by rewrite Hb.
Qed.

(** ** The placement search *)

Lemma tileAt_last (ts : list TileFields) (ss : list (list Z)) (t : TileFields) :
  tileAt (mkHeap (ts ++ [t]) ss) (length ts) = t.
Proof.
  apply tileAt_lookup. simpl. rewrite lookup_app_r by lia.
  by rewrite Nat.sub_diag.
Qed.

Lemma setAt_second (ts : list TileFields) (ss : list (list Z)) (a b : list Z) :
  setAt (mkHeap ts (ss ++ [a; b])) (S (length ss)) = b.
Proof.
  apply setAt_lookup. simpl. rewrite lookup_app_r by lia.
  by replace (S (length ss) - length ss)%nat with 1%nat by lia.
Qed.

Lemma keyed_getTile (h : Heap) (m : GameMap.t) (tile : loc) :
  map_keyed h m -> tile ∈ GameMap.getAllTiles m ->
  GameMap.getTile m (coord (tileAt h tile)) = Some tile.
Proof.
  intros [Hnd Hk] Hin. unfold GameMap.getAllTiles, JsMap.values in Hin.
  rewrite map_fmap in Hin. apply list_elem_of_fmap in Hin as ([k l] & -> & Hin).
  simpl. unfold GameMap.getTile. rewrite Forall_forall in Hk.
  specialize (Hk _ Hin). simpl in Hk. rewrite <- Hk. by apply JsMap_get_Some.
Qed.

Lemma getTile_keyed_coord (h : Heap) (m : GameMap.t) (c : HexCoord) (tile : loc) :
  map_keyed h m -> GameMap.getTile m c = Some tile -> coord (tileAt h tile) = c.
Proof.
  intros [Hnd Hk] Hget. unfold GameMap.getTile in Hget.
  apply JsMap_get_elem_of in Hget. rewrite Forall_forall in Hk.
  specialize (Hk _ Hget). simpl in Hk. apply coordToKey_inj in Hk. done.
Qed.

(** The temporary tile of a hypothetical placement, whatever the later
    store in which it is built, has the same coordinate, district and river
    as the one built in the store [h]. *)
Lemma potential_stable (h hi : Heap) (m : GameMap.t) (dt : DistrictType.t) (tile : loc) :
  map_keyed h m -> map_allocated h m -> heap_extends h hi ->
  tile ∈ GameMap.getAllTiles m ->
  exists res hi',
    AdjacencyEngine.calculatePotentialAdjacency m (coord (tileAt hi tile)) dt hi
    = (Normal (Some res), hi')
    /\ heap_extends hi hi'
    /\ coord (tileAt hi tile) = coord (tileAt h tile)
    /\ primaryTotal dt res = potentialScore h m dt tile.
Proof.
  intros Hkeyed Halloc Hext Hin.
  assert (allocated h tile) as Htile.
  { unfold map_allocated in Halloc. rewrite Forall_forall in Halloc. by apply Halloc. }
  assert (coord (tileAt hi tile) = coord (tileAt h tile)) as Hcoord.
  { by rewrite (heap_extends_tileAt h hi tile Hext (proj1 Htile)). }
  pose proof (keyed_getTile h m tile Hkeyed Hin) as Hget.
  rewrite Hcoord. rewrite calculatePotentialAdjacency_run, Hget.
  eexists _, _. split; [reflexivity|]. split_and!.
  - apply Tile_fromJSON_extends.
  - reflexivity.
  - unfold potentialScore, completion.
    rewrite calculatePotentialAdjacency_run, Hget. cbn [fst].
    unfold primaryTotal. destruct (DistrictInfo.primaryYieldType (DISTRICT_DATA dt)); [|done].
    f_equal.
    unfold finalHeap. rewrite !Tile_fromJSON_run. cbn [snd].
    rewrite (heap_extends_toJSON h hi tile Hext Htile).
    apply calculateDistrictAdjacency_congr.
    + unfold map_allocated in Halloc. eapply Forall_impl; [exact Halloc|].
      intros n [Hn _]. destruct (heap_extends_length h hi Hext) as [Hlen _].
      unfold tileAt. simpl. rewrite !lookup_app_l by lia.
      destruct Hext as [[k ->] _]. by rewrite lookup_app_l.
    + by rewrite !tileAt_last.
    + unfold Tile.district. by rewrite !tileAt_last.
    + unfold Tile.hasRiver, JsSet.size. rewrite !tileAt_last. simpl.
      by rewrite !setAt_second.
Qed.


Lemma searchBody_run (h hi : Heap) (m : GameMap.t) (dt : DistrictType.t) (tile : loc)
    (bestResult : option (HexCoord * DistrictAdjacencyResult.t)) (bestTotal : ExtNumber) :
  map_keyed h m -> map_allocated h m -> heap_extends h hi ->
  tile ∈ GameMap.getAllTiles m ->
  exists res hi',
    searchBody m dt (bestResult, bestTotal) tile hi
    = (Normal (if gt_ext (potentialScore h m dt tile) bestTotal
               then (Some (coord (tileAt h tile), res),
                     Finite (potentialScore h m dt tile))
               else (bestResult, bestTotal)),
       hi')
    /\ heap_extends hi hi'
    /\ primaryTotal dt res = potentialScore h m dt tile.
Proof.
  intros Hkeyed Halloc Hext Hin.
  destruct (potential_stable h hi m dt tile Hkeyed Halloc Hext Hin)
    as (res & hi' & Hrun & Hext' & Hcoord & Hscore).
  exists res, hi'. split_and!; [|done|done].
  unfold searchBody. unfold bind at 1. unfold gets at 1.
  rewrite (bind_Normal _ _ _ _ _ Hrun).
  unfold primaryTotal in Hscore. rewrite Hscore, Hcoord.
  by destruct (gt_ext _ _).
Qed.

Lemma search_loop (h : Heap) (m : GameMap.t) (dt : DistrictType.t)
    (todo visited : list loc)
    (best : option (HexCoord * DistrictAdjacencyResult.t) * ExtNumber) (hi : Heap) :
  map_keyed h m -> map_allocated h m -> heap_extends h hi ->
  Forall (fun t => t ∈ GameMap.getAllTiles m) todo ->
  searchInv h m dt visited best ->
  exists best' hf,
    forOf todo (searchBody m dt) best hi = (Normal best', hf)
    /\ heap_extends h hf
    /\ searchInv h m dt (visited ++ todo) best'.
Proof.
  intros Hkeyed Halloc. revert visited best hi.
  induction todo as [|x todo IH]; intros visited best hi Hext Htodo Hinv.
  - exists best, hi. rewrite app_nil_r. done.
  - apply Forall_cons in Htodo as [Hx Htodo].
    destruct best as [bestResult bestTotal].
    destruct (searchBody_run h hi m dt x bestResult bestTotal Hkeyed Halloc Hext Hx)
      as (res & hi' & Hrun & Hext' & Hscore).
    cbn [forOf]. rewrite (bind_Normal _ _ _ _ _ Hrun).
    replace (visited ++ x :: todo) with ((visited ++ [x]) ++ todo)
      by (by rewrite <- app_assoc).
    apply IH; [by etrans|done|].
    unfold searchInv in *. simpl in Hinv.
    destruct bestResult as [[c0 res0]|].
    + destruct Hinv as (pre & tile & post & -> & -> & -> & Hres0 & Hpre & Hpost).
      simpl. destruct (Z.ltb_spec (potentialScore h m dt tile) (potentialScore h m dt x)).
      * simpl. exists (pre ++ tile :: post), x, []. split_and!; try done.
        apply Forall_app. split; [|apply Forall_cons; split].
        -- eapply Forall_impl; [exact Hpre|]. simpl. intros; lia.
        -- done.
        -- eapply Forall_impl; [exact Hpost|]. simpl. intros; lia.
      * simpl. exists pre, tile, (post ++ [x]). split_and!; try done.
        -- by rewrite <- app_assoc.
        -- apply Forall_app. split; [done|]. by apply Forall_singleton.
    + destruct Hinv as [-> ->]. simpl.
      exists [], x, []. split_and!; done.
Qed.

Lemma bind_gets {A B} (f : Heap -> A) (k : A -> M B) (h : Heap) :
  bind (gets f) k h = k (f h) h.
Proof. reflexivity. Qed.

Lemma bind_congr {A B} (c c' : M A) (k : A -> M B) (h : Heap) :
  c h = c' h -> bind c k h = bind c' k h.
Proof. unfold bind. by intros ->. Qed.

Lemma findBestDistrictPlacement_run (h : Heap) (m : GameMap.t) (cityCenter : HexCoord)
    (dt : DistrictType.t) :
  AdjacencyEngine.findBestDistrictPlacement m cityCenter dt h
  = bind (forOf (candidates h m cityCenter dt) (searchBody m dt) (None, NegInfinity))
         (fun best => ret best.1) h.
Proof.
  unfold AdjacencyEngine.findBestDistrictPlacement.
  rewrite bind_gets. fold (candidates h m cityCenter dt).
  apply bind_congr. apply forOf_ext.
  intros [bestResult bestTotal] x h0. reflexivity.
Qed.




(** ** Reachable grids are keyed and allocated *)

#[local] Instance same_shape_refl : Reflexive same_shape.
Proof. intros h. unfold same_shape. split_and!; done. Qed.

#[local] Instance same_shape_trans : Transitive same_shape.
Proof.
  intros h1 h2 h3 (Ht & Hs & Hl) (Ht' & Hs' & Hl'). unfold same_shape.
  split_and!; [congruence|congruence|].
  intros l. destruct (Hl l), (Hl' l). split; congruence.
Qed.

Lemma same_shape_alterTile (f : TileFields -> TileFields) (this : loc)
    (ts : list TileFields) (ss : list (list Z)) :
  (forall t, coord (f t) = coord t /\ _riverEdges (f t) = _riverEdges t) ->
  same_shape (mkHeap ts ss) (mkHeap (alter f this ts) ss).
Proof.
  intros Hf. unfold same_shape. simpl. rewrite length_alter. split_and!; [done|done|].
  intros l. rewrite tileAt_alter. case_decide; [apply Hf|done].
Qed.

Lemma same_shape_alterSet (f : list Z -> list Z) (this : loc)
    (ts : list TileFields) (ss : list (list Z)) :
  same_shape (mkHeap ts ss) (mkHeap ts (alter f this ss)).
Proof.
  unfold same_shape. simpl. rewrite length_alter. split_and!; done.
Qed.

Ltac shape_chain :=
  repeat (etrans; [|apply same_shape_alterTile; intros ?; split; reflexivity]);
  try reflexivity.

Lemma call_same_shape (h : Heap) (this : loc) (c : MutatorCall) :
  same_shape h (finalHeap (call this c) h).
Proof.
  unfold finalHeap. destruct h as [ts ss]. destruct c; simpl.
  - unfold Tile.setTerrain. run_M.
    repeat (case_bool_decide; simpl); shape_chain.
  - unfold Tile.setFeature. run_M.
    repeat (case_bool_decide; simpl); try destruct (includes _ _); simpl; shape_chain.
  - unfold Tile.setDistrict. run_M.
    repeat (case_bool_decide; simpl); shape_chain.
  - unfold Tile.setWonder. run_M.
    repeat (case_bool_decide; simpl); shape_chain.
  - unfold Tile.setImprovement. run_M.
    repeat (case_bool_decide; simpl); shape_chain.
  - unfold Tile.addRiverEdge, JsSet.add. run_M.
    destruct (edge <? 0), (5 <? edge); simpl; try reflexivity.
    apply same_shape_alterSet.
  - unfold Tile.removeRiverEdge, JsSet.delete. run_M. apply same_shape_alterSet.
  - unfold Tile.setOwner. run_M. destruct isCityCenter; simpl; shape_chain.
Qed.

Lemma heap_step_cases (h h' : Heap) :
  heap_step h h' -> same_shape h h' \/ heap_extends h h'.
Proof.
  intros [hh this c|hh this res|hh this nw|hh hh' Hext].
  - left. apply call_same_shape.
  - left. destruct hh as [ts ss]. unfold finalHeap, Tile.setResource. run_M. shape_chain.
  - left. destruct hh as [ts ss]. unfold finalHeap, Tile.setNaturalWonder. run_M.
    shape_chain.
  - by right.
Qed.

Lemma same_shape_allocated (h h' : Heap) (l : loc) :
  same_shape h h' -> allocated h l -> allocated h' l.
Proof.
  intros (Ht & Hs & Hl) [H1 H2]. destruct (Hl l) as [_ He].
  unfold allocated. rewrite Ht, Hs, He. done.
Qed.

Lemma same_shape_keyed (h h' : Heap) (g : GameMap.t) :
  same_shape h h' -> map_keyed h g -> map_keyed h' g.
Proof.
  intros (_ & _ & Hl) [Hnd Hk]. split; [done|].
  eapply Forall_impl; [exact Hk|]. intros [k l] Hkl. simpl in *.
  destruct (Hl l) as [-> _]. done.
Qed.

Lemma heap_extends_keyed (h h' : Heap) (g : GameMap.t) :
  heap_extends h h' -> map_allocated h g -> map_keyed h g -> map_keyed h' g.
Proof.
  intros Hext Halloc [Hnd Hk]. split; [done|].
  unfold map_allocated, GameMap.getAllTiles, JsMap.values in Halloc.
  rewrite map_fmap, Forall_fmap in Halloc.
  rewrite Forall_forall in Hk, Halloc. apply Forall_forall.
  intros [k l] Hin. simpl. specialize (Hk _ Hin). specialize (Halloc _ Hin).
  simpl in *. destruct Halloc as [Hl _].
  by rewrite (heap_extends_tileAt h h' l Hext Hl).
Qed.

Lemma map_wf_step (h h' : Heap) (g : GameMap.t) :
  heap_step h h' -> map_keyed h g /\ map_allocated h g ->
  map_keyed h' g /\ map_allocated h' g.
Proof.
  intros Hstep [Hk Ha]. destruct (heap_step_cases h h' Hstep) as [Hs|Hext].
  - split; [by eapply same_shape_keyed|].
    eapply Forall_impl; [exact Ha|]. intros l. by apply same_shape_allocated.
  - split; [by eapply heap_extends_keyed|].
    eapply Forall_impl; [exact Ha|]. intros l. by apply heap_extends_allocated.
Qed.

Lemma map_wf_new (width height : Z) (name : string) (h : Heap) :
  map_keyed (finalHeap (GameMap.new width height name) h)
            (resultMap (GameMap.new width height name) h)
  /\ map_allocated (finalHeap (GameMap.new width height name) h)
                   (resultMap (GameMap.new width height name) h).
Proof.
  unfold resultMap, completion, finalHeap. rewrite GameMap_new_run. cbn [fst snd].
  pose proof (NoDup_region width height) as Hnd.
  set (cs := region width height) in *.
  assert (forall i c, cs !! i = Some c ->
            tileAt (mkHeap (tileObjs h ++ newTiles (length (setObjs h)) cs)
                      (setObjs h ++ replicate (length cs) []))
              (length (tileObjs h) + i)
            = initialFields c (length (setObjs h) + i)) as Htile.
  { intros i c Hi. apply tileAt_lookup. simpl. rewrite lookup_app_r by lia.
    replace (length (tileObjs h) + i - length (tileObjs h))%nat with i by lia.
    unfold newTiles. rewrite list_lookup_imap, Hi. reflexivity. }
  split.
  - split; cbn [GameMap.tiles].
    + rewrite newEntries_keys. apply NoDup_fmap_2; [|done].
      intros c1 c2. apply coordToKey_inj.
    + apply Forall_forall. intros [k l] Hin. unfold newEntries in Hin.
      apply elem_of_lookup_imap in Hin as (i & c & [= -> ->] & Hi).
      simpl. by rewrite (Htile i c Hi).
  - unfold map_allocated, GameMap.getAllTiles. cbn [GameMap.tiles].
    rewrite newEntries_values. apply Forall_forall. intros l Hl.
    apply list_elem_of_lookup in Hl as [i Hi]. apply lookup_seq in Hi as [-> Hi].
    destruct (lookup_lt_is_Some_2 cs i Hi) as [c Hc].
    unfold allocated. rewrite (Htile i c Hc). simpl.
    rewrite !length_app, length_replicate. unfold newTiles. rewrite length_imap. lia.
Qed.

Lemma JsMap_set_elem {V} (m : JsMap.t V) (k k0 : string) (v v0 : V) :
  (k, v) ∈ JsMap.set m k0 v0 -> (k, v) = (k0, v0) \/ (k, v) ∈ m.
Proof.
  induction m as [|[k' v'] m IH]; simpl.
  - intros Hin%list_elem_of_singleton. by left.
  - case_bool_decide; subst.
    + intros [->|Hin]%elem_of_cons; [by left|]. right. by right.
    + intros [->|Hin]%elem_of_cons; [right; left|].
      destruct (IH Hin) as [?|?]; [by left|]. right. by right.
Qed.

Lemma loadEntries_NoDup (ds : list TileData.t) (n : nat) (acc : JsMap.t loc) :
  NoDup (JsMap.keys acc) -> NoDup (JsMap.keys (loadEntries n ds acc)).
Proof.
  revert n acc. induction ds as [|d ds IH]; intros n acc Hnd; simpl; [done|].
  by apply IH, JsMap_set_NoDup.
Qed.

Lemma loadEntries_elem (ds : list TileData.t) (n : nat) (acc : JsMap.t loc)
    (k : string) (l : loc) :
  (k, l) ∈ loadEntries n ds acc ->
  (k, l) ∈ acc
  \/ exists i d, ds !! i = Some d /\ l = (n + i)%nat
                 /\ k = HexUtils.coordToKey (TileData.coord d).
Proof.
  revert n acc. induction ds as [|d ds IH]; intros n acc; simpl; [by left|].
  intros Hin. destruct (IH _ _ Hin) as [Hset|(i & d' & Hi & -> & ->)].
  - apply JsMap_set_elem in Hset as [[= -> ->]|Hacc]; [|by left].
    right. exists 0%nat, d. split_and!; [done|lia|done].
  - right. exists (S i), d'. split_and!; [done|lia|done].
Qed.

Lemma loadedSets_length (ds : list TileData.t) :
  length (loadedSets ds) = (2 * length ds)%nat.
Proof.
  induction ds as [|d ds IH]; [done|].
  change (loadedSets (d :: ds)) with ([] :: foldl (fun s x => JsSet.add_elem x s) []
    (TileData.riverEdges d) :: loadedSets ds).
  simpl. rewrite IH. lia.
Qed.

Lemma map_wf_fromJSON (data : GameMapData.t) (h : Heap) :
  map_keyed (finalHeap (GameMap.fromJSON data) h)
            (resultMap (GameMap.fromJSON data) h)
  /\ map_allocated (finalHeap (GameMap.fromJSON data) h)
                   (resultMap (GameMap.fromJSON data) h).
Proof.
  unfold resultMap, completion, finalHeap. rewrite GameMap_fromJSON_run. cbn [fst snd].
  set (n := length (region (GameMapData.width data) (GameMapData.height data))).
  set (ds := GameMapData.tiles data).
  set (T := tileObjs h ++ newTiles (length (setObjs h))
              (region (GameMapData.width data) (GameMapData.height data))).
  set (S0 := setObjs h ++ replicate n []).
  assert (length T = (length (tileObjs h) + n)%nat) as HT.
  { unfold T, newTiles. by rewrite length_app, length_imap. }
  assert (length S0 = (length (setObjs h) + n)%nat) as HS.
  { unfold S0. by rewrite length_app, length_replicate. }
  rewrite <- HT, <- HS.
  assert (forall i d, ds !! i = Some d ->
            tileAt (mkHeap (T ++ loadedTiles (length S0) ds) (S0 ++ loadedSets ds))
              (length T + i)
            = fieldsOfData d (S (length S0 + 2 * i))) as Htile.
  { intros i d Hi. apply tileAt_lookup. simpl. rewrite lookup_app_r by lia.
    replace (length T + i - length T)%nat with i by lia.
    unfold loadedTiles. rewrite list_lookup_imap, Hi. reflexivity. }
  assert (forall k l, (k, l) ∈ loadEntries (length T) ds [] ->
            exists i d, ds !! i = Some d /\ l = (length T + i)%nat
                        /\ k = HexUtils.coordToKey (TileData.coord d)) as Helem.
  { intros k l Hin. apply loadEntries_elem in Hin as [Hin|Hin]; [|done].
    by apply elem_of_nil in Hin. }
  split.
  - split; cbn [GameMap.tiles].
    + apply loadEntries_NoDup. simpl. apply NoDup_nil_2.
    + apply Forall_forall. intros [k l] Hin.
      destruct (Helem k l Hin) as (i & d & Hi & -> & ->). simpl.
      by rewrite (Htile i d Hi).
  - unfold map_allocated, GameMap.getAllTiles, JsMap.values. cbn [GameMap.tiles].
    rewrite map_fmap, Forall_fmap. apply Forall_forall. intros [k l] Hin.
    destruct (Helem k l Hin) as (i & d & Hi & -> & _). simpl.
    unfold allocated. rewrite (Htile i d Hi). simpl.
    rewrite !length_app, loadedSets_length. unfold loadedTiles. rewrite length_imap.
    apply lookup_lt_Some in Hi. lia.
Qed.

Lemma map_wf_setTile (h : Heap) (g : GameMap.t) (tile : loc) :
  map_keyed h g /\ map_allocated h g -> allocated h tile ->
  map_keyed h (GameMap.setTile h g tile)
  /\ map_allocated h (GameMap.setTile h g tile).
Proof.
  intros [[Hnd Hk] Ha] Htile. unfold GameMap.setTile.
  rewrite Forall_forall in Hk.
  unfold map_allocated, GameMap.getAllTiles, JsMap.values in Ha.
  rewrite map_fmap, Forall_fmap, Forall_forall in Ha.
  split.
  - split; simpl.
    + by apply JsMap_set_NoDup.
    + apply Forall_forall. intros [k l] Hin.
      apply JsMap_set_elem in Hin as [[= -> ->]|Hin]; [done|by apply Hk].
  - unfold map_allocated, GameMap.getAllTiles, JsMap.values. simpl.
    rewrite map_fmap, Forall_fmap. apply Forall_forall. intros [k l] Hin.
    apply JsMap_set_elem in Hin as [[= -> ->]|Hin]; [done|by apply (Ha (k, l))].
Qed.

(** Every grid a program can reach has its entries under the keys of their
    coordinates and its tiles allocated: the two hypotheses of the
    properties stated over a grid. *)
Lemma reachableGrid_wf (h : Heap) (g : GameMap.t) :
  reachableGrid h g -> map_keyed h g /\ map_allocated h g.
Proof.
  induction 1 as [h w hh name|h data|h h' g _ IH Hstep|h g tile _ IH Htile
                  |h g value _ IH].
  - apply map_wf_new.
  - apply map_wf_fromJSON.
  - by eapply map_wf_step.
  - by apply map_wf_setTile.
  - exact IH.
Qed.

(** ** Tiles own their river-edge sets *)

Lemma heap_wf_empty : heap_wf emptyHeap.
Proof. split; simpl; [constructor|apply NoDup_nil_2]. Qed.

Lemma heap_wf_Tile_new (c : HexCoord) (h : Heap) :
  heap_wf h -> heap_wf (finalHeap (Tile.new c) h).
Proof.
  intros [Ha Hnd]. unfold finalHeap. rewrite Tile_new_run. cbn [snd]. split; simpl.
  - rewrite length_app. simpl. apply Forall_app. split.
    + eapply Forall_impl; [exact Ha|]. simpl. intros; lia.
    + apply Forall_singleton. simpl. lia.
  - rewrite fmap_app. simpl. apply NoDup_app. split_and!; [done| |apply NoDup_singleton].
    intros s Hs ->%list_elem_of_singleton.
    apply list_elem_of_fmap in Hs as (t & Heq & Ht).
    rewrite Forall_forall in Ha. specialize (Ha t Ht). lia.
Qed.

Lemma heap_wf_Tile_fromJSON (d : TileData.t) (h : Heap) :
  heap_wf h -> heap_wf (finalHeap (Tile.fromJSON d) h).
Proof.
  intros [Ha Hnd]. unfold finalHeap. rewrite Tile_fromJSON_run. cbn [snd]. split; simpl.
  - rewrite length_app. simpl. apply Forall_app. split.
    + eapply Forall_impl; [exact Ha|]. simpl. intros; lia.
    + apply Forall_singleton. simpl. lia.
  - rewrite fmap_app. simpl. apply NoDup_app. split_and!; [done| |apply NoDup_singleton].
    intros s Hs ->%list_elem_of_singleton.
    apply list_elem_of_fmap in Hs as (t & Heq & Ht).
    rewrite Forall_forall in Ha. specialize (Ha t Ht). lia.
Qed.

Lemma same_shape_riverEdges (h h' : Heap) :
  same_shape h h' -> _riverEdges <$> tileObjs h' = _riverEdges <$> tileObjs h.
Proof.
  intros (Ht & _ & Hl). apply list_eq. intros i.
  rewrite !list_lookup_fmap.
  specialize (Hl i). destruct Hl as [_ Hl]. unfold tileAt in Hl.
  destruct (tileObjs h' !! i) as [t'|] eqn:E', (tileObjs h !! i) as [t|] eqn:E;
    simpl in *; [by rewrite Hl| | |done].
  - apply lookup_lt_Some in E'. apply lookup_ge_None in E. lia.
  - apply lookup_lt_Some in E. apply lookup_ge_None in E'. lia.
Qed.

Lemma heap_wf_same_shape (h h' : Heap) :
  same_shape h h' -> heap_wf h -> heap_wf h'.
Proof.
  intros Hs [Ha Hnd]. pose proof (same_shape_riverEdges h h' Hs) as He.
  destruct Hs as (_ & Hlen & _). split.
  - assert (Forall (fun s => (s < length (setObjs h))%nat) (_riverEdges <$> tileObjs h))
      as Ha' by (by apply Forall_fmap).
    rewrite <- He, <- Hlen in Ha'. by apply Forall_fmap in Ha'.
  - by rewrite He.
Qed.

Lemma heap_wf_call (h : Heap) (this : loc) (c : MutatorCall) :
  heap_wf h -> heap_wf (finalHeap (call this c) h).
Proof. apply heap_wf_same_shape, call_same_shape. Qed.

Lemma heap_wf_riverEdges_getter (h : Heap) (this : loc) :
  heap_wf h -> heap_wf (finalHeap (Tile.riverEdges this) h).
Proof.
  intros [Ha Hnd]. unfold finalHeap. rewrite riverEdges_run. cbn [snd]. split; simpl.
  - rewrite length_app. eapply Forall_impl; [exact Ha|]. simpl. intros; lia.
  - done.
Qed.

(** A tile's river edges are not changed by a mutator called on another
    tile, whichever it is. *)
Lemma other_tile_call_frame (h : Heap) (this that : loc) (c : MutatorCall) :
  heap_wf h ->
  (this < length (tileObjs h))%nat -> (that < length (tileObjs h))%nat ->
  that <> this ->
  let h' := finalHeap (call that c) h in
  JsSet.values h' (_riverEdges (tileAt h' this))
  = JsSet.values h (_riverEdges (tileAt h this)).
Proof.
  intros [Ha Hnd] Hthis Hthat Hne h'.
  destruct (lookup_lt_is_Some_2 _ _ Hthis) as [t1 H1].
  destruct (lookup_lt_is_Some_2 _ _ Hthat) as [t2 H2].
  assert (_riverEdges (tileAt h that) <> _riverEdges (tileAt h this)) as Hsets.
  { rewrite (tileAt_lookup h this t1 H1), (tileAt_lookup h that t2 H2).
    intros Heq. apply Hne.
    apply (NoDup_lookup (_riverEdges <$> tileObjs h) that this (_riverEdges t2)); [done|..].
    - by rewrite list_lookup_fmap, H2.
    - by rewrite list_lookup_fmap, H1, Heq. }
  destruct (call_same_shape h that c) as (_ & _ & Hl). fold h' in Hl.
  destruct (Hl this) as [_ ->].
  destruct (isRiverCall c) eqn:Hc.
  - unfold JsSet.values. unfold h', finalHeap.
    destruct h as [ts ss]. destruct c; simpl in Hc; try discriminate; simpl.
    + unfold Tile.addRiverEdge, JsSet.add. run_M.
      destruct (edge <? 0), (5 <? edge); simpl; try reflexivity.
      rewrite setAt_alter. rewrite decide_False; [done|]. intros [? _]. done.
    + unfold Tile.removeRiverEdge, JsSet.delete. run_M.
      rewrite setAt_alter. rewrite decide_False; [done|]. intros [? _]. done.
  - destruct (non_river_call_frame h that c Hc) as [Hs _]. fold h' in Hs.
    unfold JsSet.values, setAt. by rewrite Hs.
Qed.

(** * Further properties of the code *)

(** ** Hex coordinates *)

(** X1.  Axial to cube and back is the identity, the cube coordinate of an
    axial one sums to 0, and cube to axial and back is the identity on the
    cube coordinates that sum to 0 -- and only on those. *)
Theorem X1_axial_cube_round_trip (c : HexCoord) (cube : CubeCoord.t) :
  HexUtils.cubeToAxial (HexUtils.axialToCube c) = c
  /\ CubeCoord.q (HexUtils.axialToCube c) + CubeCoord.r (HexUtils.axialToCube c)
     + CubeCoord.s (HexUtils.axialToCube c) = 0
  /\ (HexUtils.axialToCube (HexUtils.cubeToAxial cube) = cube
      <-> CubeCoord.q cube + CubeCoord.r cube + CubeCoord.s cube = 0).
Proof.
  destruct c as [qc rc], cube as [q0 r0 s0].
  unfold HexUtils.cubeToAxial, HexUtils.axialToCube. simpl.
  split_and!; [done|lia|]. split.
  - intros [= Hs]. lia.
  - intros Hs. f_equal. lia.
Qed.

Lemma distance_cube (a b : HexCoord) :
  HexUtils.distance a b
  = Z.max (Z.max
      (Z.abs (CubeCoord.q (HexUtils.axialToCube a) - CubeCoord.q (HexUtils.axialToCube b)))
      (Z.abs (CubeCoord.r (HexUtils.axialToCube a) - CubeCoord.r (HexUtils.axialToCube b))))
      (Z.abs (CubeCoord.s (HexUtils.axialToCube a) - CubeCoord.s (HexUtils.axialToCube b))).
Proof. reflexivity. Qed.

Lemma distance_le (a b : HexCoord) (d : Z) :
  HexUtils.distance a b <= d
  <-> - d <= q a - q b <= d /\ - d <= r a - r b <= d
      /\ - d <= (q a + r a) - (q b + r b) <= d.
Proof. unfold HexUtils.distance. lia. Qed.

Lemma distance_sym (a b : HexCoord) : HexUtils.distance a b = HexUtils.distance b a.
Proof.
  apply Z.le_antisymm; apply distance_le.
  - pose proof (proj1 (distance_le b a _) (Z.le_refl _)). lia.
  - pose proof (proj1 (distance_le a b _) (Z.le_refl _)). lia.
Qed.

Lemma distance_triangle (a b c : HexCoord) :
  HexUtils.distance a c <= HexUtils.distance a b + HexUtils.distance b c.
Proof.
  apply distance_le.
  pose proof (proj1 (distance_le a b _) (Z.le_refl _)).
  pose proof (proj1 (distance_le b c _) (Z.le_refl _)).
  lia.
Qed.

Lemma distance_nonneg (a b : HexCoord) : 0 <= HexUtils.distance a b.
Proof. unfold HexUtils.distance. lia. Qed.

Lemma distance_zero (a b : HexCoord) : HexUtils.distance a b = 0 <-> a = b.
Proof.
  split.
  - intros Hd. pose proof (proj1 (distance_le a b 0) ltac:(lia)).
    destruct a, b. simpl in *. f_equal; lia.
  - intros ->. unfold HexUtils.distance. lia.
Qed.

(** X2.  The hex distance is a metric on the axial coordinates: it is never
    negative, is 0 exactly between a coordinate and itself, is symmetric and
    satisfies the triangle inequality. *)
Theorem X2_distance_is_a_metric (a b c : HexCoord) :
  0 <= HexUtils.distance a b
  /\ (HexUtils.distance a b = 0 <-> a = b)
  /\ HexUtils.distance a b = HexUtils.distance b a
  /\ HexUtils.distance a c <= HexUtils.distance a b + HexUtils.distance b c.
Proof.
  split_and!.
  - apply distance_nonneg.
  - apply distance_zero.
  - apply distance_sym.
  - apply distance_triangle.
Qed.

Lemma neighbors_distance_1 (c : HexCoord) :
  length (HexUtils.getNeighbors c) = 6%nat
  /\ NoDup (HexUtils.getNeighbors c)
  /\ (forall n, n ∈ HexUtils.getNeighbors c <-> HexUtils.distance c n = 1).
Proof.
  destruct c as [qc rc]. split_and!.
  - reflexivity.
  - unfold HexUtils.getNeighbors. simpl.
    repeat (apply NoDup_cons; split;
            [rewrite ?elem_of_cons, elem_of_nil; intros Hin;
             repeat (destruct Hin as [Hin|Hin]; [injection Hin; lia|]); done|]).
    apply NoDup_nil_2.
  - intros [qn rn]. unfold HexUtils.getNeighbors, HexUtils.distance. simpl.
    rewrite !elem_of_cons, elem_of_nil. split.
    + intros Hin.
      repeat (destruct Hin as [Hin|Hin]; [injection Hin as -> ->; lia|]). done.
    + intros Hd.
      assert ((qn = qc + 1 /\ rn = rc + 0) \/ (qn = qc + 0 /\ rn = rc + 1)
              \/ (qn = qc + -1 /\ rn = rc + 1) \/ (qn = qc + -1 /\ rn = rc + 0)
              \/ (qn = qc + 0 /\ rn = rc + -1) \/ (qn = qc + 1 /\ rn = rc + -1)) as Hcases
        by lia.
      destruct Hcases as [[-> ->]|[[-> ->]|[[-> ->]|[[-> ->]|[[-> ->]|[-> ->]]]]]]; tauto.
Qed.


(** X3.  The neighbours of a coordinate are six distinct coordinates, and
    they are exactly the coordinates at distance 1 from it. *)
Theorem X3_neighbors_are_the_hexes_at_distance_1 (c n : HexCoord) :
  length (HexUtils.getNeighbors c) = 6%nat
  /\ NoDup (HexUtils.getNeighbors c)
  /\ (n ∈ HexUtils.getNeighbors c <-> HexUtils.distance c n = 1).
Proof.
  destruct (neighbors_distance_1 c) as (Hlen & Hnd & Hin). split_and!; [done|done|apply Hin].
Qed.

(** X4.  For a direction that is not negative the neighbour in that
    direction exists, lies at distance 1, depends on the direction modulo 6
    only, and the neighbour of that neighbour three directions further is
    the coordinate itself.  For a negative direction that is not a multiple
    of 6 there is no answer: the remainder is negative. *)
Theorem X4_neighbor_in_direction (c : HexCoord) (direction : Z) :
  (0 <= direction ->
     exists n,
       HexUtils.getNeighborInDirection c direction = Some n
       /\ HexUtils.distance c n = 1
       /\ HexUtils.getNeighborInDirection c (direction + 6) = Some n
       /\ HexUtils.getNeighborInDirection n (direction + 3) = Some c)
  /\ (direction < 0 -> Z.rem direction 6 <> 0 ->
      HexUtils.getNeighborInDirection c direction = None).
Proof.
  split.
  - intros Hd. unfold HexUtils.getNeighborInDirection.
    rewrite !Z.rem_mod_nonneg by lia.
    assert ((direction + 6) `mod` 6 = direction `mod` 6) as ->.
    { replace (direction + 6) with (direction + 1 * 6) by lia. apply Z.mod_add. lia. }
    assert ((direction + 3) `mod` 6 = (direction `mod` 6 + 3) `mod` 6) as ->.
    { rewrite Z.add_mod by lia. by rewrite (Z.mod_small 3 6) by lia. }
    pose proof (Z.mod_pos_bound direction 6 ltac:(lia)) as Hb.
    assert (direction `mod` 6 = 0 \/ direction `mod` 6 = 1 \/ direction `mod` 6 = 2
            \/ direction `mod` 6 = 3 \/ direction `mod` 6 = 4 \/ direction `mod` 6 = 5)
      as Hcases by lia.
    destruct c as [qc rc].
    destruct Hcases as [-> | [-> | [-> | [-> | [-> | ->]]]]]; simpl;
      eexists; (split; [reflexivity|]); unfold HexUtils.distance; simpl;
      (split; [lia|]); (split; [reflexivity|]); do 2 f_equal; lia.
  - intros Hd Hrem. unfold HexUtils.getNeighborInDirection.
    pose proof (Z.rem_nonpos direction 6 ltac:(lia) ltac:(lia)).
    destruct (Z.ltb_spec (Z.rem direction 6) 0); [done|lia].
Qed.

(** ** Ranges and rings *)

Lemma concat_map_bind {A B} (f : A -> list B) (l : list A) :
  concat (map f l) = l ≫= f.
Proof. induction l as [|x l IH]; [done|]. simpl. by rewrite IH. Qed.

Lemma getHexesInRange_bind (center : HexCoord) (range : Z) :
  HexUtils.getHexesInRange center range
  = seqZ (- range) (range - (- range) + 1) ≫= (fun dq =>
      (fun dr => mkHexCoord (q center + dq) (r center + dr))
      <$> seqZ (Z.max (- range) (- dq - range))
               (Z.min range (- dq + range) - Z.max (- range) (- dq - range) + 1)).
Proof.
  unfold HexUtils.getHexesInRange. rewrite concat_map_bind.
  f_equal.
Qed.

Lemma elem_of_getHexesInRange (center c : HexCoord) (range : Z) :
  c ∈ HexUtils.getHexesInRange center range <-> HexUtils.distance center c <= range.
Proof.
  rewrite getHexesInRange_bind, list_elem_of_bind. split.
  - intros (dq & Hc & Hdq). apply list_elem_of_fmap in Hc as (dr & -> & Hdr).
    apply elem_of_seqZ in Hdq. apply elem_of_seqZ in Hdr.
    apply distance_le. simpl. lia.
  - intros Hd. apply distance_le in Hd. exists (q c - q center). split.
    + apply list_elem_of_fmap. exists (r c - r center). split.
      * destruct c. simpl. f_equal; lia.
      * apply elem_of_seqZ. lia.
    + apply elem_of_seqZ. lia.
Qed.

Lemma NoDup_getHexesInRange (center : HexCoord) (range : Z) :
  NoDup (HexUtils.getHexesInRange center range).
Proof.
  rewrite getHexesInRange_bind. apply NoDup_bind.
  - intros dq1 dq2 c _ _ H1 H2.
    apply list_elem_of_fmap in H1 as (dr1 & -> & _).
    apply list_elem_of_fmap in H2 as (dr2 & [= Hq _] & _). lia.
  - intros dq _. apply NoDup_fmap_2_strong; [|apply NoDup_seqZ].
    intros dr1 dr2 _ _ [= Hr]. lia.
  - apply NoDup_seqZ.
Qed.

Lemma length_concat_map_Z {A B} (f : A -> list B) (g : A -> Z) (l : list A) :
  (forall x, x ∈ l -> Z.of_nat (length (f x)) = g x) ->
  Z.of_nat (length (concat (map f l))) = foldr (fun x acc => g x + acc) 0 l.
Proof.
  induction l as [|x l IH]; intros Hg; [done|]. simpl.
  rewrite length_app, Nat2Z.inj_add, IH, Hg; [done|apply elem_of_cons; by left|].
  intros y Hy. apply Hg, elem_of_cons. by right.
Qed.

Lemma sum_linear_seqZ (c d : Z) (k : nat) (a : Z) :
  2 * foldr (fun i acc => (c + d * i) + acc) 0 (seqZ a (Z.of_nat k))
  = 2 * Z.of_nat k * c + d * (2 * Z.of_nat k * a + Z.of_nat k * (Z.of_nat k - 1)).
Proof.
  revert a. induction k as [|k IH]; intros a; [simpl; lia|].
  rewrite seqZ_cons by lia. simpl foldr.
  replace (Z.pred (Z.of_nat (S k))) with (Z.of_nat k) by lia.
  rewrite Z.mul_add_distr_l, IH. nia.
Qed.

Lemma length_getHexesInRange (center : HexCoord) (range : Z) :
  0 <= range ->
  Z.of_nat (length (HexUtils.getHexesInRange center range)) = 1 + 3 * range * (range + 1).
Proof.
  intros Hr. unfold HexUtils.getHexesInRange.
  replace (range - - range + 1) with (range + (range + 1)) by lia.
  rewrite seqZ_app by lia. rewrite map_app, concat_app, length_app, Nat2Z.inj_add.
  rewrite (length_concat_map_Z _ (fun i => (2 * range + 1) + 1 * i)).
  2:{ intros dq Hdq. apply elem_of_seqZ in Hdq. rewrite length_map, length_seqZ. lia. }
  rewrite (length_concat_map_Z _ (fun i => (2 * range + 1) + (-1) * i)).
  2:{ intros dq Hdq. apply elem_of_seqZ in Hdq. rewrite length_map, length_seqZ. lia. }
  pose proof (sum_linear_seqZ (2 * range + 1) 1 (Z.to_nat range) (- range)) as H1.
  pose proof (sum_linear_seqZ (2 * range + 1) (-1) (Z.to_nat (range + 1)) (- range + range))
    as H2.
  rewrite !Z2Nat.id in H1, H2 by lia. nia.
Qed.

(** X5.  The hexes in range of a centre are exactly the coordinates at
    distance at most the range, each listed once; so a negative range gives
    the empty list and a range of 0 the centre alone. *)
Theorem X5_hexes_in_range_is_the_ball (center c : HexCoord) (range : Z) :
  (c ∈ HexUtils.getHexesInRange center range <-> HexUtils.distance center c <= range)
  /\ NoDup (HexUtils.getHexesInRange center range)
  /\ (range < 0 -> HexUtils.getHexesInRange center range = [])
  /\ HexUtils.getHexesInRange center 0 = [center].
Proof.
  split_and!.
  - apply elem_of_getHexesInRange.
  - apply NoDup_getHexesInRange.
  - intros Hneg. unfold HexUtils.getHexesInRange. by rewrite seqZ_nil by lia.
  - destruct center as [qc rc]. unfold HexUtils.getHexesInRange. simpl.
    do 2 f_equal; lia.
Qed.

(** X6.  For a range n that is not negative there are 1 + 3 n (n + 1) hexes
    in range: 1, 7, 19, 37, ... *)
Theorem X6_hexes_in_range_count (center : HexCoord) (range : Z) :
  0 <= range ->
  Z.of_nat (length (HexUtils.getHexesInRange center range)) = 1 + 3 * range * (range + 1).
Proof.
  apply length_getHexesInRange.
Qed.

Lemma X6_hexes_in_range_count_witness :
  0 <= 3
  /\ Z.of_nat (length (HexUtils.getHexesInRange (mkHexCoord 2 (-1)) 3)) = 1 + 3 * 3 * (3 + 1).
Proof.
  split; [lia|]. apply (X6_hexes_in_range_count (mkHexCoord 2 (-1)) 3). lia.
Defined.

(** *** The ring *)

Lemma ring_walk (d : Z * Z) (steps : list Z) (res : list HexCoord) (cur : HexCoord) :
  foldl (fun (state : list HexCoord * HexCoord) (i : Z) =>
           (state.1 ++ [state.2], mkHexCoord (q state.2 + d.1) (r state.2 + d.2)))
        (res, cur) steps
  = (res ++ ringSide cur d (Z.of_nat (length steps)),
     mkHexCoord (q cur + Z.of_nat (length steps) * d.1) (r cur + Z.of_nat (length steps) * d.2)).
Proof.
  revert res cur. induction steps as [|i steps IH]; intros res cur.
  - simpl. unfold ringSide. simpl. rewrite app_nil_r. destruct cur. simpl.
    do 2 f_equal; lia.
  - simpl foldl. rewrite IH. cbn [q r]. f_equal.
    + rewrite <- app_assoc. f_equal. unfold ringSide.
      rewrite (seqZ_cons 0 (Z.of_nat (length (i :: steps)))) by (simpl; lia).
      rewrite fmap_cons. simpl app. f_equal.
      * destruct cur. simpl. f_equal; lia.
      * replace (Z.pred (Z.of_nat (length (i :: steps)))) with (Z.of_nat (length steps))
          by (simpl; lia).
        replace (Z.succ 0) with (1 + 0) by lia.
        rewrite <- fmap_add_seqZ, <- list_fmap_compose.
        apply list_fmap_ext. intros _ j _. simpl. f_equal; lia.
    + f_equal; simpl length; lia.
Qed.

Lemma ringSide_ext (corner corner' : HexCoord) (d : Z * Z) (radius : Z) :
  q corner = q corner' -> r corner = r corner' ->
  ringSide corner d radius = ringSide corner' d radius.
Proof. destruct corner, corner'. simpl. by intros -> ->. Qed.

Lemma getHexRing_sides (center : HexCoord) (radius : Z) :
  0 < radius ->
  HexUtils.getHexRing center radius
  = ringSide (mkHexCoord (q center - radius) (r center + radius)) (1, 0) radius
    ++ ringSide (mkHexCoord (q center) (r center + radius)) (1, -1) radius
    ++ ringSide (mkHexCoord (q center + radius) (r center)) (0, -1) radius
    ++ ringSide (mkHexCoord (q center + radius) (r center - radius)) (-1, 0) radius
    ++ ringSide (mkHexCoord (q center) (r center - radius)) (-1, 1) radius
    ++ ringSide (mkHexCoord (q center - radius) (r center)) (0, 1) radius.
Proof.
  intros Hr. unfold HexUtils.getHexRing.
  destruct (Z.eqb_spec radius 0) as [?|_]; [lia|].
  cbn [foldl]. rewrite !ring_walk. cbn [fst snd q r].
  rewrite !length_seqZ. replace (Z.of_nat (Z.to_nat (radius - 0))) with radius by lia.
  rewrite app_nil_l, <- !app_assoc.
  repeat (apply (f_equal2 (@app HexCoord)); [apply ringSide_ext; simpl; lia|]).
  apply ringSide_ext; simpl; lia.
Qed.

Lemma elem_of_ringSide (c corner : HexCoord) (d : Z * Z) (radius : Z) :
  c ∈ ringSide corner d radius
  <-> exists i, 0 <= i < radius /\ q c = q corner + i * d.1 /\ r c = r corner + i * d.2.
Proof.
  unfold ringSide. rewrite list_elem_of_fmap. split.
  - intros (i & -> & Hi). apply elem_of_seqZ in Hi. exists i. simpl. lia.
  - intros (i & Hi & Hq & Hr). exists i. split; [|apply elem_of_seqZ; lia].
    destruct c. simpl in *. by subst.
Qed.

Lemma NoDup_ringSide (corner : HexCoord) (d : Z * Z) (radius : Z) :
  d.1 <> 0 \/ d.2 <> 0 -> NoDup (ringSide corner d radius).
Proof.
  intros Hd. apply NoDup_fmap_2_strong; [|apply NoDup_seqZ].
  intros i j _ _ [= Hq Hr]. nia.
Qed.

Lemma length_ringSide (corner : HexCoord) (d : Z * Z) (radius : Z) :
  length (ringSide corner d radius) = Z.to_nat radius.
Proof. unfold ringSide. by rewrite length_fmap, length_seqZ. Qed.

Lemma distance_eq (a b : HexCoord) (d : Z) :
  HexUtils.distance a b = d
  <-> (- d <= q a - q b <= d /\ - d <= r a - r b <= d
       /\ - d <= (q a + r a) - (q b + r b) <= d)
      /\ (q a - q b = d \/ q a - q b = - d \/ r a - r b = d \/ r a - r b = - d
          \/ (q a + r a) - (q b + r b) = d \/ (q a + r a) - (q b + r b) = - d).
Proof. unfold HexUtils.distance. lia. Qed.

Lemma elem_of_getHexRing (center c : HexCoord) (radius : Z) :
  0 < radius ->
  c ∈ HexUtils.getHexRing center radius <-> HexUtils.distance center c = radius.
Proof.
  intros Hr. rewrite getHexRing_sides by done.
  rewrite !elem_of_app, !elem_of_ringSide. cbn [fst snd q r].
  rewrite distance_eq. split.
  - intros [(i & ?)|[(i & ?)|[(i & ?)|[(i & ?)|[(i & ?)|(i & ?)]]]]]; lia.
  - intros Hd.
    set (x := q c - q center). set (y := r c - r center).
    assert ((y = radius /\ - radius <= x < 0) \/ (x + y = radius /\ 0 <= x < radius)
            \/ (x = radius /\ - radius < y <= 0) \/ (y = - radius /\ 0 < x <= radius)
            \/ (x + y = - radius /\ - radius < x <= 0)
            \/ (x = - radius /\ 0 <= y < radius)) as Hcases by lia.
    destruct Hcases as [H|[H|[H|[H|[H|H]]]]].
    + left. exists (x + radius). lia.
    + right; left. exists x. lia.
    + do 2 right; left. exists (- y). lia.
    + do 3 right; left. exists (radius - x). lia.
    + do 4 right; left. exists (- x). lia.
    + do 5 right. exists y. lia.
Qed.

Lemma NoDup_getHexRing (center : HexCoord) (radius : Z) :
  NoDup (HexUtils.getHexRing center radius).
Proof.
  destruct (Z.lt_trichotomy radius 0) as [Hr|[->|Hr]].
  - unfold HexUtils.getHexRing. destruct (Z.eqb_spec radius 0) as [?|_]; [lia|].
    rewrite seqZ_nil by lia. simpl. apply NoDup_nil_2.
  - simpl. apply NoDup_singleton.
  - rewrite getHexRing_sides by done.
    repeat (apply list.NoDup_app; split; [apply NoDup_ringSide; simpl; lia|]; split;
            [intros c Hc;
             rewrite ?elem_of_app, !elem_of_ringSide;
             apply elem_of_ringSide in Hc as (i & Hi & Hq & Hr');
             cbn [fst snd q r] in *;
             intros Hin;
             repeat (destruct Hin as [(j & ?)|Hin]; [lia|]);
             destruct Hin as (j & ?); lia|]).
    apply NoDup_ringSide. simpl. lia.
Qed.

(** X7.  A ring of radius 0 is the centre alone and a ring of negative
    radius is empty.  A ring of positive radius lists, each once, exactly
    the coordinates at distance radius from the centre, 6 * radius of them,
    starting with the corner [(q - radius, r + radius)]. *)
Theorem X7_hex_ring_is_the_sphere (center c : HexCoord) (radius : Z) :
  HexUtils.getHexRing center 0 = [center]
  /\ (radius < 0 -> HexUtils.getHexRing center radius = [])
  /\ NoDup (HexUtils.getHexRing center radius)
  /\ (0 < radius ->
      (c ∈ HexUtils.getHexRing center radius <-> HexUtils.distance center c = radius)
      /\ Z.of_nat (length (HexUtils.getHexRing center radius)) = 6 * radius
      /\ head (HexUtils.getHexRing center radius)
         = Some (mkHexCoord (q center - radius) (r center + radius))).
Proof.
  split_and!.
  - reflexivity.
  - intros Hr. unfold HexUtils.getHexRing.
    destruct (Z.eqb_spec radius 0) as [?|_]; [lia|]. by rewrite seqZ_nil by lia.
  - apply NoDup_getHexRing.
  - intros Hr. split_and!.
    + by apply elem_of_getHexRing.
    + rewrite getHexRing_sides by done. rewrite !length_app, !length_ringSide. lia.
    + rewrite getHexRing_sides by done. unfold ringSide at 1.
      rewrite seqZ_cons by lia. simpl. do 2 f_equal; lia.
Qed.

(** X8.  For n that is not negative, the hexes in range n + 1 are, up to
    their order, the hexes in range n followed by the ring of radius
    n + 1. *)
Theorem X8_ring_is_the_rim_of_the_range (center : HexCoord) (radius : Z) :
  0 <= radius ->
  HexUtils.getHexesInRange center (radius + 1)
  ≡ₚ HexUtils.getHexesInRange center radius ++ HexUtils.getHexRing center (radius + 1).
Proof.
  intros Hr. apply NoDup_Permutation.
  - apply NoDup_getHexesInRange.
  - apply list.NoDup_app. split; [apply NoDup_getHexesInRange|].
    split; [|apply NoDup_getHexRing].
    intros c Hc Hring. apply elem_of_getHexesInRange in Hc.
    apply elem_of_getHexRing in Hring; lia.
  - intros c. rewrite elem_of_app, !elem_of_getHexesInRange, elem_of_getHexRing by lia.
    lia.
Qed.

Lemma X8_ring_is_the_rim_of_the_range_witness :
  0 <= 1
  /\ HexUtils.getHexesInRange (mkHexCoord 0 0) (1 + 1)
     ≡ₚ HexUtils.getHexesInRange (mkHexCoord 0 0) 1 ++ HexUtils.getHexRing (mkHexCoord 0 0) (1 + 1).
Proof.
  split; [lia|]. apply (X8_ring_is_the_rim_of_the_range (mkHexCoord 0 0) 1). lia.
Defined.

(** ** The grid *)

(** X9.  Two coordinates have the same key exactly if they are the same
    coordinate. *)
Theorem X9_coordToKey_is_injective (a b : HexCoord) :
  HexUtils.coordToKey a = HexUtils.coordToKey b <-> a = b.
Proof.
  split; [apply coordToKey_inj|by intros ->].
Qed.

Lemma JsMap_has_keys {V} (m : JsMap.t V) (k : string) :
  JsMap.has m k = true <-> k ∈ JsMap.keys m.
Proof.
  unfold JsMap.has. destruct (JsMap.get m k) as [v|] eqn:Hget.
  - split; [intros _|done]. destruct (decide (k ∈ JsMap.keys m)) as [|Hk]; [done|].
    apply JsMap_get_None in Hk. congruence.
  - split; [done|]. intros Hk. by apply JsMap_get_None in Hget.
Qed.

Lemma foldr_const_sum {A} (l : list A) (c : Z) :
  foldr (fun _ acc => c + acc) 0 l = Z.of_nat (length l) * c.
Proof. induction l as [|x l IH]; simpl foldr; simpl length; [done|]. rewrite IH. lia. Qed.

Lemma length_region (width height : Z) :
  Z.of_nat (length (region width height)) = Z.max 0 width * Z.max 0 height.
Proof.
  unfold region. rewrite <- concat_map_bind.
  rewrite (length_concat_map_Z _ (fun _ => Z.max 0 width)).
  - rewrite foldr_const_sum, length_seqZ. lia.
  - intros r0 _. rewrite length_fmap, length_seqZ. lia.
Qed.

Lemma find_None_Forall {A} (p : A -> bool) (l : list A) :
  List.find p l = None <-> Forall (fun x => p x = false) l.
Proof.
  induction l as [|x l IH]; simpl.
  - split; [constructor|done].
  - destruct (p x) eqn:Hp.
    + split; [done|]. intros Hall. apply Forall_cons in Hall as [? _]. congruence.
    + rewrite IH. split; [by constructor|]. by intros [_ ?]%Forall_cons.
Qed.

Lemma new_tile_fields (ts : list TileFields) (ss : list (list Z)) (s0 : nat)
    (cs : list HexCoord) (i : nat) (c : HexCoord) :
  cs !! i = Some c ->
  tileAt (mkHeap (ts ++ newTiles s0 cs) ss) (length ts + i) = initialFields c (s0 + i).
Proof.
  intros Hi. apply tileAt_lookup. simpl. rewrite lookup_app_r by lia.
  replace (length ts + i - length ts)%nat with i by lia.
  unfold newTiles. by rewrite list_lookup_imap, Hi.
Qed.

(** X10.  A new map has max(0, width) * max(0, height) tiles; a coordinate
    is in bounds exactly if it is in the region of the map; [width],
    [height] and [name] are the arguments of the constructor; and no tile is
    a city center. *)
Theorem X10_new_map_size_and_bounds (width height : Z) (name : string) (h : Heap) :
  let m := resultMap (GameMap.new width height name) h in
  let h' := finalHeap (GameMap.new width height name) h in
  Z.of_nat (length (GameMap.getAllTiles m)) = Z.max 0 width * Z.max 0 height
  /\ (forall c, GameMap.isInBounds m c = true <-> inRegion width height c)
  /\ GameMap.width m = width /\ GameMap.height m = height /\ GameMap.name m = name
  /\ GameMap.findCityCenter h' m = None.
Proof.
  intros m h'. unfold m, h', resultMap, completion, finalHeap.
  rewrite GameMap_new_run. cbn [fst snd]. split_and!; try reflexivity.
  - unfold GameMap.getAllTiles. cbn [GameMap.tiles].
    rewrite newEntries_values, length_seq. apply length_region.
  - intros c. unfold GameMap.isInBounds. cbn [GameMap.tiles].
    rewrite JsMap_has_keys, newEntries_keys, <- elem_of_region. split.
    + intros Hin. apply list_elem_of_fmap in Hin as (c' & Heq & Hin).
      apply coordToKey_inj in Heq. by subst.
    + intros Hin. apply list_elem_of_fmap. by exists c.
  - unfold GameMap.findCityCenter. apply find_None_Forall.
    unfold GameMap.getAllTiles. cbn [GameMap.tiles]. rewrite newEntries_values.
    apply Forall_forall. intros l Hl. apply elem_of_seq in Hl.
    destruct (lookup_lt_is_Some_2 (region width height) (l - length (tileObjs h))%nat)
      as [c Hc]; [lia|].
    unfold Tile.isCityCenter.
    replace l with (length (tileObjs h) + (l - length (tileObjs h)))%nat by lia.
    by rewrite (new_tile_fields _ _ _ _ _ c Hc).
Qed.

(** X11.  After [setTile] the tile is found at its own coordinate, which is
    in bounds, and every other coordinate finds what it found before.  A
    tile at a coordinate that was in bounds replaces the old one where its
    entry stands; at a new coordinate it is entered last.  Width, height and
    name are not changed. *)
Theorem X11_setTile_then_getTile (h : Heap) (m : GameMap.t) (tile : loc) (c : HexCoord) :
  let m' := GameMap.setTile h m tile in
  let c0 := coord (tileAt h tile) in
  GameMap.getTile m' c0 = Some tile
  /\ GameMap.isInBounds m' c0 = true
  /\ (c <> c0 -> GameMap.getTile m' c = GameMap.getTile m c)
  /\ (c <> c0 -> GameMap.isInBounds m' c = GameMap.isInBounds m c)
  /\ (GameMap.isInBounds m c0 = true ->
      JsMap.keys (GameMap.getAllTileEntries m') = JsMap.keys (GameMap.getAllTileEntries m))
  /\ (GameMap.isInBounds m c0 = false ->
      GameMap.getAllTileEntries m'
      = GameMap.getAllTileEntries m ++ [(HexUtils.coordToKey c0, tile)])
  /\ GameMap.width m' = GameMap.width m
  /\ GameMap.height m' = GameMap.height m
  /\ GameMap.name m' = GameMap.name m.
Proof.
  intros m' c0. unfold m', GameMap.setTile, GameMap.getTile, GameMap.isInBounds,
    GameMap.getAllTileEntries, JsMap.has.
  cbn [GameMap.tiles GameMap.with_tiles]. fold c0.
  split_and!; try reflexivity.
  - apply JsMap_get_set_eq.
  - by rewrite JsMap_get_set_eq.
  - intros Hc. apply JsMap_get_set_ne. intros Heq. apply coordToKey_inj in Heq. done.
  - intros Hc. rewrite JsMap_get_set_ne; [done|].
    intros Heq. apply coordToKey_inj in Heq. done.
  - intros Hin. rewrite JsMap_keys_set. rewrite bool_decide_eq_true_2; [done|].
    apply JsMap_has_keys. exact Hin.
  - intros Hout. apply JsMap_set_fresh. intros Hin.
    apply JsMap_has_keys in Hin. unfold JsMap.has in Hin. congruence.
Qed.

Lemma NoDup_omap_inj {A B} (f : A -> option B) (l : list A) :
  (forall x y z, x ∈ l -> y ∈ l -> f x = Some z -> f y = Some z -> x = y) ->
  NoDup l -> NoDup (omap f l).
Proof.
  induction l as [|a l IH]; intros Hinj Hnd; csimpl; [apply NoDup_nil_2|].
  apply NoDup_cons in Hnd as [Ha Hnd].
  assert (NoDup (omap f l)) as IH'.
  { apply IH; [|done]. intros x y z Hx Hy. apply Hinj; apply elem_of_cons; by right. }
  destruct (f a) as [b|] eqn:Hfa; [|done].
  apply NoDup_cons. split; [|done].
  intros Hb. apply list_elem_of_omap in Hb as (x & Hx & Hfx).
  apply Ha. rewrite (Hinj a x b); [done|apply elem_of_cons; by left
                                  |apply elem_of_cons; by right|done|done].
Qed.

Lemma length_omap_le {A B} (f : A -> option B) (l : list A) :
  (length (omap f l) <= length l)%nat.
Proof. induction l as [|a l IH]; csimpl; [lia|]. destruct (f a); csimpl; lia. Qed.

Lemma elem_of_tiles_at (h : Heap) (m : GameMap.t) (cs : list HexCoord) (l : loc) :
  map_keyed h m ->
  l ∈ omap (GameMap.getTile m) cs
  <-> l ∈ GameMap.getAllTiles m /\ coord (tileAt h l) ∈ cs.
Proof.
  intros Hk. rewrite list_elem_of_omap. split.
  - intros (c & Hc & Hget). split; [by eapply getTile_in_tiles|].
    by rewrite (getTile_keyed_coord h m c l Hk Hget).
  - intros [Hin Hc]. exists (coord (tileAt h l)). split; [done|].
    by apply keyed_getTile.
Qed.

Lemma NoDup_tiles_at (h : Heap) (m : GameMap.t) (cs : list HexCoord) :
  map_keyed h m -> NoDup cs -> NoDup (omap (GameMap.getTile m) cs).
Proof.
  intros Hk Hnd. apply NoDup_omap_inj; [|done].
  intros c1 c2 l _ _ H1 H2.
  rewrite <- (getTile_keyed_coord h m c1 l Hk H1).
  by rewrite <- (getTile_keyed_coord h m c2 l Hk H2).
Qed.

(** X12.  On a grid whose tiles stand under the keys of their coordinates,
    the tiles in range of a coordinate are exactly the tiles of the grid
    whose coordinate is at distance at most the range, each once; for a
    range n that is not negative there are at most 1 + 3 n (n + 1) of them,
    so a city has at most 37 workable tiles. *)
Theorem X12_tiles_in_range (h : Heap) (m : GameMap.t) (c : HexCoord) (range : Z)
    (l : loc) :
  map_keyed h m ->
  (l ∈ GameMap.getTilesInRange m c range
   <-> l ∈ GameMap.getAllTiles m /\ HexUtils.distance c (coord (tileAt h l)) <= range)
  /\ NoDup (GameMap.getTilesInRange m c range)
  /\ (0 <= range ->
      Z.of_nat (length (GameMap.getTilesInRange m c range)) <= 1 + 3 * range * (range + 1))
  /\ (l ∈ GameMap.getCityWorkableTiles m c
      <-> l ∈ GameMap.getAllTiles m /\ HexUtils.distance c (coord (tileAt h l)) <= 3)
  /\ (length (GameMap.getCityWorkableTiles m c) <= 37)%nat.
Proof.
  intros Hk. unfold GameMap.getCityWorkableTiles, GameMap.getTilesInRange. split_and!.
  - by rewrite (elem_of_tiles_at h), elem_of_getHexesInRange.
  - apply (NoDup_tiles_at h); [done|]. apply NoDup_getHexesInRange.
  - intros Hr. rewrite <- (length_getHexesInRange c range) by done.
    apply inj_le, length_omap_le.
  - by rewrite (elem_of_tiles_at h), elem_of_getHexesInRange.
  - etrans; [apply length_omap_le|].
    pose proof (length_getHexesInRange c 3 ltac:(lia)). lia.
Qed.

Lemma X12_tiles_in_range_witness :
  let h := finalHeap hubScenario emptyHeap in
  let m := resultMap hubScenario emptyHeap in
  (0%nat ∈ GameMap.getTilesInRange m (mkHexCoord 1 1) 1
   <-> 0%nat ∈ GameMap.getAllTiles m
       /\ HexUtils.distance (mkHexCoord 1 1) (coord (tileAt h 0%nat)) <= 1)
  /\ NoDup (GameMap.getTilesInRange m (mkHexCoord 1 1) 1)
  /\ (0 <= 1 ->
      Z.of_nat (length (GameMap.getTilesInRange m (mkHexCoord 1 1) 1)) <= 1 + 3 * 1 * (1 + 1))
  /\ (0%nat ∈ GameMap.getCityWorkableTiles m (mkHexCoord 1 1)
      <-> 0%nat ∈ GameMap.getAllTiles m
          /\ HexUtils.distance (mkHexCoord 1 1) (coord (tileAt h 0%nat)) <= 3)
  /\ (length (GameMap.getCityWorkableTiles m (mkHexCoord 1 1)) <= 37)%nat.
Proof.
  apply (X12_tiles_in_range (finalHeap hubScenario emptyHeap)
           (resultMap hubScenario emptyHeap) (mkHexCoord 1 1) 1 0%nat).
  compute_done.
Defined.

(** X13.  On such a grid the neighbour tiles of a coordinate are exactly the
    tiles of the grid at distance 1 from it, each once, at most six. *)
Theorem X13_neighbor_tiles (h : Heap) (m : GameMap.t) (c : HexCoord) (l : loc) :
  map_keyed h m ->
  (l ∈ GameMap.getNeighborTiles m c
   <-> l ∈ GameMap.getAllTiles m /\ HexUtils.distance c (coord (tileAt h l)) = 1)
  /\ NoDup (GameMap.getNeighborTiles m c)
  /\ (length (GameMap.getNeighborTiles m c) <= 6)%nat.
Proof.
  intros Hk. unfold GameMap.getNeighborTiles.
  destruct (neighbors_distance_1 c) as (Hlen & Hnd & Hin). split_and!.
  - by rewrite (elem_of_tiles_at h), Hin.
  - by apply (NoDup_tiles_at h).
  - etrans; [apply length_omap_le|]. by rewrite Hlen.
Qed.

Lemma X13_neighbor_tiles_witness :
  let h := finalHeap hubScenario emptyHeap in
  let m := resultMap hubScenario emptyHeap in
  (3%nat ∈ GameMap.getNeighborTiles m (mkHexCoord 1 1)
   <-> 3%nat ∈ GameMap.getAllTiles m
       /\ HexUtils.distance (mkHexCoord 1 1) (coord (tileAt h 3%nat)) = 1)
  /\ NoDup (GameMap.getNeighborTiles m (mkHexCoord 1 1))
  /\ (length (GameMap.getNeighborTiles m (mkHexCoord 1 1)) <= 6)%nat.
Proof.
  apply (X13_neighbor_tiles (finalHeap hubScenario emptyHeap)
           (resultMap hubScenario emptyHeap) (mkHexCoord 1 1) 3%nat).
  compute_done.
Defined.

(** ** The mutators of a tile *)

(** Every call, in one equation: it is refused and leaves the store as it
    was, or it rewrites the fields of the tile and the elements of its
    river-edge set. *)
Lemma call_run (ts : list TileFields) (ss : list (list Z)) (this : loc) (c : MutatorCall) :
  call this c (mkHeap ts ss)
  = match refusal (tileAt (mkHeap ts ss) this) c with
    | Some e => (Throw e, mkHeap ts ss)
    | None =>
        (Normal this,
         mkHeap (alter (fun t => tileEffect c t) this ts)
                (alter (fun s => edgesEffect c s)
                       (_riverEdges (tileAt (mkHeap ts ss) this)) ss))
    end.
Proof.
  assert (forall (A : Type) (l : list A) i, alter (fun x => x) i l = l) as Hid.
  { intros A l i. by apply list_alter_id. }
  destruct c; simpl.
  - unfold Tile.setTerrain. run_M.
    rewrite Hid.
    repeat (case_bool_decide; simpl); rewrite ?list_alter_alter_eq;
      try reflexivity; congruence.
  - unfold Tile.setFeature. run_M. rewrite Hid.
    case_bool_decide; simpl; [reflexivity|].
    destruct (includes _ _); simpl; reflexivity.
  - unfold Tile.setDistrict. run_M. rewrite Hid.
    repeat (case_bool_decide; simpl); rewrite ?list_alter_alter_eq;
      try reflexivity; try congruence.
  - unfold Tile.setWonder. run_M. rewrite Hid.
    case_bool_decide; simpl; rewrite ?list_alter_alter_eq; reflexivity.
  - unfold Tile.setImprovement. run_M. rewrite Hid.
    repeat (case_bool_decide; simpl); reflexivity.
  - unfold Tile.addRiverEdge, JsSet.add. run_M. rewrite Hid.
    destruct (edge <? 0), (5 <? edge); simpl; reflexivity.
  - unfold Tile.removeRiverEdge, JsSet.delete. run_M. by rewrite Hid.
  - unfold Tile.setOwner. run_M. rewrite Hid.
    destruct isCityCenter; simpl; rewrite ?list_alter_alter_eq; reflexivity.
Qed.

Lemma call_completion (h : Heap) (this : loc) (c : MutatorCall) :
  completion (call this c) h
  = match refusal (tileAt h this) c with Some e => Throw e | None => Normal this end.
Proof.
  destruct h as [ts ss]. unfold completion. rewrite call_run.
  by destruct (refusal _ c).
Qed.

Lemma call_refused (h : Heap) (this : loc) (c : MutatorCall) (e : Exn) :
  refusal (tileAt h this) c = Some e -> finalHeap (call this c) h = h.
Proof.
  destruct h as [ts ss]. unfold finalHeap. rewrite call_run. by intros ->.
Qed.

Lemma call_tileAt (h : Heap) (this : loc) (c : MutatorCall) (l : loc) :
  refusal (tileAt h this) c = None ->
  tileAt (finalHeap (call this c) h) l
  = if decide (this = l /\ (l < length (tileObjs h))%nat)
    then tileEffect c (tileAt h l) else tileAt h l.
Proof.
  destruct h as [ts ss]. unfold finalHeap. rewrite call_run. intros ->. cbn [snd].
  exact (tileAt_alter (fun t => tileEffect c t) ts _ this l).
Qed.

Lemma call_setAt (h : Heap) (this : loc) (c : MutatorCall) (e : loc) :
  refusal (tileAt h this) c = None ->
  setAt (finalHeap (call this c) h) e
  = if decide (_riverEdges (tileAt h this) = e /\ (e < length (setObjs h))%nat)
    then edgesEffect c (setAt h e) else setAt h e.
Proof.
  destruct h as [ts ss]. unfold finalHeap. rewrite call_run. intros ->. cbn [snd].
  exact (setAt_alter (fun s => edgesEffect c s) _ ss _ e).
Qed.

Lemma call_lengths (h : Heap) (this : loc) (c : MutatorCall) :
  length (tileObjs (finalHeap (call this c) h)) = length (tileObjs h)
  /\ length (setObjs (finalHeap (call this c) h)) = length (setObjs h).
Proof.
  destruct h as [ts ss]. unfold finalHeap. rewrite call_run.
  destruct (refusal _ c); cbn [snd tileObjs setObjs]; [done|].
  by rewrite !length_alter.
Qed.

Lemma tileEffect_shape (c : MutatorCall) (t : TileFields) :
  coord (tileEffect c t) = coord t /\ _riverEdges (tileEffect c t) = _riverEdges t.
Proof.
  destruct c; simpl; try done.
  - by destruct (district !== DistrictType.NONE).
  - by destruct (wonder !== WonderType.NONE).
  - by destruct isCityCenter.
Qed.

Lemma refusal_refused (h : Heap) (this : loc) (c : MutatorCall) :
  refusal (tileAt h this) c <> None <-> refused h this c.
Proof.
  destruct c; simpl;
    unfold Tile.terrain, Tile.isMountain, Tile.isWater, Tile.hasDistrict, Tile.hasWonder,
      includes.
  - repeat (case_bool_decide; simpl); split; try done; try tauto; intros [[?|?] [?|?]]; congruence.
  - repeat (case_bool_decide; simpl); split; try done; tauto.
  - repeat (case_bool_decide; simpl); split; try done; try tauto;
      try (intros [? [?|[? [? ?]]]]); try congruence; try discriminate.
  - split; [done|tauto].
  - repeat (case_bool_decide; simpl); split; try done; try tauto.
    intros [?|?]; discriminate.
  - destruct (Z.ltb_spec edge 0), (Z.ltb_spec 5 edge); simpl; split; try done; try tauto; lia.
  - split; [done|tauto].
  - split; [done|tauto].
Qed.

(** X14.  Which calls a tile refuses.  A call throws exactly if: it puts
    Mountain or Hills on Coast or Ocean; it places a feature other than NONE
    whose valid terrains do not include the tile's terrain; it places a
    district other than NONE on a Mountain tile, or one other than NONE,
    Harbor and Water Park on a water tile; it sets an improvement (were it
    NONE) on a tile with a district or a wonder; it adds a river edge
    outside 0..5.  [setWonder], [removeRiverEdge] and [setOwner] never
    throw.  A refused call leaves the store as it was; any other call
    returns the tile. *)
Theorem X14_which_calls_a_tile_refuses (h : Heap) (this : loc) (c : MutatorCall) :
  (throws (call this c) h <-> refused h this c)
  /\ (refused h this c -> finalHeap (call this c) h = h)
  /\ (~ refused h this c -> completion (call this c) h = Normal this).
Proof.
  pose proof (refusal_refused h this c) as Href.
  unfold throws. rewrite call_completion.
  destruct (refusal (tileAt h this) c) as [e|] eqn:Hr.
  - assert (refused h this c) as Hyes by (by apply Href).
    split_and!; [split; [done|eauto]|intros _; by eapply call_refused|done].
  - assert (~ refused h this c) as Hno by (intros Hyes; by apply Href in Hyes).
    split_and!; [split; [by intros [e ?]|done]|done|done].
Qed.

Lemma refusal_effect (c : MutatorCall) (t : TileFields) :
  refusal t c = None -> refusal (tileEffect c t) c = None.
Proof.
  destruct c; simpl; try done.
  destruct (district !== DistrictType.NONE); simpl; done.
Qed.

Lemma tileEffect_idemp (c : MutatorCall) (t : TileFields) :
  tileEffect c (tileEffect c t) = tileEffect c t.
Proof.
  destruct c; simpl; try done.
  - by destruct (district !== DistrictType.NONE).
  - by destruct (wonder !== WonderType.NONE).
  - by destruct isCityCenter.
Qed.

Lemma delete_elem_idemp (x : Z) (s : list Z) :
  JsSet.delete_elem x (JsSet.delete_elem x s) = JsSet.delete_elem x s.
Proof.
  unfold JsSet.delete_elem. induction s as [|y s IH]; [done|].
  rewrite filter_cons. destruct (decide (y ≠ x)) as [Hy|Hy]; [|done].
  rewrite filter_cons, decide_True by done. by rewrite IH.
Qed.

Lemma add_elem_idemp (x : Z) (s : list Z) :
  JsSet.add_elem x (JsSet.add_elem x s) = JsSet.add_elem x s.
Proof.
  unfold JsSet.add_elem at 1. rewrite bool_decide_eq_true_2; [done|].
  apply add_elem_elem_of. by left.
Qed.

Lemma edgesEffect_idemp (c : MutatorCall) (s : list Z) :
  edgesEffect c (edgesEffect c s) = edgesEffect c s.
Proof.
  destruct c; simpl; try done; [apply add_elem_idemp|apply delete_elem_idemp].
Qed.

Lemma heap_eq (h h' : Heap) :
  length (tileObjs h') = length (tileObjs h) ->
  length (setObjs h') = length (setObjs h) ->
  (forall l, tileAt h' l = tileAt h l) ->
  (forall e, setAt h' e = setAt h e) ->
  h' = h.
Proof.
  destruct h as [ts ss], h' as [ts' ss']. simpl. intros Ht Hs Htile Hset. f_equal.
  - apply list_eq. intros i. specialize (Htile i). unfold tileAt in Htile. simpl in Htile.
    destruct (ts' !! i) as [t'|] eqn:H1, (ts !! i) as [t|] eqn:H2; simpl in *;
      try congruence.
    + apply lookup_lt_Some in H1. apply lookup_ge_None in H2. lia.
    + apply lookup_lt_Some in H2. apply lookup_ge_None in H1. lia.
  - apply list_eq. intros i. specialize (Hset i). unfold setAt in Hset. simpl in Hset.
    destruct (ss' !! i) as [s'|] eqn:H1, (ss !! i) as [s|] eqn:H2; simpl in *;
      try congruence.
    + apply lookup_lt_Some in H1. apply lookup_ge_None in H2. lia.
    + apply lookup_lt_Some in H2. apply lookup_ge_None in H1. lia.
Qed.

(** X15.  Every mutator is idempotent: the same call made again ends the
    same way and leaves the store as the first call left it. *)
Theorem X15_mutators_are_idempotent (h : Heap) (this : loc) (c : MutatorCall) :
  let h' := finalHeap (call this c) h in
  completion (call this c) h' = completion (call this c) h
  /\ finalHeap (call this c) h' = h'.
Proof.
  intros h'. destruct (refusal (tileAt h this) c) as [e|] eqn:Hr.
  - assert (h' = h) as -> by (by eapply call_refused).
    split; [done|by eapply call_refused].
  - assert (refusal (tileAt h' this) c = None) as Hr'.
    { unfold h'. rewrite call_tileAt by done.
      destruct (decide _); [by apply refusal_effect|done]. }
    split; [by rewrite !call_completion, Hr, Hr'|].
    destruct (call_lengths h' this c) as [Ht Hs].
    destruct (call_lengths h this c) as [Ht0 Hs0]. fold h' in Ht0, Hs0.
    assert (_riverEdges (tileAt h' this) = _riverEdges (tileAt h this)) as He.
    { unfold h'. rewrite call_tileAt by done.
      destruct (decide _); [apply tileEffect_shape|done]. }
    apply heap_eq; [done|done|..].
    + intros l. rewrite call_tileAt by done. unfold h'. rewrite call_tileAt by done.
      fold h'. rewrite Ht0.
      destruct (decide _); [|done]. apply tileEffect_idemp.
    + intros s. rewrite call_setAt by done. unfold h'. rewrite call_setAt by done.
      fold h'. rewrite He, Hs0.
      destruct (decide _); [|done]. apply edgesEffect_idemp.
Qed.

Lemma call_other_tile (h : Heap) (this that : loc) (c : MutatorCall) :
  heap_wf h ->
  (this < length (tileObjs h))%nat -> (that < length (tileObjs h))%nat ->
  that <> this ->
  Tile.toJSON (finalHeap (call that c) h) this = Tile.toJSON h this.
Proof.
  intros [Ha Hnd] Hthis Hthat Hne.
  destruct (refusal (tileAt h that) c) as [e|] eqn:Hr.
  - by rewrite (call_refused h that c e).
  - unfold Tile.toJSON, JsSet.values. rewrite call_tileAt by done.
    rewrite decide_False by (intros [? _]; done).
    rewrite call_setAt by done. rewrite decide_False; [done|].
    intros [Heq _]. apply Hne.
    destruct (lookup_lt_is_Some_2 _ _ Hthis) as [t1 H1].
    destruct (lookup_lt_is_Some_2 _ _ Hthat) as [t2 H2].
    rewrite (tileAt_lookup h this t1 H1), (tileAt_lookup h that t2 H2) in Heq.
    apply (NoDup_lookup (_riverEdges <$> tileObjs h) that this (_riverEdges t2)); [done|..].
    + by rewrite list_lookup_fmap, H2.
    + by rewrite list_lookup_fmap, H1, Heq.
Qed.


(** X16.  A call on one tile changes nothing that another tile
    serializes, in a store where every tile has a river-edge set of its
    own. *)
Theorem X16_call_leaves_other_tiles (h : Heap) (this that : loc) (c : MutatorCall) :
  heap_wf h ->
  (this < length (tileObjs h))%nat -> (that < length (tileObjs h))%nat ->
  that <> this ->
  Tile.toJSON (finalHeap (call that c) h) this = Tile.toJSON h this.
Proof.
  apply call_other_tile.
Qed.

Lemma X16_call_leaves_other_tiles_witness :
  let h := finalHeap hubScenario emptyHeap in
  Tile.toJSON (finalHeap (call 4%nat (CallAddRiverEdge 3)) h) 1%nat = Tile.toJSON h 1%nat.
Proof.
  apply (X16_call_leaves_other_tiles (finalHeap hubScenario emptyHeap) 1%nat 4%nat
           (CallAddRiverEdge 3)); compute_done.
Defined.

(** X17.  No call other than [setOwner] with [isCityCenter] puts an
    improvement next to a district or a wonder: a tile that had none of the
    two beside its improvement has none after the call, whichever tile the
    call was made on.  [setOwner] with [isCityCenter] does: a farm made the
    city center keeps the farm under the City Center district. *)
Theorem X17_improvement_excludes_district_and_wonder
    (h : Heap) (this l : loc) (c : MutatorCall) :
  (match c with CallSetOwner _ true => False | _ => True end ->
   improvement_ok h l -> improvement_ok (finalHeap (call this c) h) l)
  /\ completion farmCity emptyHeap = Normal 0%nat
  /\ ~ improvement_ok (finalHeap farmCity emptyHeap) 0%nat.
Proof.
  split_and!.
  - intros Hc Hok. destruct (refusal (tileAt h this) c) as [e|] eqn:Hr.
    + by rewrite (call_refused h this c e).
    + revert Hok. unfold improvement_ok, Tile.improvement, Tile.hasDistrict, Tile.hasWonder.
      rewrite call_tileAt by done. destruct (decide _) as [[-> _]|_]; [|done].
      destruct c; simpl in *; try done.
      * repeat (case_bool_decide; simpl); try done; try tauto.
      * repeat (case_bool_decide; simpl); try done; try tauto.
      * revert Hr. repeat (case_bool_decide; simpl); try done; try tauto.
      * destruct isCityCenter; [done|]. simpl. done.
  - reflexivity.
  - unfold improvement_ok. compute. intros Hok. by destruct Hok.
Qed.

(** X18.  Hills and mountains never come to stand on water: a water tile
    that was flat is flat after any call on any tile. *)
Theorem X18_water_stays_flat (h : Heap) (this l : loc) (c : MutatorCall) :
  water_is_flat h l -> water_is_flat (finalHeap (call this c) h) l.
Proof.
  intros Hok. destruct (refusal (tileAt h this) c) as [e|] eqn:Hr.
  - by rewrite (call_refused h this c e).
  - revert Hok. unfold water_is_flat, Tile.isWater, Tile.modifier.
    rewrite call_tileAt by done. destruct (decide _) as [[-> _]|_]; [|done].
    destruct c; simpl in *; try done.
    + revert Hr. destruct modifier; repeat (case_bool_decide; simpl); try done.
    + by destruct (district !== DistrictType.NONE).
    + by destruct (wonder !== WonderType.NONE).
    + by destruct isCityCenter.
Qed.

Lemma X18_water_stays_flat_witness :
  let h := finalHeap hubScenario emptyHeap in
  water_is_flat (finalHeap (call 4%nat (CallSetTerrain TerrainType.COAST TerrainModifier.FLAT)) h)
    4%nat.
Proof.
  apply (X18_water_stays_flat (finalHeap hubScenario emptyHeap) 4%nat 4%nat
           (CallSetTerrain TerrainType.COAST TerrainModifier.FLAT)).
  compute_done.
Defined.





(** ** River edges, and tiles from data *)

Lemma delete_elem_absent (x : Z) (s : list Z) : x ∉ s -> JsSet.delete_elem x s = s.
Proof.
  unfold JsSet.delete_elem. induction s as [|y s IH]; [done|].
  rewrite not_elem_of_cons. intros [Hne Hx].
  rewrite filter_cons, decide_True by done. by rewrite IH.
Qed.

Lemma delete_add_absent (x : Z) (s : list Z) :
  x ∉ s -> JsSet.delete_elem x (JsSet.add_elem x s) = s.
Proof.
  intros Hx. unfold JsSet.add_elem. rewrite bool_decide_eq_false_2 by done.
  unfold JsSet.delete_elem. rewrite filter_app, filter_cons, decide_False by (by intros ?).
  rewrite filter_nil, app_nil_r. by apply delete_elem_absent.
Qed.

(** X20.  River edges of an allocated tile.  After [addRiverEdge] with an
    edge from 0 to 5 the tile has that edge beside those it had, and has a
    river; after [removeRiverEdge] it has the edges it had except that one.
    Removing an edge the tile has not changes nothing in the store, and
    adding a new edge and removing it again gives back the tile as it
    serialized before. *)
Theorem X20_river_edges_add_and_remove (h : Heap) (this : loc) (edge : Z) :
  allocated h this ->
  let edges (h0 : Heap) := JsSet.values h0 (_riverEdges (tileAt h0 this)) in
  let hadd := finalHeap (Tile.addRiverEdge this edge) h in
  let hrem := finalHeap (Tile.removeRiverEdge this edge) h in
  (0 <= edge <= 5 ->
     (forall e, e ∈ edges hadd <-> e = edge \/ e ∈ edges h)
     /\ Tile.hasRiver hadd this = true)
  /\ (forall e, e ∈ edges hrem <-> e <> edge /\ e ∈ edges h)
  /\ (edge ∉ edges h -> hrem = h)
  /\ (0 <= edge <= 5 -> edge ∉ edges h ->
      Tile.toJSON (finalHeap (Tile.removeRiverEdge this edge) hadd) this
      = Tile.toJSON h this).
Proof.
  intros [Hl Hs] edges hadd hrem.
  change (Tile.addRiverEdge this edge) with (call this (CallAddRiverEdge edge)) in *.
  change (Tile.removeRiverEdge this edge) with (call this (CallRemoveRiverEdge edge)) in *.
  assert (forall t, 0 <= edge <= 5 -> refusal t (CallAddRiverEdge edge) = None) as Hadd.
  { intros t He. simpl.
    destruct (Z.ltb_spec edge 0), (Z.ltb_spec 5 edge); simpl; try done; lia. }
  assert (forall t, refusal t (CallRemoveRiverEdge edge) = None) as Hrem by done.
  assert (0 <= edge <= 5 ->
          tileAt hadd this = tileAt h this
          /\ edges hadd = JsSet.add_elem edge (edges h)) as Hafter.
  { intros He. unfold edges, JsSet.values, hadd.
    rewrite call_tileAt by auto. rewrite decide_True by done.
    rewrite call_setAt by auto. rewrite decide_True by done. done. }
  assert (tileAt hrem this = tileAt h this
          /\ edges hrem = JsSet.delete_elem edge (edges h)) as [Htr Her].
  { unfold edges, JsSet.values, hrem.
    rewrite call_tileAt by auto. rewrite decide_True by done.
    rewrite call_setAt by auto. rewrite decide_True by done. done. }
  split_and!.
  - intros He. destruct (Hafter He) as [Hta Hea]. split.
    + intros e. rewrite Hea. apply add_elem_elem_of.
    + unfold Tile.hasRiver, JsSet.size. fold (JsSet.values hadd (_riverEdges (tileAt hadd this))).
      fold (edges hadd). rewrite Hea.
      assert (edge ∈ JsSet.add_elem edge (edges h)) as Hin
        by (apply add_elem_elem_of; by left).
      destruct (JsSet.add_elem edge (edges h)); [by apply elem_of_nil in Hin|].
      simpl length. apply Z.ltb_lt. lia.
  - intros e. rewrite Her. apply delete_elem_elem_of.
  - intros Hout. destruct (call_lengths h this (CallRemoveRiverEdge edge)) as [Ht Hss].
    apply heap_eq; [done|done|..].
    + intros l. unfold hrem. rewrite call_tileAt by auto. by destruct (decide _).
    + intros e. unfold hrem. rewrite call_setAt by auto.
      destruct (decide _) as [[<- _]|_]; [|done]. by apply delete_elem_absent.
  - intros He Hout. destruct (Hafter He) as [Hta Hea].
    destruct (call_lengths h this (CallAddRiverEdge edge)) as [Ht Hss].
    fold hadd in Ht, Hss.
    unfold Tile.toJSON, JsSet.values.
    rewrite call_tileAt by auto. rewrite decide_True by (split; [done|lia]).
    simpl tileEffect. rewrite Hta.
    rewrite call_setAt by auto. rewrite Hta. rewrite decide_True by (split; [done|lia]).
    simpl edgesEffect. fold (JsSet.values hadd (_riverEdges (tileAt h this))).
    replace (JsSet.values hadd (_riverEdges (tileAt h this))) with (edges hadd)
      by (unfold edges; by rewrite Hta).
    rewrite Hea, delete_add_absent by done. done.
Qed.

Lemma X20_river_edges_add_and_remove_witness :
  let h := finalHeap hubScenario emptyHeap in
  let edges (h0 : Heap) := JsSet.values h0 (_riverEdges (tileAt h0 4%nat)) in
  let hadd := finalHeap (Tile.addRiverEdge 4%nat 3) h in
  let hrem := finalHeap (Tile.removeRiverEdge 4%nat 3) h in
  (0 <= 3 <= 5 ->
     (forall e, e ∈ edges hadd <-> e = 3 \/ e ∈ edges h)
     /\ Tile.hasRiver hadd 4%nat = true)
  /\ (forall e, e ∈ edges hrem <-> e <> 3 /\ e ∈ edges h)
  /\ (3 ∉ edges h -> hrem = h)
  /\ (0 <= 3 <= 5 -> 3 ∉ edges h ->
      Tile.toJSON (finalHeap (Tile.removeRiverEdge 4%nat 3) hadd) 4%nat
      = Tile.toJSON h 4%nat).
Proof.
  apply (X20_river_edges_add_and_remove (finalHeap hubScenario emptyHeap) 4%nat 3).
  compute_done.
Defined.

(** X21.  [Tile.fromJSON] never throws.  It allocates one new tile and
    changes no object that was there; the new tile serializes as the data
    with the river edges listed once each, in the order of their first
    occurrence -- as the data itself if no edge is listed twice; and a
    store in which every tile has a river-edge set of its own stays such a
    store. *)
Theorem X21_tile_fromJSON_then_toJSON (data : TileData.t) (h : Heap) :
  let h' := finalHeap (Tile.fromJSON data) h in
  let tile := length (tileObjs h) in
  completion (Tile.fromJSON data) h = Normal tile
  /\ heap_extends h h'
  /\ length (tileObjs h') = S (length (tileObjs h))
  /\ Tile.toJSON h' tile = reloaded data
  /\ (NoDup (TileData.riverEdges data) -> Tile.toJSON h' tile = data)
  /\ (forall x, x ∈ TileData.riverEdges (Tile.toJSON h' tile)
                <-> x ∈ TileData.riverEdges data)
  /\ (heap_wf h -> heap_wf h').
Proof.
  intros h' tile.
  assert (Tile.toJSON h' tile = reloaded data) as Hjson.
  { unfold h', tile, finalHeap. rewrite Tile_fromJSON_run. cbn [snd].
    unfold Tile.toJSON, JsSet.values. rewrite tileAt_last. cbn -[foldl].
    unfold reloaded. f_equal. apply setAt_second. }
  split_and!.
  - unfold completion. by rewrite Tile_fromJSON_run.
  - apply Tile_fromJSON_extends.
  - unfold h', finalHeap. rewrite Tile_fromJSON_run. cbn [snd tileObjs].
    rewrite length_app. simpl. lia.
  - exact Hjson.
  - intros Hnd. rewrite Hjson. unfold reloaded. rewrite of_list_id by done.
    by destruct data.
  - intros x. rewrite Hjson. unfold reloaded. cbn [TileData.riverEdges].
    apply of_list_elem_of.
  - apply heap_wf_Tile_fromJSON.
Qed.

(** ** Loading a snapshot and saving it again *)

Lemma loadEntries_fresh (ds : list TileData.t) (n : nat) (acc : JsMap.t loc) :
  NoDup (JsMap.keys acc ++ ((fun d => HexUtils.coordToKey (TileData.coord d)) <$> ds)) ->
  loadEntries n ds acc
  = acc ++ imap (fun i d => (HexUtils.coordToKey (TileData.coord d), (n + i)%nat)) ds.
Proof.
  revert n acc. induction ds as [|d ds IH]; intros n acc Hnd; simpl.
  - by rewrite app_nil_r.
  - rewrite fmap_cons in Hnd.
    assert (HexUtils.coordToKey (TileData.coord d) ∉ JsMap.keys acc) as Hfresh.
    { apply NoDup_app in Hnd as (_ & Hdis & _). intros Hin.
      apply (Hdis _ Hin). left. }
    rewrite JsMap_set_fresh by done. rewrite IH.
    + rewrite <- app_assoc. simpl. rewrite Nat.add_0_r. do 2 f_equal.
      apply imap_ext. intros i x _. simpl. f_equal. lia.
    + unfold JsMap.keys. rewrite map_app. simpl. rewrite <- app_assoc. exact Hnd.
Qed.

(** X22.  Loading a snapshot and saving the grid again gives back the
    snapshot, with version 1, if no two of its tiles have the same
    coordinate and no tile lists a river edge twice; the store that was
    there is not changed. *)
Theorem X22_load_then_save (data : GameMapData.t) (h : Heap) :
  NoDup (TileData.coord <$> GameMapData.tiles data) ->
  Forall (fun d => NoDup (TileData.riverEdges d)) (GameMapData.tiles data) ->
  let run := GameMap.fromJSON data in
  heap_extends h (finalHeap run h)
  /\ GameMap.toJSON (finalHeap run h) (resultMap run h) = with_version 1 data.
Proof.
  intros Hndc Hnde run. unfold run, resultMap, completion, finalHeap.
  rewrite GameMap_fromJSON_run. cbn [fst snd]. split.
  - rewrite <- !app_assoc. apply heap_extends_app.
  - set (ds := GameMapData.tiles data) in *.
    set (n := length (region (GameMapData.width data) (GameMapData.height data))).
    unfold GameMap.toJSON, with_version. cbn [GameMap._name GameMap._width GameMap._height].
    f_equal. unfold GameMap.getAllTiles. cbn [GameMap.tiles].
    rewrite loadEntries_fresh.
    2:{ simpl.
        assert ((fun d => HexUtils.coordToKey (TileData.coord d)) <$> ds
                = HexUtils.coordToKey <$> (TileData.coord <$> ds)) as ->
          by apply (list_fmap_compose TileData.coord HexUtils.coordToKey).
        apply NoDup_fmap_2; [|done]. intros c1 c2. apply coordToKey_inj. }
    simpl app. rewrite map_fmap. apply list_eq. intros i.
    rewrite list_lookup_fmap. unfold JsMap.values. rewrite (map_fmap snd).
    rewrite list_lookup_fmap, list_lookup_imap.
    destruct (ds !! i) as [d|] eqn:Hi; simpl; [|done]. f_equal.
    pose proof (loaded_toJSON
      (tileObjs h ++ newTiles (length (setObjs h))
         (region (GameMapData.width data) (GameMapData.height data)))
      (setObjs h ++ replicate n []) ds i d Hi) as Hj.
    unfold newTiles in Hj at 2.
    rewrite !length_app, length_imap, length_replicate in Hj. fold n in Hj.
    rewrite Hj. unfold reloaded.
    pose proof (Forall_lookup_1 _ ds i d Hnde Hi) as Hd. simpl in Hd.
    rewrite of_list_id by done.
    by destruct d.
Qed.

Lemma X22_load_then_save_witness :
  let run := GameMap.fromJSON snapshotV2 in
  heap_extends emptyHeap (finalHeap run emptyHeap)
  /\ GameMap.toJSON (finalHeap run emptyHeap) (resultMap run emptyHeap)
     = with_version 1 snapshotV2.
Proof.
  apply (X22_load_then_save snapshotV2 emptyHeap); compute_done.
Defined.

(** ** Adjacency bonuses *)

Lemma pushIf_app (c : bool) (b : AdjacencyBonus) (bs : list AdjacencyBonus) :
  pushIf c b bs = bs ++ (if c then [b] else []).
Proof. destruct c; simpl; [done|by rewrite app_nil_r]. Qed.

Lemma sumAmounts_app (bs bs' : list AdjacencyBonus) :
  sumAmounts (bs ++ bs') = sumAmounts bs + sumAmounts bs'.
Proof. induction bs as [|b bs IH]; simpl; [done|]. rewrite IH. lia. Qed.

Lemma Yields_get_add (k k' : YieldKey) (n : Z) (y : Yields) :
  Yields_get (Yields_add k n y) k'
  = if bool_decide (k = k') then Yields_get y k' + n else Yields_get y k'.
Proof. destruct k, k'; reflexivity. Qed.

Lemma total_per_key (bs : list AdjacencyBonus) (y : Yields) (k : YieldKey) :
  Yields_get (foldl (fun totalBonus bonus =>
                       Yields_add (yieldType bonus) (amount bonus) totalBonus) y bs) k
  = Yields_get y k + sumAmounts (filter (fun b => yieldType b = k) bs).
Proof.
  revert y. induction bs as [|b bs IH]; intros y; simpl; [lia|].
  rewrite IH, Yields_get_add, filter_cons.
  case_bool_decide; destruct (decide _); try done; simpl; lia.
Qed.

Lemma Yields_ext (y y' : Yields) :
  (forall k, Yields_get y k = Yields_get y' k) -> y = y'.
Proof.
  intros Hk. destruct y, y'.
  pose proof (Hk Kfood). pose proof (Hk Kproduction). pose proof (Hk Kgold).
  pose proof (Hk Kscience). pose proof (Hk Kculture). pose proof (Hk Kfaith).
  simpl in *. congruence.
Qed.

Ltac push_bonuses :=
  unfold pushIf;
  repeat match goal with
         | |- context [0 <? ?x] => destruct (Z.ltb_spec 0 x)
         | |- context [if ?b then _ else _] => destruct b
         end;
  repeat (apply Forall_app; split); try done;
  repeat constructor; simpl; try done; try lia.

Lemma campus_bonuses (h : Heap) (tile : loc) (ns : list loc) (bs : list AdjacencyBonus) :
  Forall (bonus_of DistrictType.CAMPUS) bs ->
  Forall (bonus_of DistrictType.CAMPUS)
         (AdjacencyEngine.calculateCampusAdjacency h tile ns bs).
Proof.
  intros Hbs. unfold AdjacencyEngine.calculateCampusAdjacency.
  destruct (foldl _ _ ns) as [[[[a b] c] d] e]. push_bonuses.
Qed.

Lemma holySite_bonuses (h : Heap) (tile : loc) (ns : list loc) (bs : list AdjacencyBonus) :
  Forall (bonus_of DistrictType.HOLY_SITE) bs ->
  Forall (bonus_of DistrictType.HOLY_SITE)
         (AdjacencyEngine.calculateHolySiteAdjacency h tile ns bs).
Proof.
  intros Hbs. unfold AdjacencyEngine.calculateHolySiteAdjacency.
  destruct (foldl _ _ ns) as [[[a b] c] d]. push_bonuses.
Qed.

Lemma theaterSquare_bonuses (h : Heap) (tile : loc) (ns : list loc)
    (bs : list AdjacencyBonus) :
  Forall (bonus_of DistrictType.THEATER_SQUARE) bs ->
  Forall (bonus_of DistrictType.THEATER_SQUARE)
         (AdjacencyEngine.calculateTheaterSquareAdjacency h tile ns bs).
Proof.
  intros Hbs. unfold AdjacencyEngine.calculateTheaterSquareAdjacency.
  destruct (foldl _ _ ns) as [a b]. push_bonuses.
Qed.

Lemma commercialHub_bonuses (h : Heap) (tile : loc) (ns : list loc)
    (bs : list AdjacencyBonus) :
  Forall (bonus_of DistrictType.COMMERCIAL_HUB) bs ->
  Forall (bonus_of DistrictType.COMMERCIAL_HUB)
         (AdjacencyEngine.calculateCommercialHubAdjacency h tile ns bs).
Proof.
  intros Hbs. unfold AdjacencyEngine.calculateCommercialHubAdjacency.
  destruct (foldl _ _ ns) as [a b]. push_bonuses.
Qed.

Lemma harbor_bonuses (h : Heap) (tile : loc) (ns : list loc) (bs : list AdjacencyBonus) :
  Forall (bonus_of DistrictType.HARBOR) bs ->
  Forall (bonus_of DistrictType.HARBOR)
         (AdjacencyEngine.calculateHarborAdjacency h tile ns bs).
Proof.
  intros Hbs. unfold AdjacencyEngine.calculateHarborAdjacency.
  destruct (foldl _ _ ns) as [[a b] c]. push_bonuses.
Qed.

Lemma industrialZone_bonuses (h : Heap) (tile : loc) (ns : list loc)
    (bs : list AdjacencyBonus) :
  Forall (bonus_of DistrictType.INDUSTRIAL_ZONE) bs ->
  Forall (bonus_of DistrictType.INDUSTRIAL_ZONE)
         (AdjacencyEngine.calculateIndustrialZoneAdjacency h tile ns bs).
Proof.
  intros Hbs. unfold AdjacencyEngine.calculateIndustrialZoneAdjacency.
  destruct (foldl _ _ ns) as [[[[[[a b] c] d] e] f] g]. push_bonuses.
Qed.

Lemma breakdown_bonuses (h : Heap) (m : GameMap.t) (tile : loc) :
  Forall (bonus_of (Tile.district h tile))
         (DistrictAdjacencyResult.bonusBreakdown
            (AdjacencyEngine.calculateDistrictAdjacency h m tile)).
Proof.
  unfold AdjacencyEngine.calculateDistrictAdjacency.
  cbn [DistrictAdjacencyResult.bonusBreakdown].
  set (ns := GameMap.getNeighborTiles m (coord (tileAt h tile))).
  destruct (existsb _ ns);
    destruct (Tile.district h tile) eqn:Hd; cbn [andb DISTRICT_DATA DistrictInfo.isSpecialty
      DistrictInfo.primaryYieldType];
    try apply Forall_nil_2;
    try (apply Forall_app; split; [|repeat constructor]);
    first [ by apply campus_bonuses | by apply holySite_bonuses
          | by apply theaterSquare_bonuses | by apply commercialHub_bonuses
          | by apply harbor_bonuses | by apply industrialZone_bonuses
          | apply Forall_nil_2 | idtac ].
Qed.

Lemma filter_none {A} (P : A -> Prop) `{forall x, Decision (P x)} (l : list A) :
  Forall (fun x => ~ P x) l -> filter P l = [].
Proof.
  induction 1 as [|x l Hx _ IH]; [done|].
  by rewrite filter_cons, decide_False.
Qed.

Lemma filter_all {A} (P : A -> Prop) `{forall x, Decision (P x)} (l : list A) :
  Forall P l -> filter P l = l.
Proof.
  induction 1 as [|x l Hx _ IH]; [done|].
  by rewrite filter_cons, decide_True, IH.
Qed.

(** X23.  The breakdown of a district's adjacency.  Every bonus in it is a
    positive amount of the primary yield of the tile's district, booked
    under that district; each field of the total is the sum of the amounts
    of the bonuses of that yield, so no field is negative, every field but
    the primary one is 0, and the total is zero exactly if the breakdown is
    empty. *)
Theorem X23_adjacency_breakdown (h : Heap) (this_map : GameMap.t) (tile : loc) :
  let res := AdjacencyEngine.calculateDistrictAdjacency h this_map tile in
  let d := Tile.district h tile in
  let total := DistrictAdjacencyResult.totalBonus res in
  let breakdown := DistrictAdjacencyResult.bonusBreakdown res in
  Forall (bonus_of d) breakdown
  /\ (forall k, Yields_get total k
                = sumAmounts (filter (fun b => yieldType b = k) breakdown))
  /\ (forall k, 0 <= Yields_get total k)
  /\ (forall k, DistrictInfo.primaryYieldType (DISTRICT_DATA d) <> Some k ->
                Yields_get total k = 0)
  /\ (breakdown = [] <-> total = EMPTY_YIELDS).
Proof.
  intros res d total breakdown.
  pose proof (breakdown_bonuses h this_map tile) as Hall. fold d res breakdown in Hall.
  assert (forall k, Yields_get total k
                    = sumAmounts (filter (fun b => yieldType b = k) breakdown)) as Hsum.
  { intros k. unfold total, res, AdjacencyEngine.calculateDistrictAdjacency.
    cbn [DistrictAdjacencyResult.totalBonus]. rewrite total_per_key.
    destruct k; reflexivity. }
  assert (forall bs, Forall (bonus_of d) bs -> 0 <= sumAmounts bs) as Hpos.
  { induction 1 as [|b bs (Hb & _) _ IH]; simpl; lia. }
  assert (forall k, Forall (bonus_of d) (filter (fun b => yieldType b = k) breakdown))
    as Hfilter.
  { intros k. apply Forall_forall. intros b Hb. apply list_elem_of_filter in Hb as [_ Hb].
    rewrite Forall_forall in Hall. by apply Hall. }
  split_and!; [done|done|..].
  - intros k. rewrite Hsum. apply Hpos, Hfilter.
  - intros k Hk. rewrite Hsum. rewrite filter_none; [done|].
    eapply Forall_impl; [exact Hall|]. intros b (_ & _ & Hb) Heq. apply Hk.
    by rewrite Hb, Heq.
  - split.
    + intros Hnil. apply Yields_ext. intros k. rewrite Hsum, Hnil. by destruct k.
    + intros Htot. destruct breakdown as [|b bs] eqn:Hbs; [done|]. exfalso.
      apply Forall_cons in Hall as [(Hb & _ & _) Hrest].
      pose proof (Hsum (yieldType b)) as Hk. rewrite Htot in Hk.
      rewrite filter_cons, decide_True in Hk by done. simpl in Hk.
      assert (0 <= sumAmounts (filter (fun b0 => yieldType b0 = yieldType b) bs)).
      { apply Hpos. apply Forall_forall. intros b0 Hb0.
        apply list_elem_of_filter in Hb0 as [_ Hb0].
        rewrite Forall_forall in Hrest. by apply Hrest. }
      destruct (yieldType b); simpl in Hk; lia.
Qed.

(** *** The counters of the loops over the neighbours *)

Ltac tuple_eq :=
  repeat match goal with |- (_, _) = (_, _) => apply (f_equal2 pair) end; lia.

Lemma count_loop3 (p1 p2 p3 : loc -> bool) (ns : list loc) (a1 a2 a3 : Z) :
  foldl (fun '(c1, c2, c3) n => (incrIf (p1 n) c1, incrIf (p2 n) c2, incrIf (p3 n) c3))
        (a1, a2, a3) ns
  = (a1 + countWhere p1 ns, a2 + countWhere p2 ns, a3 + countWhere p3 ns).
Proof.
  revert a1 a2 a3. induction ns as [|n ns IH]; intros a1 a2 a3; simpl.
  - unfold countWhere. simpl. tuple_eq.
  - rewrite IH, !countWhere_cons. unfold incrIf.
    destruct (p1 n), (p2 n), (p3 n); tuple_eq.
Qed.

Lemma count_loop4 (p1 p2 p3 p4 : loc -> bool) (ns : list loc) (a1 a2 a3 a4 : Z) :
  foldl (fun '(c1, c2, c3, c4) n =>
           (incrIf (p1 n) c1, incrIf (p2 n) c2, incrIf (p3 n) c3, incrIf (p4 n) c4))
        (a1, a2, a3, a4) ns
  = (a1 + countWhere p1 ns, a2 + countWhere p2 ns, a3 + countWhere p3 ns,
     a4 + countWhere p4 ns).
Proof.
  revert a1 a2 a3 a4. induction ns as [|n ns IH]; intros a1 a2 a3 a4; simpl.
  - unfold countWhere. simpl. tuple_eq.
  - rewrite IH, !countWhere_cons. unfold incrIf.
    destruct (p1 n), (p2 n), (p3 n), (p4 n); tuple_eq.
Qed.

Lemma count_loop5 (p1 p2 p3 p4 p5 : loc -> bool) (ns : list loc) (a1 a2 a3 a4 a5 : Z) :
  foldl (fun '(c1, c2, c3, c4, c5) n =>
           (incrIf (p1 n) c1, incrIf (p2 n) c2, incrIf (p3 n) c3, incrIf (p4 n) c4,
            incrIf (p5 n) c5))
        (a1, a2, a3, a4, a5) ns
  = (a1 + countWhere p1 ns, a2 + countWhere p2 ns, a3 + countWhere p3 ns,
     a4 + countWhere p4 ns, a5 + countWhere p5 ns).
Proof.
  revert a1 a2 a3 a4 a5. induction ns as [|n ns IH]; intros a1 a2 a3 a4 a5; simpl.
  - unfold countWhere. simpl. tuple_eq.
  - rewrite IH, !countWhere_cons. unfold incrIf.
    destruct (p1 n), (p2 n), (p3 n), (p4 n), (p5 n); tuple_eq.
Qed.

Lemma count_loop7 (p1 p2 p3 p4 p5 p6 p7 : loc -> bool) (ns : list loc)
    (a1 a2 a3 a4 a5 a6 a7 : Z) :
  foldl (fun '(c1, c2, c3, c4, c5, c6, c7) n =>
           (incrIf (p1 n) c1, incrIf (p2 n) c2, incrIf (p3 n) c3, incrIf (p4 n) c4,
            incrIf (p5 n) c5, incrIf (p6 n) c6, incrIf (p7 n) c7))
        (a1, a2, a3, a4, a5, a6, a7) ns
  = (a1 + countWhere p1 ns, a2 + countWhere p2 ns, a3 + countWhere p3 ns,
     a4 + countWhere p4 ns, a5 + countWhere p5 ns, a6 + countWhere p6 ns,
     a7 + countWhere p7 ns).
Proof.
  revert a1 a2 a3 a4 a5 a6 a7.
  induction ns as [|n ns IH]; intros a1 a2 a3 a4 a5 a6 a7; simpl.
  - unfold countWhere. simpl. tuple_eq.
  - rewrite IH, !countWhere_cons. unfold incrIf.
    destruct (p1 n), (p2 n), (p3 n), (p4 n), (p5 n), (p6 n), (p7 n); tuple_eq.
Qed.

(** The total of a breakdown all of whose bonuses are of one yield. *)
Lemma total_one_key (k : YieldKey) (bs : list AdjacencyBonus) :
  Forall (fun b => yieldType b = k) bs ->
  foldl (fun totalBonus bonus =>
           Yields_add (yieldType bonus) (amount bonus) totalBonus) EMPTY_YIELDS bs
  = Yields_add k (sumAmounts bs) EMPTY_YIELDS.
Proof.
  intros Hk. apply Yields_ext. intros k'.
  rewrite total_per_key, Yields_get_add.
  case_bool_decide as Hkk.
  - subst k'. by rewrite filter_all.
  - rewrite filter_none; [simpl; lia|].
    eapply Forall_impl; [exact Hk|]. simpl. intros b -> ?. done.
Qed.

Lemma sumAmounts_opt (c : bool) (b : AdjacencyBonus) :
  sumAmounts (if c then [b] else []) = if c then amount b else 0.
Proof. destruct c; simpl; lia. Qed.

Ltac total_of key :=
  rewrite (total_one_key key);
  [ rewrite ?sumAmounts_app, ?sumAmounts_opt; simpl sumAmounts; cbn [amount]
  | repeat (apply Forall_app; split);
    repeat match goal with |- context [if ?c then _ else _] => destruct c end;
    repeat constructor ].

Ltac by_counts :=
  repeat match goal with
         | |- context [countWhere ?p ?ns] =>
             let x := fresh "n" in
             let H := fresh "Hn" in
             pose proof (countWhere_nonneg p ns) as H;
             set (x := countWhere p ns) in *; clearbody x
         end;
  repeat match goal with
         | |- context [0 <? ?x] => destruct (Z.ltb_spec 0 x)
         | |- context [if ?c then _ else _] => destruct c
         end;
  unfold Yields_add, EMPTY_YIELDS; cbn [food production gold science culture faith];
  f_equal; first [lia | Z.div_mod_to_equations; lia].

(** X24.  The totals of a Campus, a Holy Site and a Theater Square, from
    the tiles next to them: a Campus has science 1 per Mountain, 1 per two
    of Rainforests and districts together, 2 per Geothermal Fissure and 2
    per Reef; a Holy Site has faith 1 per Mountain, 1 per two of Woods and
    districts together and 2 per natural wonder; a Theater Square has
    culture 2 per wonder and 1 per two districts; each has 1 more next to a
    Government Plaza, and 0 in every other field. *)
Theorem X24_campus_holy_site_theater_square_totals
    (h : Heap) (this_map : GameMap.t) (tile : loc) :
  let ns := GameMap.getNeighborTiles this_map (coord (tileAt h tile)) in
  let total :=
    DistrictAdjacencyResult.totalBonus
      (AdjacencyEngine.calculateDistrictAdjacency h this_map tile) in
  let districts := countWhere (Tile.hasDistrict h) ns in
  (Tile.district h tile = DistrictType.CAMPUS ->
   total = mkYields 0 0 0
             (countWhere (Tile.isMountain h) ns
              + (countWhere (fun n => Tile.feature h n === FeatureType.RAINFOREST) ns
                 + districts) `div` 2
              + 2 * countWhere (fun n => Tile.feature h n === FeatureType.GEOTHERMAL_FISSURE) ns
              + 2 * countWhere (fun n => Tile.feature h n === FeatureType.REEF) ns
              + govPlazaBonus h ns)
             0 0)
  /\ (Tile.district h tile = DistrictType.HOLY_SITE ->
      total = mkYields 0 0 0 0 0
                (countWhere (Tile.isMountain h) ns
                 + (countWhere (fun n => Tile.feature h n === FeatureType.WOODS) ns
                    + districts) `div` 2
                 + 2 * countWhere (Tile.hasNaturalWonder h) ns
                 + govPlazaBonus h ns))
  /\ (Tile.district h tile = DistrictType.THEATER_SQUARE ->
      total = mkYields 0 0 0 0
                (2 * countWhere (Tile.hasWonder h) ns + districts `div` 2
                 + govPlazaBonus h ns)
                0).
Proof.
  intros ns total districts.
  unfold total, districts, govPlazaBonus, AdjacencyEngine.calculateDistrictAdjacency.
  fold ns. cbn [DistrictAdjacencyResult.totalBonus].
  split_and!; intros ->;
    cbn [DISTRICT_DATA DistrictInfo.isSpecialty DistrictInfo.primaryYieldType];
    rewrite andb_true_r.
  - unfold AdjacencyEngine.calculateCampusAdjacency.
    rewrite count_loop5. rewrite !pushIf_app, !Z.add_0_l.
    assert (forall (c : bool) (bs : list AdjacencyBonus) b,
              (if c then bs ++ [b] else bs) = bs ++ (if c then [b] else [])) as ->
      by (intros [] ??; [done|by rewrite app_nil_r]).
    total_of Kscience. by_counts.
  - unfold AdjacencyEngine.calculateHolySiteAdjacency.
    rewrite count_loop4. rewrite !pushIf_app, !Z.add_0_l.
    assert (forall (c : bool) (bs : list AdjacencyBonus) b,
              (if c then bs ++ [b] else bs) = bs ++ (if c then [b] else [])) as ->
      by (intros [] ??; [done|by rewrite app_nil_r]).
    total_of Kfaith. by_counts.
  - unfold AdjacencyEngine.calculateTheaterSquareAdjacency.
    rewrite count_loop2. rewrite !pushIf_app, !Z.add_0_l.
    assert (forall (c : bool) (bs : list AdjacencyBonus) b,
              (if c then bs ++ [b] else bs) = bs ++ (if c then [b] else [])) as ->
      by (intros [] ??; [done|by rewrite app_nil_r]).
    total_of Kculture. by_counts.
Qed.

(** X25.  The totals of a Commercial Hub, a Harbor and an Industrial Zone:
    a Commercial Hub has gold 2 if the tile has a river edge, however many,
    2 per Harbor and 1 per two districts; a Harbor has gold 1 per water
    tile with a resource, 2 per City Center and 1 per two districts; an
    Industrial Zone has production 1 per Mine, 1 per Quarry, 2 per Aqueduct,
    Dam and Canal, 1 per two districts and 1 per strategic resource; each
    has 1 more next to a Government Plaza, and 0 in every other field. *)
Theorem X25_commercial_hub_harbor_industrial_zone_totals
    (h : Heap) (this_map : GameMap.t) (tile : loc) :
  let ns := GameMap.getNeighborTiles this_map (coord (tileAt h tile)) in
  let total :=
    DistrictAdjacencyResult.totalBonus
      (AdjacencyEngine.calculateDistrictAdjacency h this_map tile) in
  let districts := countWhere (Tile.hasDistrict h) ns in
  (Tile.district h tile = DistrictType.COMMERCIAL_HUB ->
   total = mkYields 0 0
             ((if Tile.hasRiver h tile then 2 else 0)
              + 2 * countWhere (fun n => Tile.district h n === DistrictType.HARBOR) ns
              + districts `div` 2
              + govPlazaBonus h ns)
             0 0 0)
  /\ (Tile.district h tile = DistrictType.HARBOR ->
      total = mkYields 0 0
                (countWhere (fun n => Tile.isWater h n
                                      && (Tile.resource h n !== ResourceType.NONE)) ns
                 + 2 * countWhere (fun n => Tile.district h n === DistrictType.CITY_CENTER) ns
                 + districts `div` 2
                 + govPlazaBonus h ns)
                0 0 0)
  /\ (Tile.district h tile = DistrictType.INDUSTRIAL_ZONE ->
      total = mkYields 0
                (countWhere (fun n => Tile.improvement h n === ImprovementType.MINE) ns
                 + countWhere (fun n => Tile.improvement h n === ImprovementType.QUARRY) ns
                 + 2 * (countWhere (fun n => Tile.district h n === DistrictType.AQUEDUCT) ns
                        + countWhere (fun n => Tile.district h n === DistrictType.DAM) ns
                        + countWhere (fun n => Tile.district h n === DistrictType.CANAL) ns)
                 + districts `div` 2
                 + countWhere (fun n => ResourceInfo.category (RESOURCE_DATA (Tile.resource h n))
                                        === ResourceCategory.STRATEGIC) ns
                 + govPlazaBonus h ns)
                0 0 0 0).
Proof.
  intros ns total districts.
  unfold total, districts, govPlazaBonus, AdjacencyEngine.calculateDistrictAdjacency.
  fold ns. cbn [DistrictAdjacencyResult.totalBonus].
  assert (forall (c : bool) (bs : list AdjacencyBonus) b,
            (if c then bs ++ [b] else bs) = bs ++ (if c then [b] else [])) as Hif
    by (intros [] ??; [done|by rewrite app_nil_r]).
  split_and!; intros ->;
    cbn [DISTRICT_DATA DistrictInfo.isSpecialty DistrictInfo.primaryYieldType];
    rewrite andb_true_r.
  - unfold AdjacencyEngine.calculateCommercialHubAdjacency.
    rewrite count_loop2. rewrite !pushIf_app, !Z.add_0_l, Hif.
    total_of Kgold. by_counts.
  - unfold AdjacencyEngine.calculateHarborAdjacency.
    rewrite count_loop3. rewrite !pushIf_app, !Z.add_0_l, Hif.
    total_of Kgold. by_counts.
  - unfold AdjacencyEngine.calculateIndustrialZoneAdjacency. cbv zeta.
    rewrite count_loop7. rewrite !pushIf_app, !Z.add_0_l, Hif.
    total_of Kproduction. by_counts.
Qed.

(** X26.  Every other district -- Entertainment Complex, Water Park,
    Aqueduct, Neighborhood, Spaceport, Aerodrome, Encampment, Government
    Plaza, Diplomatic Quarter, Preserve, Dam, Canal, City Center, and no
    district at all -- has an empty breakdown and a total of zero, also
    next to a Government Plaza. *)
Theorem X26_other_districts_have_no_adjacency
    (h : Heap) (this_map : GameMap.t) (tile : loc) :
  let res := AdjacencyEngine.calculateDistrictAdjacency h this_map tile in
  Tile.district h tile ∉ [DistrictType.CAMPUS; DistrictType.HOLY_SITE;
                          DistrictType.THEATER_SQUARE; DistrictType.COMMERCIAL_HUB;
                          DistrictType.HARBOR; DistrictType.INDUSTRIAL_ZONE] ->
  DistrictAdjacencyResult.bonusBreakdown res = []
  /\ DistrictAdjacencyResult.totalBonus res = EMPTY_YIELDS.
Proof.
  intros res Hd. unfold res, AdjacencyEngine.calculateDistrictAdjacency.
  cbn [DistrictAdjacencyResult.bonusBreakdown DistrictAdjacencyResult.totalBonus].
  destruct (existsb _ _);
    destruct (Tile.district h tile);
    try (exfalso; apply Hd; repeat (first [left | right]); fail);
    split; reflexivity.
Qed.

Lemma X26_other_districts_have_no_adjacency_witness :
  let res := AdjacencyEngine.calculateDistrictAdjacency
               (finalHeap hubScenario emptyHeap) (resultMap hubScenario emptyHeap) 0%nat in
  DistrictAdjacencyResult.bonusBreakdown res = []
  /\ DistrictAdjacencyResult.totalBonus res = EMPTY_YIELDS.
Proof.
  apply (X26_other_districts_have_no_adjacency
           (finalHeap hubScenario emptyHeap) (resultMap hubScenario emptyHeap) 0%nat).
  compute_done.
Defined.

(** ** The city, the search and the hypothetical placement *)

Lemma district_total (h : Heap) (m : GameMap.t) (tile : loc) (k : YieldKey) :
  0 <= Yields_get (DistrictAdjacencyResult.totalBonus
                     (AdjacencyEngine.calculateDistrictAdjacency h m tile)) k
  /\ (DistrictInfo.primaryYieldType (DISTRICT_DATA (Tile.district h tile)) <> Some k ->
      Yields_get (DistrictAdjacencyResult.totalBonus
                    (AdjacencyEngine.calculateDistrictAdjacency h m tile)) k = 0).
Proof.
  pose proof (breakdown_bonuses h m tile) as Hall.
  assert (Yields_get (DistrictAdjacencyResult.totalBonus
                        (AdjacencyEngine.calculateDistrictAdjacency h m tile)) k
          = sumAmounts (filter (fun b => yieldType b = k)
              (DistrictAdjacencyResult.bonusBreakdown
                 (AdjacencyEngine.calculateDistrictAdjacency h m tile)))) as ->.
  { unfold AdjacencyEngine.calculateDistrictAdjacency.
    cbn [DistrictAdjacencyResult.totalBonus DistrictAdjacencyResult.bonusBreakdown].
    rewrite total_per_key. by destruct k. }
  set (bs := DistrictAdjacencyResult.bonusBreakdown _) in *. split.
  - clearbody bs. induction Hall as [|b bs (Hb & _) _ IH]; [done|].
    rewrite filter_cons. destruct (decide _); simpl; lia.
  - intros Hk. rewrite filter_none; [done|].
    eapply Forall_impl; [exact Hall|]. intros b (_ & _ & Hb) Heq. apply Hk.
    by rewrite Hb, Heq.
Qed.

Lemma fold_totals (F : Yields -> DistrictAdjacencyResult.t -> Yields)
    (ds : list DistrictAdjacencyResult.t) (y : Yields) (k : YieldKey) :
  (forall y d k, Yields_get (F y d) k
                 = Yields_get y k + Yields_get (DistrictAdjacencyResult.totalBonus d) k) ->
  Yields_get (foldl F y ds) k = Yields_get y k + sumTotals k ds.
Proof.
  intros HF. revert y. induction ds as [|d ds IH]; intros y; simpl; [lia|].
  rewrite IH, HF. lia.
Qed.

(** X27.  The adjacency of a city.  Its districts are the results, one
    each, of the tiles within range 3 of the center that have a district
    other than the City Center; each field of its total is the sum of that
    field over the totals of the districts, so none is negative; and food
    is 0, no district having food as its primary yield. *)
Theorem X27_city_total_is_the_sum_of_its_districts
    (h : Heap) (this_map : GameMap.t) (cityCenter : HexCoord) :
  let res := AdjacencyEngine.calculateCityAdjacency h this_map cityCenter in
  let districts := CityAdjacencyResult.districts res in
  (forall k, Yields_get (CityAdjacencyResult.totalYields res) k = sumTotals k districts)
  /\ (forall k, 0 <= Yields_get (CityAdjacencyResult.totalYields res) k)
  /\ Yields_get (CityAdjacencyResult.totalYields res) Kfood = 0
  /\ (forall t, t ∈ (DistrictAdjacencyResult.tile <$> districts)
                <-> t ∈ GameMap.getTilesInRange this_map cityCenter 3
                    /\ Tile.hasDistrict h t = true
                    /\ Tile.district h t <> DistrictType.CITY_CENTER)
  /\ Forall (fun d => d = AdjacencyEngine.calculateDistrictAdjacency h this_map
                           (DistrictAdjacencyResult.tile d)) districts.
Proof.
  intros res districts.
  assert (forall k, Yields_get (CityAdjacencyResult.totalYields res) k
                    = sumTotals k districts) as Hsum.
  { intros k. unfold res, districts, AdjacencyEngine.calculateCityAdjacency.
    cbn [CityAdjacencyResult.totalYields CityAdjacencyResult.districts].
    rewrite fold_totals; [by destruct k|].
    intros y d k'. destruct k'; reflexivity. }
  assert (Forall (fun d => d = AdjacencyEngine.calculateDistrictAdjacency h this_map
                                 (DistrictAdjacencyResult.tile d)) districts) as Hds.
  { unfold districts, res, AdjacencyEngine.calculateCityAdjacency.
    cbn [CityAdjacencyResult.districts]. rewrite map_fmap.
    apply Forall_forall. intros d Hd. by apply list_elem_of_fmap in Hd as (t & -> & _). }
  assert (forall k (P : Z -> Prop), P 0 -> (forall a b, P a -> P b -> P (a + b)) ->
            (forall t, P (Yields_get (DistrictAdjacencyResult.totalBonus
                            (AdjacencyEngine.calculateDistrictAdjacency h this_map t)) k)) ->
            P (sumTotals k districts)) as Hind.
  { intros k P H0 Hadd Ht. clear Hsum. induction Hds as [|d ds Hd _ IH]; [done|].
    simpl. apply Hadd; [|done]. rewrite Hd. apply Ht. }
  split_and!; [done| | | |done].
  - intros k. rewrite Hsum. apply (Hind k (fun z => 0 <= z)); [lia|lia|].
    intros t. apply district_total.
  - rewrite Hsum. apply (Hind Kfood (fun z => z = 0)); [lia|lia|].
    intros t. apply district_total. by destruct (Tile.district h t).
  - intros t. unfold districts, res, AdjacencyEngine.calculateCityAdjacency.
    cbn [CityAdjacencyResult.districts].
    assert (forall l : list loc,
              DistrictAdjacencyResult.tile
                <$> map (AdjacencyEngine.calculateDistrictAdjacency h this_map) l = l)
      as -> by (induction l as [|x l IH]; csimpl; [done|by rewrite IH]).
    rewrite list_elem_of_In, filter_In, <- list_elem_of_In, andb_true_iff, negb_true_iff.
    rewrite bool_decide_eq_false. tauto.
Qed.

(** X28.  The placement search only allocates: on a grid whose tiles are
    allocated and stand under the keys of their coordinates it never throws,
    every object of the store is in the store after it, unchanged, and the
    grid serializes as before, tile by tile. *)
Theorem X28_search_changes_nothing
    (h : Heap) (this_map : GameMap.t) (cityCenter : HexCoord) (dt : DistrictType.t) :
  map_keyed h this_map -> map_allocated h this_map ->
  let run := AdjacencyEngine.findBestDistrictPlacement this_map cityCenter dt in
  (exists best, completion run h = Normal best)
  /\ heap_extends h (finalHeap run h)
  /\ Forall (fun l => Tile.toJSON (finalHeap run h) l = Tile.toJSON h l)
            (GameMap.getAllTiles this_map)
  /\ GameMap.toJSON (finalHeap run h) this_map = GameMap.toJSON h this_map.
Proof.
  intros Hkeyed Halloc run.
  set (cands := candidates h this_map cityCenter dt).
  assert (Forall (fun t => t ∈ GameMap.getAllTiles this_map) cands) as Hcands.
  { apply Forall_forall. intros t Ht. unfold cands, candidates in Ht.
    apply list_elem_of_In, filter_In in Ht as [Ht _].
    pose proof (getTilesInRange_in_tiles this_map cityCenter 3) as Hall.
    rewrite Forall_forall in Hall. by apply Hall, list_elem_of_In. }
  destruct (search_loop h this_map dt cands [] (None, NegInfinity) h
              Hkeyed Halloc (conj (reflexivity _) (reflexivity _)) Hcands)
    as ([bestResult bestTotal] & hf & Hrun & Hext & _).
  { split; reflexivity. }
  assert (run h = (Normal bestResult, hf)) as Hrun'.
  { unfold run. rewrite findBestDistrictPlacement_run. fold cands.
    by rewrite (bind_Normal _ _ _ _ _ Hrun). }
  unfold completion, finalHeap. rewrite Hrun'. cbn [fst snd]. split_and!.
  - by exists bestResult.
  - exact Hext.
  - eapply Forall_impl; [exact Halloc|]. intros l Hl. by apply heap_extends_toJSON.
  - by apply heap_extends_map_toJSON.
Qed.

Lemma X28_search_changes_nothing_witness :
  let h := finalHeap hubScenario emptyHeap in
  let m := resultMap hubScenario emptyHeap in
  let run := AdjacencyEngine.findBestDistrictPlacement m (mkHexCoord 1 1)
               DistrictType.HOLY_SITE in
  (exists best, completion run h = Normal best)
  /\ heap_extends h (finalHeap run h)
  /\ Forall (fun l => Tile.toJSON (finalHeap run h) l = Tile.toJSON h l)
            (GameMap.getAllTiles m)
  /\ GameMap.toJSON (finalHeap run h) m = GameMap.toJSON h m.
Proof.
  apply (X28_search_changes_nothing (finalHeap hubScenario emptyHeap)
           (resultMap hubScenario emptyHeap) (mkHexCoord 1 1) DistrictType.HOLY_SITE);
    compute_done.
Defined.

Lemma canPlace_accepted (h : Heap) (tile : loc) (dt : DistrictType.t) :
  AdjacencyEngine.canPlaceDistrict h tile dt = true ->
  Tile.isMountain h tile = false ->
  refusal (tileAt h tile) (CallSetDistrict dt) = None.
Proof.
  unfold AdjacencyEngine.canPlaceDistrict, Tile.isMountain, Tile.isWater, Tile.isHill.
  intros Hplace Hm. simpl. rewrite Hm. simpl.
  destruct ((_terrain (tileAt h tile) === TerrainType.COAST)
            || (_terrain (tileAt h tile) === TerrainType.OCEAN)); [|done].
  destruct dt; simpl in *; try done.
Qed.

(** X29.  What the search may propose, [setDistrict] accepts: on a tile
    that is not a Mountain and passes [canPlaceDistrict] for a district,
    [setDistrict] with that district does not throw; so it is for every
    candidate of the search. *)
Theorem X29_candidates_are_accepted_by_setDistrict
    (h : Heap) (this_map : GameMap.t) (cityCenter : HexCoord) (dt : DistrictType.t)
    (tile : loc) :
  (AdjacencyEngine.canPlaceDistrict h tile dt = true ->
   Tile.isMountain h tile = false ->
   completion (Tile.setDistrict tile dt) h = Normal tile)
  /\ Forall (fun t => completion (Tile.setDistrict t dt) h = Normal t)
            (candidates h this_map cityCenter dt).
Proof.
  assert (forall t, AdjacencyEngine.canPlaceDistrict h t dt = true ->
                    Tile.isMountain h t = false ->
                    completion (Tile.setDistrict t dt) h = Normal t) as Hok.
  { intros t Hplace Hm.
    change (Tile.setDistrict t dt) with (call t (CallSetDistrict dt)).
    by rewrite call_completion, canPlace_accepted. }
  split; [apply Hok|].
  apply Forall_forall. intros t Ht. unfold candidates in Ht.
  apply list_elem_of_In, filter_In in Ht as [_ Ht].
  apply andb_prop in Ht as [Ht Hplace]. apply andb_prop in Ht as [_ Hm].
  apply negb_true_iff in Hm. by apply Hok.
Qed.

(** The bonuses of a district tile depend on the store only through the
    tile's coordinate, district and river and the fields of its neighbour
    tiles. *)
Lemma calculateDistrictAdjacency_local (h1 h2 : Heap) (m : GameMap.t) (t1 t2 : loc) :
  Forall (fun n => tileAt h1 n = tileAt h2 n)
         (GameMap.getNeighborTiles m (coord (tileAt h2 t2))) ->
  coord (tileAt h1 t1) = coord (tileAt h2 t2) ->
  Tile.district h1 t1 = Tile.district h2 t2 ->
  Tile.hasRiver h1 t1 = Tile.hasRiver h2 t2 ->
  DistrictAdjacencyResult.bonusBreakdown (AdjacencyEngine.calculateDistrictAdjacency h1 m t1)
  = DistrictAdjacencyResult.bonusBreakdown (AdjacencyEngine.calculateDistrictAdjacency h2 m t2)
  /\ DistrictAdjacencyResult.totalBonus (AdjacencyEngine.calculateDistrictAdjacency h1 m t1)
     = DistrictAdjacencyResult.totalBonus (AdjacencyEngine.calculateDistrictAdjacency h2 m t2).
Proof.
  intros Hns Hc Hd Hr.
  assert (DistrictAdjacencyResult.bonusBreakdown
            (AdjacencyEngine.calculateDistrictAdjacency h1 m t1)
          = DistrictAdjacencyResult.bonusBreakdown
              (AdjacencyEngine.calculateDistrictAdjacency h2 m t2)) as Hb.
  { unfold AdjacencyEngine.calculateDistrictAdjacency. cbn [DistrictAdjacencyResult.bonusBreakdown].
    rewrite Hc, Hd.
    destruct (helpers_congr h1 h2 t1 t2 _ [] Hns Hr) as (-> & -> & -> & -> & -> & ->).
    assert (existsb (fun n => Tile.district h1 n === DistrictType.GOVERNMENT_PLAZA)
              (GameMap.getNeighborTiles m (coord (tileAt h2 t2)))
            = existsb (fun n => Tile.district h2 n === DistrictType.GOVERNMENT_PLAZA)
                (GameMap.getNeighborTiles m (coord (tileAt h2 t2)))) as ->.
    { induction Hns as [|n ns Hn _ IH]; simpl; [done|].
      rewrite IH. unfold Tile.district. by rewrite Hn. }
    reflexivity. }
  split; [exact Hb|].
  unfold AdjacencyEngine.calculateDistrictAdjacency in *.
  cbn [DistrictAdjacencyResult.bonusBreakdown DistrictAdjacencyResult.totalBonus] in *.
  by rewrite Hb.
Qed.

Lemma of_list_nil_iff (xs : list Z) :
  foldl (fun s x => JsSet.add_elem x s) [] xs = [] <-> xs = [].
Proof.
  split; [|by intros ->].
  intros Hnil. destruct xs as [|x xs]; [done|].
  assert (x ∈ foldl (fun s x => JsSet.add_elem x s) [] (x :: xs)) as Hin
    by (apply of_list_elem_of; left).
  rewrite Hnil in Hin. by apply elem_of_nil in Hin.
Qed.

(** X30.  The hypothetical placement agrees with the real one.  For a tile
    of a grid whose tiles are allocated and stand under the keys of their
    coordinates: if [setDistrict] accepts the district on the tile, then the
    result of [calculatePotentialAdjacency] at the tile's coordinate,
    computed before the placement, has the breakdown and the total that
    [calculateDistrictAdjacency] gives the tile after it. *)
Theorem X30_potential_adjacency_is_the_adjacency_after_placement
    (h : Heap) (this_map : GameMap.t) (tile : loc) (dt : DistrictType.t) :
  map_keyed h this_map -> map_allocated h this_map ->
  tile ∈ GameMap.getAllTiles this_map ->
  completion (Tile.setDistrict tile dt) h = Normal tile ->
  let placed := finalHeap (Tile.setDistrict tile dt) h in
  let actual := AdjacencyEngine.calculateDistrictAdjacency placed this_map tile in
  exists res,
    completion (AdjacencyEngine.calculatePotentialAdjacency this_map
                  (coord (tileAt h tile)) dt) h = Normal (Some res)
    /\ DistrictAdjacencyResult.districtType res = dt
    /\ DistrictAdjacencyResult.districtType actual = dt
    /\ DistrictAdjacencyResult.bonusBreakdown res
       = DistrictAdjacencyResult.bonusBreakdown actual
    /\ DistrictAdjacencyResult.totalBonus res = DistrictAdjacencyResult.totalBonus actual.
Proof.
  intros Hkeyed Halloc Hin Hok placed actual.
  change (Tile.setDistrict tile dt) with (call tile (CallSetDistrict dt)) in *.
  assert (refusal (tileAt h tile) (CallSetDistrict dt) = None) as Hr.
  { rewrite call_completion in Hok. by destruct (refusal _ _). }
  assert (allocated h tile) as [Htile Hset].
  { unfold map_allocated in Halloc. rewrite Forall_forall in Halloc. by apply Halloc. }
  pose proof (keyed_getTile h this_map tile Hkeyed Hin) as Hget.
  assert (tileAt placed tile = tileEffect (CallSetDistrict dt) (tileAt h tile)) as Hplaced.
  { unfold placed. rewrite call_tileAt by done. by rewrite decide_True. }
  assert (coord (tileAt placed tile) = coord (tileAt h tile)) as Hcoord.
  { rewrite Hplaced. apply tileEffect_shape. }
  assert (Tile.district placed tile = dt) as Hdist.
  { unfold Tile.district. rewrite Hplaced. simpl.
    by destruct (dt !== DistrictType.NONE). }
  unfold completion. rewrite calculatePotentialAdjacency_run, Hget. cbn [fst].
  eexists. split; [reflexivity|].
  set (temp := finalHeap (Tile.fromJSON _) h).
  assert (tileAt temp (length (tileObjs h))
          = fieldsOfData (AdjacencyEngine.with_district_data dt (Tile.toJSON h tile))
              (S (length (setObjs h)))) as Htemp.
  { unfold temp, finalHeap. rewrite Tile_fromJSON_run. cbn [snd]. apply tileAt_last. }
  assert (Tile.district temp (length (tileObjs h)) = dt) as Htd.
  { unfold Tile.district. by rewrite Htemp. }
  split_and!; [exact Htd|exact Hdist|..];
    apply calculateDistrictAdjacency_local.
  all: try (rewrite Htemp, Hcoord; reflexivity).
  all: try (by rewrite Htd, Hdist).
  all: try (unfold Tile.hasRiver, JsSet.size; rewrite Htemp; cbn [_riverEdges fieldsOfData];
            unfold temp, finalHeap; rewrite Tile_fromJSON_run; cbn [snd];
            rewrite setAt_second; cbn [TileData.riverEdges AdjacencyEngine.with_district_data
                                       Tile.toJSON];
            destruct (tileEffect_shape (CallSetDistrict dt) (tileAt h tile)) as [_ He];
            rewrite Hplaced, He; unfold placed; rewrite call_setAt by done;
            rewrite decide_True by done; cbn [edgesEffect]; unfold JsSet.values;
            pose proof (of_list_nil_iff (setAt h (_riverEdges (tileAt h tile)))) as Hnil;
            destruct (foldl _ [] (setAt h (_riverEdges (tileAt h tile)))) as [|x xs];
            destruct (setAt h (_riverEdges (tileAt h tile))) as [|y ys];
            try done;
            [by destruct (proj1 Hnil eq_refl)|by destruct (proj2 Hnil eq_refl)]).
  all: rewrite Hcoord; apply Forall_forall; intros n Hn;
    unfold GameMap.getNeighborTiles in Hn;
    apply list_elem_of_omap in Hn as (c & Hc & Hgetn);
    pose proof (getTile_keyed_coord h this_map c n Hkeyed Hgetn) as Hcn;
    assert (n <> tile) as Hne
      by (intros ->; destruct (neighbors_distance_1 (coord (tileAt h tile))) as (_ & _ & Hd1);
          apply Hd1 in Hc; rewrite <- Hcn in Hc;
          pose proof (proj2 (distance_zero (coord (tileAt h tile)) (coord (tileAt h tile)))
                        eq_refl); lia);
    assert (allocated h n) as [Hn1 _]
      by (unfold map_allocated in Halloc; rewrite Forall_forall in Halloc;
          apply Halloc; by eapply getTile_in_tiles);
    unfold placed; rewrite call_tileAt by done;
    rewrite decide_False by (intros [? _]; congruence);
    apply heap_extends_tileAt; [apply Tile_fromJSON_extends|done].
Qed.

Lemma X30_potential_adjacency_is_the_adjacency_after_placement_witness :
  let h := finalHeap hubScenario emptyHeap in
  let m := resultMap hubScenario emptyHeap in
  let placed := finalHeap (Tile.setDistrict 0%nat DistrictType.HOLY_SITE) h in
  let actual := AdjacencyEngine.calculateDistrictAdjacency placed m 0%nat in
  exists res,
    completion (AdjacencyEngine.calculatePotentialAdjacency m
                  (coord (tileAt h 0%nat)) DistrictType.HOLY_SITE) h = Normal (Some res)
    /\ DistrictAdjacencyResult.districtType res = DistrictType.HOLY_SITE
    /\ DistrictAdjacencyResult.districtType actual = DistrictType.HOLY_SITE
    /\ DistrictAdjacencyResult.bonusBreakdown res
       = DistrictAdjacencyResult.bonusBreakdown actual
    /\ DistrictAdjacencyResult.totalBonus res = DistrictAdjacencyResult.totalBonus actual.
Proof.
  apply (X30_potential_adjacency_is_the_adjacency_after_placement
           (finalHeap hubScenario emptyHeap) (resultMap hubScenario emptyHeap)
           0%nat DistrictType.HOLY_SITE); compute_done.
Defined.
